(** * Twenty CRM MCP server: schema compiler, payload sanitizer, result
    normalizer and the composite note-linking operation.

    Shallow embedding of [schema-loader.js] (class [SchemaLoader]) and of
    [index.js] (class [TwentyCRMServer]).

    Modelling conventions.
    - A JavaScript value is a [JsVal]. An object whose enumeration order the
      code reads ([Object.entries], [Object.keys]) is the list of its entries
      in that order; an object the code only uses as a dictionary
      ([sanitized], [properties], the registry maps) is a [gmap].
    - Numbers are IEEE doubles in the source. The code observes them only
      through [Number.isFinite], [String(...)], truthiness and array lengths,
      so the number type is abstract and these observations are the
      operations of the class [JsNumber].
    - A string is a sequence of code units below 256; case mapping and
      whitespace follow ECMAScript on that range.
    - Only own properties are modelled: there is no prototype chain, so
      [in] and property reads see the entries of the object and nothing
      else. The names that every object inherits are
      [objectPrototypeNames]: [objectTools] models [in] on them, and
      [mapFieldType] is the lookup of the code for every other name.
    - An assignment [obj[key] = value] defines a member of [obj]. For the
      key [__proto__] JavaScript sets the prototype instead and stores no
      member: [normalizeDefaultValue] and [compileField] model this
      for the objects they build; the sanitizer treats the key like any
      other, so that it is the code for payloads and relations without
      that key.
    - [toString] is the string conversion of a value where the conversion
      returns. It throws on an object that has a member [toString] of its
      own, which a parsed JSON text can hold: [stringifiable] tells the two
      cases apart. [handleCRUDOperation] models the throw; [requestKey],
      [extractResourceId] and [createNoteForPerson] are the code for values
      whose conversions return. *)

From Stdlib Require Import String Ascii List Bool ZArith Lia.
From stdpp Require Import base option list gmap strings fin_maps pretty.

Local Open Scope string_scope.

(** ** Strings *)

Module Str.

(** WhiteSpace and LineTerminator code units below 256, as
    [String.prototype.trim] strips them. *)
Definition isWhiteSpace (c : ascii) : bool :=
  let n := nat_of_ascii c in
  (Nat.leb 9 n && Nat.leb n 13) || Nat.eqb n 32 || Nat.eqb n 160.

Fixpoint trimStart (s : string) : string :=
  match s with
  | EmptyString => EmptyString
  | String c r => if isWhiteSpace c then trimStart r else s
  end.

Fixpoint trimEnd (s : string) : string :=
  match s with
  | EmptyString => EmptyString
  | String c r =>
      match trimEnd r with
      | EmptyString => if isWhiteSpace c then EmptyString else String c EmptyString
      | r' => String c r'
      end
  end.

Definition trim (s : string) : string := trimEnd (trimStart s).

(** [s.length] is non-zero. *)
Definition nonEmpty (s : string) : bool :=
  match s with EmptyString => false | String _ _ => true end.

Definition lowerChar (c : ascii) : ascii :=
  let n := nat_of_ascii c in
  if (Nat.leb 65 n && Nat.leb n 90)
     || (Nat.leb 192 n && Nat.leb n 222 && negb (Nat.eqb n 215))
  then ascii_of_nat (n + 32) else c.

(** Used on the fixed core object names only, which are ASCII. *)
Definition upperChar (c : ascii) : ascii :=
  let n := nat_of_ascii c in
  if Nat.leb 97 n && Nat.leb n 122 then ascii_of_nat (n - 32) else c.

Fixpoint toLowerCase (s : string) : string :=
  match s with
  | EmptyString => EmptyString
  | String c r => String (lowerChar c) (toLowerCase r)
  end.

(** [s.charAt(0).toUpperCase() + s.slice(1)] *)
Definition capitalize (s : string) : string :=
  match s with
  | EmptyString => EmptyString
  | String c r => String (upperChar c) r
  end.

(** Case-insensitive comparison of two strings of the same length against
    an ASCII-letter pattern, as the [i] flag of a regular expression
    compares a literal. *)
Fixpoint eqIgnoreCase (s pat : string) : bool :=
  match s, pat with
  | EmptyString, EmptyString => true
  | String c r, String p q => Ascii.eqb (lowerChar c) (lowerChar p) && eqIgnoreCase r q
  | _, _ => false
  end.

(** [/(pat)$/i.test(s)] for a literal [pat]. *)
Fixpoint endsWithIgnoreCase (pat s : string) : bool :=
  if Nat.eqb (String.length s) (String.length pat) then eqIgnoreCase s pat
  else match s with
       | EmptyString => false
       | String _ r => endsWithIgnoreCase pat r
       end.

(** [s.endsWith(suffix)] *)
Fixpoint endsWith (suffix s : string) : bool :=
  if String.eqb s suffix then true
  else match s with
       | EmptyString => false
       | String _ r => endsWith suffix r
       end.

(** [s.slice(0, -1)] *)
Fixpoint dropLast (s : string) : string :=
  match s with
  | EmptyString => EmptyString
  | String c EmptyString => EmptyString
  | String c r => String c (dropLast r)
  end.

(** The replacement of [normalizeDefaultValue], which deletes a quote
    character (single, code 39, or double, code 34) at the start of the
    string and one at its end. *)
Definition isQuote (c : ascii) : bool :=
  Nat.eqb (nat_of_ascii c) 39 || Nat.eqb (nat_of_ascii c) 34.

Fixpoint stripTrailingQuote (s : string) : string :=
  match s with
  | EmptyString => EmptyString
  | String c EmptyString => if isQuote c then EmptyString else s
  | String c r => String c (stripTrailingQuote r)
  end.

Definition stripQuotes (s : string) : string :=
  match s with
  | EmptyString => EmptyString
  | String c r => if isQuote c then stripTrailingQuote r else stripTrailingQuote s
  end.

(** [parts.join(sep)] *)
Fixpoint join (sep : string) (parts : list string) : string :=
  match parts with
  | [] => ""
  | [p] => p
  | p :: rest => p +:+ sep +:+ join sep rest
  end.

End Str.

(** ** JavaScript values *)

(** The observations the code makes of a number. *)
Class JsNumber (N : Type) := {
  number_isFinite : N -> bool;      (* Number.isFinite(n) *)
  number_toString : N -> string;    (* String(n) *)
  number_truthy : N -> bool;        (* false for 0, -0 and NaN *)
  number_ofNat : nat -> N           (* an array length as a number *)
}.

#[local] Set Warnings "-register-all".

Inductive JsVal (N : Type) : Type :=
| JUndefined
| JNull
| JBool (b : bool)
| JNum (n : N)
| JStr (s : string)
| JArr (items : list (JsVal N))
| JObj (entries : list (string * JsVal N)).

Arguments JUndefined {N}.
Arguments JNull {N}.
Arguments JBool {N} b.
Arguments JNum {N} n.
Arguments JStr {N} s.
Arguments JArr {N} items.
Arguments JObj {N} entries.

Section Values.
Context {N : Type} `{!JsNumber N}.

Definition typeof (v : JsVal N) : string :=
  match v with
  | JUndefined => "undefined"
  | JNull => "object"
  | JBool _ => "boolean"
  | JNum _ => "number"
  | JStr _ => "string"
  | JArr _ => "object"
  | JObj _ => "object"
  end.

Definition isArray (v : JsVal N) : bool :=
  match v with JArr _ => true | _ => false end.

(** ToBoolean *)
Definition truthy (v : JsVal N) : bool :=
  match v with
  | JUndefined | JNull => false
  | JBool b => b
  | JNum n => number_truthy n
  | JStr s => Str.nonEmpty s
  | JArr _ | JObj _ => true
  end.

Definition isUndefined (v : JsVal N) : bool :=
  match v with JUndefined => true | _ => false end.

Definition isNull (v : JsVal N) : bool :=
  match v with JNull => true | _ => false end.

(** Lookup of a key in the entries of an object. *)
Fixpoint entryOf (key : string) (entries : list (string * JsVal N)) : option (JsVal N) :=
  match entries with
  | [] => None
  | (k, v) :: rest => if String.eqb k key then Some v else entryOf key rest
  end.

(** [v.key] for the property names the code reads ([id], [value], [ids],
    [data], [items], [records], [record], [pageInfo], [meta], the
    pagination keys, [personId], ...): none of them is [length] or an
    index, so only a plain object can hold them; every other value gives
    [undefined]. The code never reads a property of [null] or
    [undefined]. *)
Definition prop (v : JsVal N) (key : string) : JsVal N :=
  match v with
  | JObj entries => default JUndefined (entryOf key entries)
  | _ => JUndefined
  end.

(** [key in v], for the same property names. *)
Definition hasKey (key : string) (v : JsVal N) : bool :=
  match v with
  | JObj entries => bool_decide (is_Some (entryOf key entries))
  | _ => false
  end.

(** [a || b] *)
Definition jsOr (a b : JsVal N) : JsVal N := if truthy a then a else b.

(** [Object.entries(v)] of a value whose [typeof] is ["object"] and which
    is not [null]: the entries of an object, the indexed elements of an
    array. *)
Definition objectEntries (v : JsVal N) : list (string * JsVal N) :=
  match v with
  | JObj entries => entries
  | JArr items => imap (fun i x => (pretty i, x)) items
  | _ => []
  end.

(** ToString, as a template literal applies it, where it returns (see
    [stringifiable] below). *)
Fixpoint toString (v : JsVal N) : string :=
  match v with
  | JUndefined => "undefined"
  | JNull => "null"
  | JBool true => "true"
  | JBool false => "false"
  | JNum n => number_toString n
  | JStr s => s
  | JArr items =>
      Str.join ","
        (map (fun x => match x with
                       | JUndefined | JNull => ""
                       | _ => toString x
                       end) items)
  | JObj _ => "[object Object]"
  end.

(** ToString returns: no object that the conversion reaches has a member
    [toString] of its own. Such a member of a parsed JSON text is not
    callable, and neither it nor the inherited [valueOf] gives a primitive,
    so that the conversion throws a TypeError; an array is converted
    through its elements. *)
Fixpoint stringifiable (v : JsVal N) : bool :=
  match v with
  | JArr items => forallb stringifiable items
  | JObj entries => negb (bool_decide (is_Some (entryOf "toString" entries)))
  | _ => true
  end.

End Values.

(** ** Metadata records (the JSON export read by [SchemaLoader]) *)

(** [a || b] on optional strings: a missing or empty string is falsy. *)
Definition orElse (a b : option string) : option string :=
  match a with
  | Some s => if Str.nonEmpty s then a else b
  | None => b
  end.

Definition isSome_nonEmpty (a : option string) : bool :=
  match a with Some s => Str.nonEmpty s | None => false end.

(** [field.relation.targetObjectMetadata] *)
Record TargetObjectMetadata := {
  targetNameSingular : option string;
  targetNamePlural : option string;
  targetLabelSingular : option string;
  targetLabelPlural : option string
}.

(** [field.relation] *)
Record FieldRelation := {
  relationType : option string;
  targetObjectMetadata : option TargetObjectMetadata
}.

(** An entry of [field.options]: a bare string, or a record whose [value]
    member is read. *)
Inductive FieldOption (N : Type) :=
| OptionName (s : string)
| OptionRecord (entries : list (string * JsVal N)).

Arguments OptionName {N} s.
Arguments OptionRecord {N} entries.

Record Field (N : Type) := {
  fieldName : string;
  fieldType : string;
  fieldIsActive : bool;
  fieldIsSystem : bool;
  fieldIsNullable : option bool;
  fieldDefaultValue : JsVal N;
  fieldLabel : option string;
  fieldDescription : option string;
  fieldOptions : option (list (FieldOption N));
  fieldRelation : option FieldRelation
}.

Arguments fieldName {N} _.
Arguments fieldType {N} _.
Arguments fieldIsActive {N} _.
Arguments fieldIsSystem {N} _.
Arguments fieldIsNullable {N} _.
Arguments fieldDefaultValue {N} _.
Arguments fieldLabel {N} _.
Arguments fieldDescription {N} _.
Arguments fieldOptions {N} _.
Arguments fieldRelation {N} _.

(** An element of [metadata.data.objects]. *)
Record MetaObject (N : Type) := {
  objNameSingular : string;
  objNamePlural : string;
  objLabelSingular : option string;
  objLabelPlural : option string;
  objDescription : option string;
  objIsActive : bool;
  objIsSystem : bool;
  objFields : list (Field N)
}.

Arguments objNameSingular {N} _.
Arguments objNamePlural {N} _.
Arguments objLabelSingular {N} _.
Arguments objLabelPlural {N} _.
Arguments objDescription {N} _.
Arguments objIsActive {N} _.
Arguments objIsSystem {N} _.
Arguments objFields {N} _.

(** An element of [schema.relationMetadata]. *)
Record RelationMeta := {
  relName : string;
  relAlias : option string;
  relRelationType : option string;
  relTargetNameSingular : option string;
  relTargetNamePlural : option string;
  relTargetLabelSingular : option string;
  relTargetLabelPlural : option string
}.

(** The object contract returned by [generateToolSchema] and registered by
    [registerObjectSchema]. *)
Record Schema (N : Type) := {
  nameSingular : string;
  namePlural : string;
  labelSingular : option string;
  labelPlural : option string;
  description : option string;
  properties : gmap string (JsVal N);
  required : list string;
  fieldMetadata : list (Field N);
  relationMetadata : list RelationMeta
}.

Arguments nameSingular {N} _.
Arguments namePlural {N} _.
Arguments labelSingular {N} _.
Arguments labelPlural {N} _.
Arguments description {N} _.
Arguments properties {N} _.
Arguments required {N} _.
Arguments fieldMetadata {N} _.
Arguments relationMetadata {N} _.

(** ** [SchemaLoader] (schema-loader.js) *)

Module SchemaLoader.
Section Loader.
Context {N : Type} `{!JsNumber N}.

Definition AUTO_DEFAULT_TOKENS : list string :=
  ["now"; "uuid"; "incrementalposition"; "currentuser"; "autoincrement"].

Definition doubleQuote : string := String (ascii_of_nat 34) EmptyString.

(** The two-character strings made of two single quotes and of two double
    quotes. *)
Definition EMPTY_STRING_TOKENS : list string :=
  ["''"; doubleQuote +:+ doubleQuote].

Definition has (tokens : list string) (s : string) : bool :=
  existsb (String.eqb s) tokens.

Fixpoint normalizeDefaultValue (value : JsVal N) : JsVal N :=
  match value with
  | JNull | JUndefined => JUndefined
  | JStr s =>
      let trimmed := Str.trim s in
      if has EMPTY_STRING_TOKENS trimmed then JStr ""
      else
        let stripped := Str.stripQuotes trimmed in
        if has AUTO_DEFAULT_TOKENS (Str.toLowerCase stripped) then JUndefined
        else JStr stripped
  | JArr items =>
      let normalizedArray :=
        List.filter (fun item => negb (isUndefined item))
                    (map normalizeDefaultValue items) in
      match normalizedArray with
      | [] => JUndefined
      | _ => JArr normalizedArray
      end
  | JObj entries =>
      let normalizedObject :=
        (fix each (es : list (string * JsVal N)) : list (string * JsVal N) :=
           match es with
           | [] => []
           | (key, val) :: rest =>
               let normalizedVal := normalizeDefaultValue val in
               if isUndefined normalizedVal then each rest
               else if key =? "__proto__" then each rest
               else (key, normalizedVal) :: each rest
           end) entries in
      match normalizedObject with
      | [] => JUndefined
      | _ => JObj normalizedObject
      end
  | _ => value
  end.

(** The names of the members that every object inherits from
    [Object.prototype]. *)
Definition objectPrototypeNames : list string :=
  ["constructor"; "__defineGetter__"; "__defineSetter__"; "hasOwnProperty";
   "__lookupGetter__"; "__lookupSetter__"; "isPrototypeOf"; "propertyIsEnumerable";
   "toString"; "valueOf"; "__proto__"; "toLocaleString"].

(** The literal [typeMap]. *)
Definition typeMap : list (string * string) :=
  [("TEXT", "string"); ("UUID", "string"); ("EMAIL", "string");
   ("PHONE", "string"); ("LINK", "string"); ("LINKS", "object");
   ("NUMBER", "number"); ("NUMERIC", "number"); ("BOOLEAN", "boolean");
   ("DATE_TIME", "string"); ("DATE", "string"); ("CURRENCY", "object");
   ("SELECT", "string"); ("MULTI_SELECT", "array"); ("RATING", "string");
   ("ADDRESS", "object"); ("FULL_NAME", "object"); ("ACTOR", "object");
   ("EMAILS", "object"); ("PHONES", "object"); ("ARRAY", "array");
   ("RAW_JSON", "object"); ("RICH_TEXT", "string"); ("POSITION", "number");
   ("RELATION", "string")].

Fixpoint assoc (key : string) (table : list (string * string)) : option string :=
  match table with
  | [] => None
  | (k, v) :: rest => if String.eqb k key then Some v else assoc key rest
  end.

(** [typeMap[fieldType] || 'string'], for a [fieldType] that names no member
    the literal inherits: for one of [objectPrototypeNames] the code returns
    that member, which is no string. *)
Definition mapFieldType (fieldType : string) : string :=
  default "string" (assoc fieldType typeMap).

Definition isType (t : option string) (name : string) : bool :=
  match t with Some s => String.eqb s name | None => false end.

Definition isSingleType (t : option string) : bool :=
  isType t "MANY_TO_ONE" || isType t "ONE_TO_ONE".

Definition isMultipleType (t : option string) : bool :=
  isType t "ONE_TO_MANY" || isType t "MANY_TO_MANY".

(** [a || d] with a string literal [d]. *)
Definition orDefault (a : option string) (d : string) : string :=
  match a with
  | Some s => if Str.nonEmpty s then s else d
  | None => d
  end.

Definition optVal (a : option string) : JsVal N :=
  match a with Some s => JStr s | None => JUndefined end.

(** [{ type: t, description: d }] *)
Definition described (t d : string) : JsVal N :=
  JObj [("type", JStr t); ("description", JStr d)].

(** [obj[key] = val]: an existing entry keeps its place. *)
Definition setProp (key : string) (val : JsVal N)
           (entries : list (string * JsVal N)) : list (string * JsVal N) :=
  if bool_decide (is_Some (entryOf key entries))
  then map (fun e => if String.eqb (fst e) key then (fst e, val) else e) entries
  else (entries ++ [(key, val)])%list.

Definition optionValue (opt : FieldOption N) : JsVal N :=
  match opt with
  | OptionName s => JStr s
  | OptionRecord entries => prop (JObj entries) "value"
  end.

Definition targetField (rel : FieldRelation)
           (get : TargetObjectMetadata -> option string) : option string :=
  match targetObjectMetadata rel with
  | Some t => get t
  | None => None
  end.

(** The [switch (field.type)] of [buildFieldProperty]. *)
Definition fieldTypeCase (field : Field N)
           (property : list (string * JsVal N)) : list (string * JsVal N) :=
  let t := fieldType field in
  if t =? "FULL_NAME" then
    setProp "additionalProperties" (JBool false)
      (setProp "properties"
         (JObj [("firstName", described "string" "First name");
                ("lastName", described "string" "Last name");
                ("middleName", described "string" "Middle name");
                ("prefix", described "string" "Name prefix (e.g., Dr.)");
                ("suffix", described "string" "Name suffix (e.g., Jr.)")])
         (setProp "type" (JStr "object") property))
  else if t =? "ADDRESS" then
    setProp "additionalProperties" (JBool false)
      (setProp "properties"
         (JObj [("addressLine1", described "string" "Primary address line");
                ("addressLine2", described "string" "Secondary address line");
                ("city", described "string" "City or locality");
                ("state", described "string" "State or region");
                ("postalCode", described "string" "Postal or ZIP code");
                ("country", described "string" "Country code or name")])
         (setProp "type" (JStr "object") property))
  else if t =? "CURRENCY" then
    setProp "additionalProperties" (JBool false)
      (setProp "required" (JArr [JStr "amount"; JStr "currency"])
         (setProp "properties"
            (JObj [("amount", described "number" "Monetary amount");
                   ("currency",
                    described "string" "Three-letter currency code (ISO 4217)")])
            (setProp "type" (JStr "object") property)))
  else if t =? "RELATION" then
    match fieldRelation field with
    | Some rel =>
        let relType := relationType rel in
        let targetLabel :=
          orDefault (orElse (targetField rel targetLabelSingular)
                            (targetField rel targetNameSingular)) "record" in
        let property :=
          if isSingleType relType then
            setProp "description" (JStr ("ID of the related " +:+ targetLabel))
              (setProp "type" (JStr "string") property)
          else if isMultipleType relType then
            setProp "items"
              (described "string"
                 ("IDs of related " +:+
                  orDefault (targetField rel targetLabelPlural) (targetLabel +:+ "s")))
              (setProp "type" (JStr "array") property)
          else property in
        setProp "relation"
          (JObj [("type", optVal relType);
                 ("target", optVal (targetField rel targetNamePlural));
                 ("targetLabel",
                  optVal (orElse (targetField rel targetLabelPlural)
                                 (targetField rel targetNamePlural)))])
          property
    | None => property
    end
  else if (t =? "EMAILS") || (t =? "PHONES") then
    setProp "items"
      (JObj [("type", JStr "object");
             ("properties",
              JObj [("value", described "string" "Contact value");
                    ("type", described "string" "Type label or category");
                    ("primary",
                     described "boolean" "Whether this is the primary contact value")]);
             ("additionalProperties", JBool true)])
      (setProp "type" (JStr "array") property)
  else if t =? "LINKS" then
    setProp "additionalProperties" (JBool true)
      (setProp "properties"
         (JObj [("primary", described "string" "Primary link");
                ("secondary", described "string" "Secondary link");
                ("additional",
                 JObj [("type", JStr "array");
                       ("items", JObj [("type", JStr "string")]);
                       ("description", JStr "Additional URLs")])])
         (setProp "type" (JStr "object") property))
  else if t =? "ACTOR" then
    setProp "additionalProperties" (JBool true)
      (setProp "properties"
         (JObj [("id", described "string" "User or system identifier");
                ("type",
                 described "string" "Actor type (user, system, integration, etc.)")])
         (setProp "type" (JStr "object") property))
  else if (t =? "MULTI_SELECT") || (t =? "ARRAY") then
    setProp "items" (JObj [("type", JStr "string")])
      (setProp "type" (JStr "array") property)
  else if t =? "RAW_JSON" then
    setProp "additionalProperties" (JBool true)
      (setProp "type" (JStr "object") property)
  else property.

Definition buildFieldProperty (field : Field N) : JsVal N :=
  let baseType := mapFieldType (fieldType field) in
  let property :=
    [("type", JStr baseType);
     ("description", optVal (orElse (orElse (fieldLabel field) (fieldDescription field)) None))] in
  let property := fieldTypeCase field property in
  let property :=
    match fieldOptions field with
    | Some options =>
        let values := JArr (map optionValue options) in
        match prop (JObj property) "type", prop (JObj property) "items" with
        | JStr "array", JObj items =>
            setProp "items" (JObj (setProp "enum" values items)) property
        | _, _ => setProp "enum" values property
        end
    | None => property
    end in
  let normalizedDefault := normalizeDefaultValue (fieldDefaultValue field) in
  let property :=
    if isUndefined normalizedDefault then property
    else setProp "default" normalizedDefault property in
  JObj property.

Definition getRelationAlias (field : Field N) : option string :=
  match fieldRelation field with
  | Some rel =>
      if negb (isSome_nonEmpty (relationType rel)) then None
      else
        let type := relationType rel in
        let baseName := fieldName field in
        if isSingleType type then
          if Str.endsWithIgnoreCase "Id" baseName then Some baseName
          else Some (baseName +:+ "Id")
        else if isMultipleType type then
          if Str.endsWithIgnoreCase "Ids" baseName then Some baseName
          else if Str.endsWith "s" baseName then Some (baseName +:+ "Ids")
          else Some (baseName +:+ "Ids")
        else None
  | None => None
  end.

(** [this.metadata] is [null] until a schema export was read; otherwise
    it holds [metadata.data.objects]. *)
Definition Metadata : Type := option (list (MetaObject N)).

Definition getObjectByName (metadata : Metadata) (name : string)
  : option (MetaObject N) :=
  match metadata with
  | None => None
  | Some objects =>
      if negb (Str.nonEmpty name) then None
      else
        let normalized := Str.toLowerCase name in
        List.find (fun obj =>
                     objIsActive obj &&
                     ((Str.toLowerCase (objNamePlural obj) =? normalized)
                      || (Str.toLowerCase (objNameSingular obj) =? normalized)))
                  objects
  end.

(** The predicate of the [filter] in [getObjectFields]. *)
Definition fieldSelected (field : Field N) : bool :=
  if negb (fieldIsActive field) || fieldIsSystem field then false
  else if fieldType field =? "RELATION" then
    let relType :=
      match fieldRelation field with
      | Some rel => relationType rel
      | None => None
      end in
    isType relType "MANY_TO_ONE" || isType relType "ONE_TO_ONE"
  else true.

Definition getObjectFields (metadata : Metadata) (name : string)
  : list (Field N) :=
  match getObjectByName metadata name with
  | None => []
  | Some object => List.filter fieldSelected (objFields object)
  end.

(** The three accumulators of the [forEach] in [generateToolSchema]. *)
Record Compiled := {
  cProperties : gmap string (JsVal N);
  cRequired : list string;
  cRelationMetadata : list RelationMeta
}.

(** [field.defaultValue == null] *)
Definition looselyNull (v : JsVal N) : bool := isNull v || isUndefined v.

Definition aliasProperty (field : Field N) (rel : FieldRelation) : JsVal N :=
  if isSingleType (relationType rel) then
    described "string"
      ("ID of the related " +:+
       orDefault (orElse (targetField rel targetLabelSingular)
                         (targetField rel targetNameSingular))
                 (fieldName field))
  else
    JObj [("type", JStr "array");
          ("items", JObj [("type", JStr "string")]);
          ("description",
           JStr ("IDs of related " +:+
                 orDefault (orElse (targetField rel targetLabelPlural)
                                   (targetField rel targetNamePlural))
                           (fieldName field)))].

(** [properties[key] = value] on the property map of a contract, an object
    literal: a member is defined, except that the key [__proto__] sets the
    prototype of the map and stores no member. *)
Definition assign (key : string) (value : JsVal N) (properties : gmap string (JsVal N))
  : gmap string (JsVal N) :=
  if key =? "__proto__" then properties else <[key := value]> properties.

(** One iteration of the [forEach]. *)
Definition compileField (acc : Compiled) (field : Field N) : Compiled :=
  let fieldProperty := buildFieldProperty field in
  let properties := assign (fieldName field) fieldProperty (cProperties acc) in
  let required :=
    if bool_decide (fieldIsNullable field = Some false)
       && looselyNull (fieldDefaultValue field)
    then (cRequired acc ++ [fieldName field])%list
    else cRequired acc in
  match fieldRelation field with
  | Some rel =>
      if fieldType field =? "RELATION" then
        let alias := getRelationAlias field in
        let relationMetadata :=
          (cRelationMetadata acc ++
          [{| relName := fieldName field;
              relAlias := alias;
              relRelationType := relationType rel;
              relTargetNameSingular := targetField rel targetNameSingular;
              relTargetNamePlural := targetField rel targetNamePlural;
              relTargetLabelSingular := targetField rel targetLabelSingular;
              relTargetLabelPlural := targetField rel targetLabelPlural |}])%list in
        let properties :=
          match alias with
          | Some a =>
              if Str.nonEmpty a && negb (bool_decide (is_Some (properties !! a)))
              then assign a (aliasProperty field rel) properties
              else properties
          | None => properties
          end in
        {| cProperties := properties;
           cRequired := required;
           cRelationMetadata := relationMetadata |}
      else
        {| cProperties := properties;
           cRequired := required;
           cRelationMetadata := cRelationMetadata acc |}
  | None =>
      {| cProperties := properties;
         cRequired := required;
         cRelationMetadata := cRelationMetadata acc |}
  end.

Definition generateToolSchema (metadata : Metadata)
           (namePluralOrSingular : string) : option (Schema N) :=
  match getObjectByName metadata namePluralOrSingular with
  | None => None
  | Some object =>
      let fields := getObjectFields metadata (objNamePlural object) in
      let compiled :=
        foldl compileField
              {| cProperties := ∅; cRequired := []; cRelationMetadata := [] |}
              fields in
      Some {| nameSingular := objNameSingular object;
              namePlural := objNamePlural object;
              labelSingular := objLabelSingular object;
              labelPlural := objLabelPlural object;
              description := objDescription object;
              properties := cProperties compiled;
              required := cRequired compiled;
              fieldMetadata := fields;
              relationMetadata := cRelationMetadata compiled |}
  end.

Definition getCoreObjects : list string :=
  ["people"; "companies"; "notes"; "tasks"; "opportunities"].

End Loader.

Arguments Metadata : clear implicits.

End SchemaLoader.

(** ** [TwentyCRMServer] (index.js): registry and operation descriptors *)

Module TwentyCRMServer.
Import SchemaLoader.

(** An operation descriptor; [inputSchema.type] is always ["object"]. *)
Record Tool (N : Type) := {
  toolName : string;
  toolDescription : string;
  toolProperties : gmap string (JsVal N);
  toolRequired : option (list string);
  toolAdditionalProperties : option bool
}.

Arguments toolName {N} _.
Arguments toolDescription {N} _.
Arguments toolProperties {N} _.
Arguments toolRequired {N} _.
Arguments toolAdditionalProperties {N} _.

(** The registry fields of the server object. *)
Record Registry (N : Type) := {
  objectSchemas : gmap string (Schema N);
  objectAliases : gmap string string;
  supportedObjects : list (Schema N)
}.

Arguments objectSchemas {N} _.
Arguments objectAliases {N} _.
Arguments supportedObjects {N} _.

Section Registry.
Context {N : Type} `{!JsNumber N}.

Definition emptyRegistry : Registry N :=
  {| objectSchemas := ∅; objectAliases := ∅; supportedObjects := [] |}.

Definition setAlias (label : option string) (pluralKey : string)
           (aliases : gmap string string) : gmap string string :=
  match label with
  | Some l => if Str.nonEmpty l then <[Str.toLowerCase l := pluralKey]> aliases else aliases
  | None => aliases
  end.

Definition registerObjectSchema (schema : Schema N) (reg : Registry N) : Registry N :=
  if negb (Str.nonEmpty (namePlural schema)) || negb (Str.nonEmpty (nameSingular schema))
  then reg
  else
    let pluralKey := Str.toLowerCase (namePlural schema) in
    if bool_decide (is_Some (objectSchemas reg !! pluralKey)) then reg
    else
      {| objectSchemas := <[pluralKey := schema]> (objectSchemas reg);
         objectAliases :=
           setAlias (labelPlural schema) pluralKey
             (setAlias (labelSingular schema) pluralKey
                (<[Str.toLowerCase (nameSingular schema) := pluralKey]>
                   (<[pluralKey := pluralKey]> (objectAliases reg))));
         supportedObjects := (supportedObjects reg ++ [schema])%list |}.

Definition getFallbackSingular (namePlural : string) : string :=
  if namePlural =? "people" then "person"
  else if namePlural =? "companies" then "company"
  else if namePlural =? "opportunities" then "opportunity"
  else if Str.endsWith "s" namePlural then Str.dropLast namePlural
  else namePlural.

(** [{ properties, required, relationMetadata }] *)
Definition getFallbackDefinition (namePlural nameSingular labelSingular labelPlural : string)
  : gmap string (JsVal N) * list string * list RelationMeta :=
  if namePlural =? "noteTargets" then
    let properties : gmap string (JsVal N) :=
      <["companyId" := described "string" "Optional company ID"]>
        (<["personId" := described "string" "Person ID to attach"]>
           (<["noteId" := described "string" "ID of the note to link"]> ∅)) in
    let relationMetadata :=
      [{| relName := "note"; relAlias := Some "noteId";
          relRelationType := Some "MANY_TO_ONE";
          relTargetNameSingular := Some "note";
          relTargetNamePlural := Some "notes";
          relTargetLabelSingular := Some "Note";
          relTargetLabelPlural := Some "Notes" |};
       {| relName := "person"; relAlias := Some "personId";
          relRelationType := Some "MANY_TO_ONE";
          relTargetNameSingular := Some "person";
          relTargetNamePlural := Some "people";
          relTargetLabelSingular := Some "Person";
          relTargetLabelPlural := Some "People" |};
       {| relName := "company"; relAlias := Some "companyId";
          relRelationType := Some "MANY_TO_ONE";
          relTargetNameSingular := Some "company";
          relTargetNamePlural := Some "companies";
          relTargetLabelSingular := Some "Company";
          relTargetLabelPlural := Some "Companies" |}] in
    (properties, [], relationMetadata)
  else (∅, [], []).

(** The loop of [buildObjectRegistry] over [getCoreObjects()]. *)
Definition buildObjectRegistry (metadata : Metadata N) (reg : Registry N) : Registry N :=
  foldl (fun reg namePlural =>
           match generateToolSchema metadata namePlural with
           | None => reg
           | Some schema => registerObjectSchema schema reg
           end)
        reg getCoreObjects.

Definition fallbackSchema (namePlural : string) : Schema N :=
  let nameSingular := getFallbackSingular namePlural in
  let labelSingular := Str.capitalize nameSingular in
  let labelPlural := Str.capitalize namePlural in
  let '(fbProperties, fbRequired, fbRelations) :=
    getFallbackDefinition namePlural nameSingular labelSingular labelPlural in
  {| nameSingular := nameSingular;
     namePlural := namePlural;
     labelSingular := Some labelSingular;
     labelPlural := Some labelPlural;
     description := Some ("Generic " +:+ Str.toLowerCase labelPlural +:+ " operations");
     properties := fbProperties;
     required := fbRequired;
     fieldMetadata := [];
     relationMetadata := fbRelations |}.

Definition buildFallbackRegistry (reg : Registry N) : Registry N :=
  foldl (fun reg namePlural => registerObjectSchema (fallbackSchema namePlural) reg)
        reg getCoreObjects.

(** The registry part of [rebuildRegistry]: the three fields are cleared,
    then filled from the metadata, or from the fallback definitions when
    there is no metadata or it yields no contract. *)
Definition rebuildRegistry (metadata : Metadata N) : Registry N :=
  match metadata with
  | Some _ =>
      let reg := buildObjectRegistry metadata emptyRegistry in
      if Nat.eqb (length (supportedObjects reg)) 0 then buildFallbackRegistry reg
      else reg
  | None => buildFallbackRegistry emptyRegistry
  end.

Definition readOnlyNames : list string :=
  ["createdAt"; "updatedAt"; "deletedAt"; "createdBy"; "updatedBy";
   "searchVector"; "position"].

(** [new Map(fieldMetadata.map(field => [field.name, field]))]: a later
    field of the same name replaces an earlier one. *)
Definition fieldMap (fields : list (Field N)) : gmap string (Field N) :=
  foldl (fun m field => <[fieldName field := field]> m) ∅ fields.

(** The test of the first loop of [buildWritableProperties]: the property
    is kept. *)
Definition writableName (fields : gmap string (Field N)) (name : string) : bool :=
  if has readOnlyNames name then false
  else match fields !! name with
       | Some field => negb (fieldType field =? "POSITION")
       | None => true
       end.

Definition buildWritableProperties (schema : Schema N) : gmap string (JsVal N) :=
  let fields := fieldMap (fieldMetadata schema) in
  let writable :=
    filter (fun entry => writableName fields (fst entry) = true) (properties schema) in
  if Nat.eqb (size writable) 0 then properties schema
  else writable.

(** [label || name], lower-cased *)
Definition baseLabel (label : option string) (name : string) : string :=
  Str.toLowerCase (orDefault label name).

(** The five descriptors [generateToolsFromSchema] pushes for one contract.
    [fieldName in createProperties] holds for a member of the writable
    properties and for a name that they inherit. *)
Definition objectTools (schema : Schema N) : list (Tool N) :=
  let createProperties := buildWritableProperties schema in
  let createRequired :=
    List.filter (fun fieldName =>
                   bool_decide (is_Some (createProperties !! fieldName))
                   || has objectPrototypeNames fieldName)
                (required schema) in
  let idProperty : gmap string (JsVal N) :=
    {[ "id" := described "string"
                 (orDefault (labelSingular schema) (nameSingular schema) +:+ " ID") ]} in
  let baseLabelSingular := baseLabel (labelSingular schema) (nameSingular schema) in
  let baseLabelPlural := baseLabel (labelPlural schema) (namePlural schema) in
  let createDescription :=
    match description schema with
    | Some d =>
        if Str.nonEmpty d
        then "Create a new " +:+ baseLabelSingular +:+ " (" +:+ Str.trim d +:+ ")"
        else "Create a new " +:+ baseLabelSingular +:+ " in Twenty CRM"
    | None => "Create a new " +:+ baseLabelSingular +:+ " in Twenty CRM"
    end in
  (* the entries of [filterProperties], in an order that is not modelled *)
  let filterProperties := JObj (map_to_list createProperties) in
  [ {| toolName := "create_" +:+ nameSingular schema;
       toolDescription := createDescription;
       toolProperties := createProperties;
       toolRequired := Some createRequired;
       toolAdditionalProperties := Some true |};
    {| toolName := "get_" +:+ nameSingular schema;
       toolDescription := "Get a " +:+ baseLabelSingular +:+ " by ID";
       toolProperties := idProperty;
       toolRequired := Some ["id"];
       toolAdditionalProperties := None |};
    {| toolName := "update_" +:+ nameSingular schema;
       toolDescription := "Update an existing " +:+ baseLabelSingular;
       toolProperties := createProperties ∪ idProperty;
       toolRequired := Some ["id"];
       toolAdditionalProperties := Some true |};
    {| toolName := "list_" +:+ namePlural schema;
       toolDescription := "List " +:+ baseLabelPlural +:+ " with optional filters";
       toolProperties :=
         {[ "limit" :=
              JObj [("type", JStr "number");
                    ("description", JStr "Number of results to return (default: 20)");
                    ("default", JNum (number_ofNat 20))];
            "offset" :=
              JObj [("type", JStr "number");
                    ("description",
                     JStr "Number of results to skip before starting the page (default: 0)");
                    ("default", JNum (number_ofNat 0))];
            "search" :=
              described "string" ("Search term applied to " +:+ baseLabelPlural);
            "filters" :=
              JObj [("type", JStr "object");
                    ("description",
                     JStr ("Additional key/value filters supported by the "
                           +:+ namePlural schema +:+ " REST endpoint"));
                    ("properties", filterProperties);
                    ("additionalProperties", JBool true)] ]};
       toolRequired := None;
       toolAdditionalProperties := Some true |};
    {| toolName := "delete_" +:+ nameSingular schema;
       toolDescription := "Delete a " +:+ baseLabelSingular;
       toolProperties := idProperty;
       toolRequired := Some ["id"];
       toolAdditionalProperties := None |} ].

(** [generateToolsFromSchema]; [globalTools] stands for the result of
    [buildGlobalTools()], the fixed cross-cutting descriptors. *)
Definition generateToolsFromSchema (reg : Registry N) (globalTools : list (Tool N))
  : list (Tool N) :=
  (flat_map objectTools (supportedObjects reg) ++ globalTools)%list.

End Registry.

(** ** [TwentyCRMServer]: payload sanitizer *)

Inductive Cardinality := single | multiple.

Section Sanitizer.
Context {N : Type} `{!JsNumber N}.

(** The two [Map]s built by [getRelationInfo]: a later relation of the same
    name (or alias) replaces an earlier one. *)
Definition getRelationInfo (schema : Schema N)
  : gmap string RelationMeta * gmap string RelationMeta :=
  foldl (fun maps relation =>
           (<[relName relation := relation]> (fst maps),
            if isSome_nonEmpty (relAlias relation)
            then <[orDefault (relAlias relation) "" := relation]> (snd maps)
            else snd maps))
        (∅, ∅) (relationMetadata schema).

Definition getLinksFieldNames (schema : Schema N) : gset string :=
  foldl (fun linksFields field =>
           if fieldType field =? "LINKS" then {[fieldName field]} ∪ linksFields
           else linksFields)
        ∅ (fieldMetadata schema).

(** [{ primaryLinkUrl: url, primaryLinkLabel: '', secondaryLinks: null }] *)
Definition linksObject (url : string) : JsVal N :=
  JObj [("primaryLinkUrl", JStr url);
        ("primaryLinkLabel", JStr "");
        ("secondaryLinks", JNull)].

Definition normalizeLinksValue (value : JsVal N) : JsVal N :=
  if isNull value || isUndefined value then value
  else if (typeof value =? "object") && negb (isArray value)
          && (hasKey "primaryLinkUrl" value
              || hasKey "primaryLinkLabel" value
              || hasKey "secondaryLinks" value)
  then value
  else match value with
       | JStr s =>
           let trimmed := Str.trim s in
           if Nat.eqb (String.length trimmed) 0 then linksObject ""
           else linksObject trimmed
       | _ => value
       end.

Definition getRelationCardinality (relationType : option string) : option Cardinality :=
  if isSingleType relationType then Some single
  else if isMultipleType relationType then Some multiple
  else None.

(** Returns [null], a string, or [undefined]. *)
Definition extractSingleRelationId (value : JsVal N) : JsVal N :=
  match value with
  | JNull => JNull
  | JStr s =>
      let trimmed := Str.trim s in
      if Str.nonEmpty trimmed then JStr trimmed else JUndefined
  | JNum n =>
      if number_isFinite n then JStr (number_toString n) else JUndefined
  | JObj _ | JArr _ =>
      match prop value "id" with
      | JStr id =>
          if Str.nonEmpty (Str.trim id) then JStr (Str.trim id)
          else match prop value "value" with
               | JStr val =>
                   if Str.nonEmpty (Str.trim val) then JStr (Str.trim val)
                   else JUndefined
               | _ => JUndefined
               end
      | _ =>
          match prop value "value" with
          | JStr val =>
              if Str.nonEmpty (Str.trim val) then JStr (Str.trim val)
              else JUndefined
          | _ => JUndefined
          end
      end
  | _ => JUndefined
  end.

(** [Array.from(new Set(ids))]: the first occurrence of each id, in order. *)
Definition uniqueIds (ids : list string) : list string :=
  foldl (fun seen id => if has seen id then seen else (seen ++ [id])%list) [] ids.

(** The closure [collectIds] followed by the test of the [forEach]: the id a
    candidate contributes, if any. *)
Definition collectId (candidate : JsVal N) : option string :=
  match extractSingleRelationId candidate with
  | JStr normalized => if Str.nonEmpty normalized then Some normalized else None
  | _ => None
  end.

Definition isEmptyArray (v : JsVal N) : bool :=
  match v with JArr [] => true | _ => false end.

(** Returns an array of strings, or [undefined] ([None]). *)
Definition extractMultipleRelationIds (value : JsVal N) : option (list string) :=
  let explicitClear :=
    isNull value
    || isEmptyArray value
    || (truthy value && (typeof value =? "object") && isEmptyArray (prop value "ids")) in
  if isNull value then Some []
  else
    let candidates :=
      match value with
      | JArr items => items
      | JStr _ | JNum _ => [value]
      | JObj _ =>
          match prop value "ids" with
          | JArr ids => ids
          | _ => if negb (isUndefined (prop value "id")) then [prop value "id"] else []
          end
      | _ => []
      end in
    let ids := omap collectId candidates in
    if Nat.eqb (length ids) 0 then (if explicitClear then Some [] else None)
    else Some (uniqueIds ids).

Definition idArray (ids : list string) : JsVal N := JArr (map JStr ids).

(** Returns the object to merge into [sanitized]: empty, or one entry. *)
Definition normalizeRelationValue (value : JsVal N) (relation : RelationMeta)
  : gmap string (JsVal N) :=
  let alias := orDefault (relAlias relation) (relName relation) in
  if negb (Str.nonEmpty alias) then ∅
  else
    match getRelationCardinality (relRelationType relation) with
    | Some single =>
        let id := extractSingleRelationId value in
        if isUndefined id then ∅ else {[alias := id]}
    | _ =>
        match extractMultipleRelationIds value with
        | None => ∅
        | Some ids => {[alias := idArray ids]}
        end
    end.

(** Returns the normalized value, or [undefined]. *)
Definition normalizeRelationAliasValue (value : JsVal N) (relation : RelationMeta)
  : JsVal N :=
  match getRelationCardinality (relRelationType relation) with
  | Some single => extractSingleRelationId value
  | _ =>
      match extractMultipleRelationIds value with
      | None => JUndefined
      | Some ids => idArray ids
      end
  end.

(** The body of the loop of [sanitizePayload] for one entry. A key
    [__proto__], of the payload or of a relation, is written like any other
    key. *)
Definition sanitizeEntry (byName byAlias : gmap string RelationMeta)
           (linksFields : gset string)
           (sanitized : gmap string (JsVal N)) (entry : string * JsVal N)
  : gmap string (JsVal N) :=
  let key := fst entry in
  let value := snd entry in
  if isUndefined value then sanitized
  else
    match byName !! key with
    | Some relation => normalizeRelationValue value relation ∪ sanitized
    | None =>
        match byAlias !! key with
        | Some relation =>
            let normalized := normalizeRelationAliasValue value relation in
            if isUndefined normalized then sanitized
            else <[key := normalized]> sanitized
        | None =>
            if bool_decide (key ∈ linksFields)
            then <[key := normalizeLinksValue value]> sanitized
            else <[key := value]> sanitized
        end
    end.

Definition sanitizePayload (payload : JsVal N) (schema : Schema N)
  : gmap string (JsVal N) :=
  if negb (truthy payload) || negb (typeof payload =? "object") then ∅
  else
    let byName := fst (getRelationInfo schema) in
    let byAlias := snd (getRelationInfo schema) in
    let linksFields := getLinksFieldNames schema in
    let sanitized :=
      foldl (sanitizeEntry byName byAlias linksFields) ∅ (objectEntries payload) in
    delete "id" sanitized.

End Sanitizer.

(** ** [TwentyCRMServer]: list-result normalizer *)

Section ResultNormalizer.
Context {N : Type} `{!JsNumber N}.

(** Returns the record array, or [undefined]. *)
Definition extractRecords (response : JsVal N) : JsVal N :=
  if isArray response then response
  else if truthy response && (typeof response =? "object") then
    if isArray (prop response "data") then prop response "data"
    else if isArray (prop response "items") then prop response "items"
    else if isArray (prop response "records") then prop response "records"
    else JUndefined
  else JUndefined.

Definition paginationKeys : list string :=
  ["nextCursor"; "prevCursor"; "hasNextPage"; "hasPreviousPage"; "total"; "totalCount"].

(** Returns the pagination value, or [null]. *)
Definition extractPagination (response : JsVal N) : JsVal N :=
  if negb (truthy response) || negb (typeof response =? "object") then JNull
  else
    let pageInfo := prop response "pageInfo" in
    if truthy pageInfo && (typeof pageInfo =? "object") then pageInfo
    else
      let meta := prop response "meta" in
      if truthy meta && (typeof meta =? "object")
         && truthy (jsOr (jsOr (jsOr (prop meta "pagination") (prop meta "page"))
                               (prop meta "total"))
                         (prop meta "count"))
      then jsOr (jsOr (prop meta "pagination") (prop meta "page")) meta
      else if existsb (fun key => hasKey key response) paginationKeys then
        JObj (map (fun key => (key, prop response key))
                  (List.filter (fun key => hasKey key response) paginationKeys))
      else JNull.

Definition isNumber (v : JsVal N) : bool :=
  match v with JNum _ => true | _ => false end.

Definition isBoolean (v : JsVal N) : bool :=
  match v with JBool _ => true | _ => false end.

Definition resolveTotalFromPagination (pagination : JsVal N) : JsVal N :=
  match List.find (fun key => truthy pagination && isNumber (prop pagination key))
                  ["totalCount"; "total"; "totalItems"; "count"] with
  | Some key => prop pagination key
  | None => JUndefined
  end.

Definition resolveHasNextFromPagination (pagination : JsVal N) : JsVal N :=
  if negb (truthy pagination) || negb (typeof pagination =? "object") then JUndefined
  else if isBoolean (prop pagination "hasNextPage") then prop pagination "hasNextPage"
  else if isBoolean (prop pagination "hasMore") then prop pagination "hasMore"
  else if hasKey "nextCursor" pagination then JBool (truthy (prop pagination "nextCursor"))
  else JUndefined.

Definition buildListPayload (response : JsVal N) : JsVal N :=
  let items := extractRecords response in
  let pagination := extractPagination response in
  let payload : list (string * JsVal N) := [] in
  let payload :=
    if negb (isUndefined items) then
      setProp "summary"
        (JObj [("count",
                match items with
                | JArr l => JNum (number_ofNat (length l))
                | _ => JUndefined
                end)])
        (setProp "items" items payload)
    else payload in
  let payload :=
    if truthy pagination then
      let summary :=
        match jsOr (prop (JObj payload) "summary") (JObj []) with
        | JObj entries => entries
        | _ => []
        end in
      setProp "summary"
        (JObj (setProp "hasNextPage" (resolveHasNextFromPagination pagination)
                 (setProp "total" (resolveTotalFromPagination pagination) summary)))
        (setProp "pagination" pagination payload)
    else payload in
  if negb (truthy (prop (JObj payload) "items"))
     && (typeof response =? "object") && negb (isNull response)
  then JObj (setProp "raw" response payload)
  else if negb (truthy (prop (JObj payload) "items")) then response
  else JObj (setProp "raw" response payload).

End ResultNormalizer.

(** ** [TwentyCRMServer]: the composite note-linking operation *)

(** The outcome of a call that can throw. *)
Inductive Result (A : Type) : Type :=
| Ok (a : A)
| Throw (message : string).

Arguments Ok {A} a.
Arguments Throw {A} message.

(** One call of [makeRequest(endpoint, method, data)]. *)
Record Request (N : Type) := {
  endpoint : string;
  method : string;
  body : gmap string (JsVal N)
}.

Arguments endpoint {N} _.
Arguments method {N} _.
Arguments body {N} _.

(** What the composite operation hands to [buildContent]. *)
Record NoteLinks (N : Type) := {
  message : string;
  noteId : string;
  createdTargets : list (string + gmap string (JsVal N))
}.

Arguments message {N} _.
Arguments noteId {N} _.
Arguments createdTargets {N} _.

Section Composite.
Context {N : Type} `{!JsNumber N}.

(** The backend behind [makeRequest]: given the requests submitted so far,
    the last one being the current one, it answers with the parsed
    response or makes [makeRequest] throw. *)
Definition Backend : Type := list (Request N) -> Result (JsVal N).

(** A computation that submits requests in order and may throw: it maps
    the requests submitted before it to its outcome and the requests
    submitted until it ended. *)
Definition Op (A : Type) : Type :=
  Backend -> list (Request N) -> Result A * list (Request N).

Definition ret {A : Type} (a : A) : Op A := fun _ log => (Ok a, log).

Definition throw {A : Type} (msg : string) : Op A := fun _ log => (Throw msg, log).

Definition bind {A B : Type} (m : Op A) (k : A -> Op B) : Op B :=
  fun backend log =>
    match m backend log with
    | (Ok a, log') => k a backend log'
    | (Throw msg, log') => (Throw msg, log')
    end.

#[local] Instance op_ret : MRet Op := @ret.
#[local] Instance op_bind : MBind Op := fun A B k m => bind m k.

Definition makeRequest (endpoint method : string) (data : gmap string (JsVal N))
  : Op (JsVal N) :=
  fun backend log =>
    let log' := (log ++ [{| endpoint := endpoint; method := method; body := data |}])%list in
    (backend log', log').

(** [await] in a [for ... of] loop: the calls run one after the other and
    the first throw ends the loop. *)
Fixpoint forEachAwait {A B : Type} (f : A -> Op B) (l : list A) : Op (list B) :=
  match l with
  | [] => mret []
  | x :: rest =>
      y ← f x;
      ys ← forEachAwait f rest;
      mret (y :: ys)
  end.

(** Returns the identifier, or [null] ([None]), for a response whose
    identifier has a string conversion. *)
Fixpoint extractResourceId (response : JsVal N) : option string :=
  match response with
  | JNull | JUndefined => None
  | JStr s => Some s
  | JNum n => Some (number_toString n)
  | JArr items =>
      (fix first (l : list (JsVal N)) : option string :=
         match l with
         | [] => None
         | item :: rest =>
             match extractResourceId item with
             | Some id => if Str.nonEmpty id then Some id else first rest
             | None => first rest
             end
         end) items
  | JObj entries =>
      let nested :=
        fix nested (key : string) (es : list (string * JsVal N)) : option string :=
          match es with
          | [] => None
          | (k, v) :: rest =>
              if String.eqb k key then extractResourceId v else nested key rest
          end in
      if truthy (prop response "id") then Some (toString (prop response "id"))
      else
        match nested "data" entries with
        | Some id => if Str.nonEmpty id then Some id
                     else match nested "record" entries with
                          | Some id' => if Str.nonEmpty id' then Some id' else None
                          | None => None
                          end
        | None => match nested "record" entries with
                  | Some id' => if Str.nonEmpty id' then Some id' else None
                  | None => None
                  end
        end
  | JBool _ => None
  end.

(** [Object.keys(request).sort()] *)
Fixpoint insertSorted (key : string) (sorted : list string) : list string :=
  match sorted with
  | [] => [key]
  | k :: rest => if String.leb key k then key :: sorted else k :: insertSorted key rest
  end.

Definition sortKeys (keys : list string) : list string :=
  foldr insertSorted [] keys.

(** The deduplication key computed by [addRequest], for a request whose
    values have a string conversion. *)
Definition requestKey (request : list (string * JsVal N)) : string :=
  Str.join "|"
    (map (fun key => key +:+ ":" +:+ toString (prop (JObj request) key))
         (sortKeys (map fst request))).

(** The closure [addRequest]; the state is [requests] and [dedupe]. *)
Definition addRequest (request : list (string * JsVal N))
           (state : list (list (string * JsVal N)) * gset string)
  : list (list (string * JsVal N)) * gset string :=
  let normalized := requestKey request in
  if negb (Str.nonEmpty normalized) || bool_decide (normalized ∈ snd state) then state
  else ((fst state ++ [request])%list, {[normalized]} ∪ snd state).

(** The request a member of [targets] contributes, if any. *)
Definition targetRequest (noteId : string) (target : JsVal N)
  : option (list (string * JsVal N)) :=
  if negb (truthy target) || negb (typeof target =? "object") then None
  else
    let request := [("noteId", JStr noteId)] in
    let request :=
      if truthy (prop target "personId")
      then setProp "personId" (prop target "personId") request else request in
    let request :=
      if truthy (prop target "companyId")
      then setProp "companyId" (prop target "companyId") request else request in
    let request :=
      if truthy (prop target "workspaceMemberId")
      then setProp "workspaceMemberId" (prop target "workspaceMemberId") request
      else request in
    if Nat.ltb 1 (length request) then Some request else None.

Definition buildNoteTargetRequests (noteId : string) (personId companyId targets : JsVal N)
  : list (list (string * JsVal N)) :=
  let state := addRequest [("noteId", JStr noteId); ("personId", personId)] ([], ∅) in
  let state :=
    if truthy companyId
    then addRequest [("noteId", JStr noteId); ("companyId", companyId)] state
    else state in
  let state :=
    match targets with
    | JArr items =>
        foldl (fun state target =>
                 match targetRequest noteId target with
                 | Some request => addRequest request state
                 | None => state
                 end)
              state items
    | _ => state
    end in
  fst state.

(** [createNoteForPerson], for identifiers and answers that have a string
    conversion. *)
Definition createNoteForPerson (reg : Registry N) (params : JsVal N) : Op (NoteLinks N) :=
  let personId := prop params "personId" in
  let note := prop params "note" in
  let companyId := prop params "companyId" in
  let targets := prop params "targets" in
  if negb (truthy personId) then throw "personId is required"
  else if negb (truthy note) || negb (typeof note =? "object")
  then throw "note object is required"
  else
    match objectSchemas reg !! "notes" with
    | None => throw "Notes schema unavailable; ensure schema export is loaded"
    | Some noteSchema =>
        let sanitizedNote := sanitizePayload note noteSchema in
        if Nat.eqb (size sanitizedNote) 0
        then throw "No note fields provided; specify title, body, or other fields"
        else
          noteResponse ← makeRequest "/rest/notes" "POST" sanitizedNote;
          match extractResourceId noteResponse with
          | None => throw "Unable to determine created note ID from response"
          | Some noteId =>
              if negb (Str.nonEmpty noteId)
              then throw "Unable to determine created note ID from response"
              else
                match objectSchemas reg !! "notetargets" with
                | None => throw "noteTargets schema unavailable; cannot create note links"
                | Some noteTargetSchema =>
                    let targetRequests :=
                      buildNoteTargetRequests noteId personId companyId targets in
                    if Nat.eqb (length targetRequests) 0
                    then throw "No note targets resolved; provide at least one person/company to link"
                    else
                      created ←
                        forEachAwait
                          (fun request =>
                             let sanitizedTarget :=
                               sanitizePayload (JObj request) noteTargetSchema in
                             targetResponse ←
                               makeRequest "/rest/noteTargets" "POST" sanitizedTarget;
                             mret (sanitizedTarget, extractResourceId targetResponse))
                          targetRequests;
                      mret {| message :=
                               "Created note " +:+ noteId +:+ " and linked "
                               +:+ number_toString (number_ofNat (length created))
                               +:+ " target(s)";
                             noteId := noteId;
                             createdTargets :=
                               map (fun target =>
                                      match snd target with
                                      | Some id =>
                                          if Str.nonEmpty id then inl id
                                          else inr (fst target)
                                      | None => inr (fst target)
                                      end)
                                   created |}
                end
          end
    end.

End Composite.

Arguments Backend : clear implicits.
Arguments Op : clear implicits.

End TwentyCRMServer.

(** ** An instance of the number interface

    Integer-valued numbers with NaN and the two infinities, used to run the
    model on concrete inputs. *)

Inductive Num :=
| Finite (z : Z)
| NaN
| Infinity (negative : bool).

#[export] Instance Num_JsNumber : JsNumber Num := {|
  number_isFinite n := match n with Finite _ => true | _ => false end;
  number_toString n :=
    match n with
    | Finite z => pretty z
    | NaN => "NaN"
    | Infinity false => "Infinity"
    | Infinity true => "-Infinity"
    end;
  number_truthy n :=
    match n with
    | Finite z => negb (Z.eqb z 0)
    | NaN => false
    | Infinity _ => true
    end;
  number_ofNat n := Finite (Z.of_nat n)
|}.


(** ** [TwentyCRMServer]: object resolution, CRUD handlers, on-demand
    contracts and command-line options *)

Module Handlers.
Import SchemaLoader TwentyCRMServer.

Section Handlers.
Context {N : Type} `{!JsNumber N}.

#[local] Instance handler_ret : MRet (Op N) := @ret N.
#[local] Instance handler_bind : MBind (Op N) := fun A B k m => bind m k.

(** Returns [{ schema, pluralKey }], or [null]. *)
Definition resolveObject (reg : Registry N) (objectName : JsVal N)
  : option (Schema N * string) :=
  if negb (truthy objectName) then None
  else
    let normalized := Str.toLowerCase (Str.trim (toString objectName)) in
    match objectAliases reg !! normalized with
    | None => None
    | Some pluralKey =>
        if negb (Str.nonEmpty pluralKey) then None
        else
          match objectSchemas reg !! pluralKey with
          | None => None
          | Some schema => Some (schema, pluralKey)
          end
    end.

(** A string between double quotes. *)
Definition quoted (s : string) : string := doubleQuote +:+ s +:+ doubleQuote.

(** [const { id, ...updateData } = args]: the entries of [args] other than
    [id]. *)
Definition withoutId (args : JsVal N) : JsVal N :=
  JObj (List.filter (fun entry => negb (fst entry =? "id")) (objectEntries args)).

(** The [TypeError] of a string conversion that throws. *)
Definition conversionError : string := "Cannot convert object to primitive value".

(** [handleCRUDOperation]; the result is the message and the data handed to
    [buildContent] ([undefined] when there is none). A request without data
    carries an empty body. The query string that the [list] branch builds
    from [limit], [offset], [search] and the filters with [URLSearchParams]
    is the parameter [listQuery]; building it converts these arguments to
    numbers and strings and throws where a conversion does. The template
    literal of an endpoint throws likewise on an [id] that has no string
    conversion. [args] is never [null] or [undefined]: the caller replaces
    missing arguments by an empty object. *)
Definition handleCRUDOperation (listQuery : JsVal N -> Result string) (reg : Registry N)
           (operation objectName : string) (args : JsVal N)
  : Op N (string * JsVal N) :=
  match resolveObject reg (JStr objectName) with
  | None =>
      throw ("Unsupported object " +:+ quoted objectName +:+ " in the current schema")
  | Some (schema, _) =>
      let labelSingular := orDefault (labelSingular schema) (nameSingular schema) in
      let labelPlural := orDefault (labelPlural schema) (namePlural schema) in
      let endpointName := namePlural schema in
      if operation =? "create" then
        let payload := sanitizePayload args schema in
        created ← makeRequest ("/rest/" +:+ endpointName) "POST" payload;
        mret ("Created " +:+ labelSingular, created)
      else if operation =? "get" then
        if negb (truthy (prop args "id"))
        then throw ("Missing " +:+ quoted "id" +:+ " for " +:+ labelSingular +:+ " retrieval")
        else if negb (stringifiable (prop args "id")) then throw conversionError
        else
          item ← makeRequest ("/rest/" +:+ endpointName +:+ "/" +:+ toString (prop args "id"))
                             "GET" ∅;
          mret (labelSingular +:+ " details", item)
      else if operation =? "update" then
        let id := prop args "id" in
        let updateData := withoutId args in
        if negb (truthy id)
        then throw ("Missing " +:+ quoted "id" +:+ " for " +:+ labelSingular +:+ " update")
        else
          let payload := sanitizePayload updateData schema in
          if negb (stringifiable id) then throw conversionError
          else
            updated ← makeRequest ("/rest/" +:+ endpointName +:+ "/" +:+ toString id)
                                  "PUT" payload;
            mret ("Updated " +:+ labelSingular, updated)
      else if operation =? "list" then
        match listQuery args with
        | Throw message => throw message
        | Ok queryString =>
            let endpoint :=
              "/rest/" +:+ endpointName +:+
              (if Str.nonEmpty queryString then "?" +:+ queryString else "") in
            list ← makeRequest endpoint "GET" ∅;
            mret (labelPlural +:+ " list", buildListPayload list)
        end
      else if operation =? "delete" then
        if negb (truthy (prop args "id"))
        then throw ("Missing " +:+ quoted "id" +:+ " for " +:+ labelSingular +:+ " deletion")
        else if negb (stringifiable (prop args "id")) then throw conversionError
        else
          _ ← makeRequest ("/rest/" +:+ endpointName +:+ "/" +:+ toString (prop args "id"))
                          "DELETE" ∅;
          mret ("Deleted " +:+ labelSingular +:+ " " +:+ toString (prop args "id"),
                JUndefined)
      else throw ("Unknown operation: " +:+ operation)
  end.

(** [s] without the prefix [prefix], when it starts with it. *)
Fixpoint afterPrefix (prefix s : string) : option string :=
  match prefix, s with
  | EmptyString, _ => Some s
  | String p prefix', String c s' =>
      if Ascii.eqb p c then afterPrefix prefix' s' else None
  | String _ _, EmptyString => None
  end.

(** A string the pattern [.+] matches to its end: it is not empty and holds
    no line terminator (line feed or carriage return among the code units
    below 256). *)
Fixpoint noLineTerminator (s : string) : bool :=
  match s with
  | EmptyString => true
  | String c r =>
      negb (Nat.eqb (nat_of_ascii c) 10) && negb (Nat.eqb (nat_of_ascii c) 13)
      && noLineTerminator r
  end.

Definition crudOperations : list string :=
  ["create"; "get"; "update"; "list"; "delete"].

(** [name.match(/^(create|get|update|list|delete)_(.+)$/)]: the operation
    and the object name, or [null]. *)
Definition matchCrudTool (name : string) : option (string * string) :=
  (fix alternatives (operations : list string) : option (string * string) :=
     match operations with
     | [] => None
     | operation :: rest =>
         match afterPrefix (operation +:+ "_") name with
         | Some objectName =>
             if Str.nonEmpty objectName && noLineTerminator objectName
             then Some (operation, objectName)
             else alternatives rest
         | None => alternatives rest
         end
     end) crudOperations.

(** The keys of [globalToolHandlers]. *)
Definition globalToolNames : list string :=
  ["get_metadata_objects"; "get_object_metadata"; "get_local_object_schema";
   "get_available_operations"; "search_records"; "create_note_for_person"].

(** Where the handler of a tool call sends a tool name. *)
Inductive Route :=
| SpecialHandler (name : string)
| CrudHandler (operation objectName : string)
| UnknownTool.

(** The routing of the [CallToolRequestSchema] handler: a global handler
    first, then the pattern of the CRUD tools, else [Unknown tool]. *)
Definition routeTool (name : string) : Route :=
  if has globalToolNames name then SpecialHandler name
  else
    match matchCrudTool name with
    | Some (operation, objectName) => CrudHandler operation objectName
    | None => UnknownTool
    end.

(** [getLocalObjectSchema]: the contract it reports, or the error it throws,
    and the registry it leaves. A contract that no alias resolves is
    compiled from the export and registered unless its plural key is
    taken. An object name that is not a string makes [getObjectByName]
    throw. *)
Definition getLocalObjectSchema (metadata : Metadata N) (reg : Registry N)
           (objectName : JsVal N) : Result (Schema N) * Registry N :=
  if negb (truthy objectName) then (Throw "objectName is required", reg)
  else
    match resolveObject reg objectName with
    | Some (schema, _) => (Ok schema, reg)
    | None =>
        match metadata, objectName with
        | Some _, JStr name =>
            match generateToolSchema metadata name with
            | Some generated =>
                let pluralKey := Str.toLowerCase (namePlural generated) in
                if bool_decide (is_Some (objectSchemas reg !! pluralKey))
                then (Ok generated, reg)
                else (Ok generated, registerObjectSchema generated reg)
            | None =>
                (Throw ("Unknown object " +:+ quoted name +:+ " in local schema export"), reg)
            end
        | Some _, _ => (Throw "name.toLowerCase is not a function", reg)
        | None, _ =>
            (Throw ("Unknown object " +:+ quoted (toString objectName)
                    +:+ " in local schema export"), reg)
        end
    end.

(** The part of [arg.split('=')[1]] of an argument that starts with
    [--log-level=]: what follows the first equals sign, up to the next. *)
Fixpoint untilEquals (s : string) : string :=
  match s with
  | EmptyString => EmptyString
  | String c r => if Ascii.eqb c "="%char then EmptyString else String c (untilEquals r)
  end.

(** The effect of a log level on [options.quiet]. *)
Definition applyLevel (level : option string) (quiet : bool) : bool :=
  match level with
  | Some l =>
      if (l =? "silent") || (l =? "quiet") then true
      else if l =? "verbose" then false
      else quiet
  | None => quiet
  end.

(** The body of the loop of [parseCliOptions] for one argument. *)
Definition applyArgument (quiet : bool) (arg : string) : bool :=
  if (arg =? "--quiet") || (arg =? "-q") then true
  else if (arg =? "--verbose") || (arg =? "-v") then false
  else
    match afterPrefix "--log-level=" arg with
    | Some rest => applyLevel (Some (Str.toLowerCase (untilEquals rest))) quiet
    | None => quiet
    end.

(** [parseCliOptions(argv).quiet], given [process.env.MCP_LOG_LEVEL]. *)
Definition parseCliOptions (envLevel : option string) (argv : list string) : bool :=
  foldl applyArgument
        (applyLevel (Str.toLowerCase <$> envLevel) false)
        argv.

End Handlers.
End Handlers.

(** ** Schema files: loading and change detection *)

Module SchemaFiles.
Import SchemaLoader TwentyCRMServer.

(** [{ mtimeMs, size }] of a file; modification times are compared with
    [!==] and are never NaN. *)
Record FileStat (Time : Type) := {
  mtimeMs : Time;
  fileSize : nat    (* [size] *)
}.

Arguments mtimeMs {Time} _.
Arguments fileSize {Time} _.

(** A file of the schema directory: its [statSync] result and the value
    [JSON.parse(readFileSync(...))] gives, [None] when that throws. A
    metadata file that parses holds an export, [{ data: { objects } }], as
    every reader of [this.metadata] takes for granted. *)
Record SchemaFile (Time A : Type) := {
  fileStat : FileStat Time;
  fileParsed : option A
}.

Arguments fileStat {Time A} _.
Arguments fileParsed {Time A} _.

(** The two files under the schema path; a missing file makes [statSync]
    throw and [existsSync] answer [false]. *)
Record SchemaDir (N Time Ops : Type) := {
  metadataFile : option (SchemaFile Time (list (MetaObject N)));
  operationsFile : option (SchemaFile Time Ops)
}.

Arguments metadataFile {N Time Ops} _.
Arguments operationsFile {N Time Ops} _.

(** The fields of a [SchemaLoader]. *)
Record Loader (N Time Ops : Type) := {
  loaderMetadata : Metadata N;
  loaderOperations : option Ops;
  schemaPath : option string;
  statMetadata : option (FileStat Time);
  statOperations : option (FileStat Time)
}.

Arguments loaderMetadata {N Time Ops} _.
Arguments loaderOperations {N Time Ops} _.
Arguments schemaPath {N Time Ops} _.
Arguments statMetadata {N Time Ops} _.
Arguments statOperations {N Time Ops} _.

Section SchemaFiles.
Context {N : Type} `{!JsNumber N} {Time : Type} `{!EqDecision Time} {Ops : Type}.

(** [a.mtimeMs !== b.mtimeMs || a.size !== b.size] *)
Definition statDiffers (a b : FileStat Time) : bool :=
  negb (bool_decide (mtimeMs a = mtimeMs b)) || negb (Nat.eqb (fileSize a) (fileSize b)).

(** The loader a constructor leaves, before its first [loadSchemas]. *)
Definition newLoader (path : option string) : Loader N Time Ops :=
  {| loaderMetadata := None;
     loaderOperations := None;
     schemaPath := path;
     statMetadata := None;
     statOperations := None |}.

(** [loadSchemas({ force })]: its result and the loader it leaves. An
    exception inside the [try] block makes it return [false] with the
    assignments made before the exception kept. *)
Definition loadSchemas (force : bool) (dir : SchemaDir N Time Ops)
           (loader : Loader N Time Ops) : bool * Loader N Time Ops :=
  if negb (isSome_nonEmpty (schemaPath loader)) then (false, loader)
  else
    match metadataFile dir with
    | None => (false, loader)
    | Some file =>
        let metadataStat := fileStat file in
        let metadataChanged :=
          force
          || match statMetadata loader with
             | None => true
             | Some known => statDiffers known metadataStat
             end in
        let afterMetadata :=
          if metadataChanged then
            match fileParsed file with
            | None => None
            | Some objects =>
                Some {| loaderMetadata := Some objects;
                        loaderOperations := loaderOperations loader;
                        schemaPath := schemaPath loader;
                        statMetadata := Some metadataStat;
                        statOperations := statOperations loader |}
            end
          else Some loader in
        match afterMetadata with
        | None => (false, loader)
        | Some loader =>
            match operationsFile dir with
            | None =>
                (true,
                 {| loaderMetadata := loaderMetadata loader;
                    loaderOperations := None;
                    schemaPath := schemaPath loader;
                    statMetadata := statMetadata loader;
                    statOperations := None |})
            | Some file =>
                let operationsStat := fileStat file in
                let operationsChanged :=
                  force
                  || match statOperations loader with
                     | None => true
                     | Some known => statDiffers known operationsStat
                     end in
                if operationsChanged then
                  match fileParsed file with
                  | None => (false, loader)
                  | Some operations =>
                      (true,
                       {| loaderMetadata := loaderMetadata loader;
                          loaderOperations := Some operations;
                          schemaPath := schemaPath loader;
                          statMetadata := statMetadata loader;
                          statOperations := Some operationsStat |})
                  end
                else (true, loader)
            end
        end
    end.

Definition hasSchemaChanged (dir : SchemaDir N Time Ops) (loader : Loader N Time Ops)
  : bool :=
  if negb (isSome_nonEmpty (schemaPath loader)) then false
  else
    match metadataFile dir with
    | None => bool_decide (is_Some (loaderMetadata loader))
    | Some file =>
        match loaderMetadata loader, statMetadata loader with
        | Some _, Some known =>
            if statDiffers (fileStat file) known then true
            else
              match operationsFile dir with
              | None => bool_decide (is_Some (statOperations loader))
              | Some file =>
                  match statOperations loader with
                  | None => true
                  | Some known => statDiffers (fileStat file) known
                  end
              end
        | _, _ => true
        end
    end.

(** [refreshSchemaIfChanged], on the loader and the registry of the server. *)
Definition refreshSchemaIfChanged (dir : SchemaDir N Time Ops)
           (server : Loader N Time Ops * Registry N)
  : Loader N Time Ops * Registry N :=
  let loader := fst server in
  let reg := snd server in
  match loaderMetadata loader with
  | None =>
      let loaded := loadSchemas true dir loader in
      if fst loaded then (snd loaded, rebuildRegistry (loaderMetadata (snd loaded)))
      else (snd loaded, reg)
  | Some _ =>
      if negb (hasSchemaChanged dir loader) then (loader, reg)
      else
        let reloaded := loadSchemas true dir loader in
        if negb (fst reloaded) then (snd reloaded, reg)
        else (snd reloaded, rebuildRegistry (loaderMetadata (snd reloaded)))
  end.

(** The loader and the registry the constructor of the server leaves. *)
Definition newServer (path : option string) (dir : SchemaDir N Time Ops)
  : Loader N Time Ops * Registry N :=
  let loaded := loadSchemas false dir (newLoader path) in
  (snd loaded, rebuildRegistry (loaderMetadata (snd loaded))).

End SchemaFiles.
End SchemaFiles.
(** * Vocabulary of the statements and example inputs *)

Import SchemaLoader TwentyCRMServer.

Section Vocabulary.
Context {N : Type} `{!JsNumber N}.

(** The field with its name replaced, every other member kept. *)
Definition renameField (field : Field N) (name : string) : Field N :=
  {| fieldName := name;
     fieldType := fieldType field;
     fieldIsActive := fieldIsActive field;
     fieldIsSystem := fieldIsSystem field;
     fieldIsNullable := fieldIsNullable field;
     fieldDefaultValue := fieldDefaultValue field;
     fieldLabel := fieldLabel field;
     fieldDescription := fieldDescription field;
     fieldOptions := fieldOptions field;
     fieldRelation := fieldRelation field |}.

(** [relation.alias || relation.name], the key a relation is emitted under. *)
Definition relationKey (relation : RelationMeta) : string :=
  orDefault (relAlias relation) (relName relation).

(** The key under which the sanitizer emits the payload entry keyed [key],
    when it emits one: the key of the relation the contract declares under
    that name, and [key] itself otherwise. *)
Definition emittedKey (schema : Schema N) (key : string) : string :=
  match fst (getRelationInfo schema) !! key with
  | Some relation => relationKey relation
  | None => key
  end.

(** The values a SINGLE relation accepts, with the identifier each gives:
    an object whose [id] is a string that is not blank; failing that, an
    object whose [value] is such a string; a string that is not blank; a
    finite number. Strings are trimmed. *)
Inductive SingleId : JsVal N -> string -> Prop :=
| SingleId_object_id entries s :
    entryOf "id" entries = Some (JStr s) ->
    Str.nonEmpty (Str.trim s) = true ->
    SingleId (JObj entries) (Str.trim s)
| SingleId_object_value entries s :
    (forall s', entryOf "id" entries = Some (JStr s') -> Str.nonEmpty (Str.trim s') = false) ->
    entryOf "value" entries = Some (JStr s) ->
    Str.nonEmpty (Str.trim s) = true ->
    SingleId (JObj entries) (Str.trim s)
| SingleId_string s :
    Str.nonEmpty (Str.trim s) = true ->
    SingleId (JStr s) (Str.trim s)
| SingleId_number n :
    number_isFinite n = true ->
    SingleId (JNum n) (number_toString n).

(** The three explicit clears of a MULTIPLE relation: [null], the empty
    array, an object whose [ids] is the empty array. *)
Inductive ExplicitClear : JsVal N -> Prop :=
| ExplicitClear_null : ExplicitClear JNull
| ExplicitClear_array : ExplicitClear (JArr [])
| ExplicitClear_ids entries :
    entryOf "ids" entries = Some (JArr []) -> ExplicitClear (JObj entries).

(** The candidates of a MULTIPLE relation value: the elements of an array,
    the elements of the [ids] array of an object, a bare string or number
    itself; of an object whose [ids] is no array, the [id] member when it
    is defined; and none for such an object without [id], for a boolean,
    for [undefined] and for [null]. Every value has candidates. *)
Inductive Candidates : JsVal N -> list (JsVal N) -> Prop :=
| Candidates_array items : Candidates (JArr items) items
| Candidates_ids entries ids :
    entryOf "ids" entries = Some (JArr ids) -> Candidates (JObj entries) ids
| Candidates_string s : Candidates (JStr s) [JStr s]
| Candidates_number n : Candidates (JNum n) [JNum n]
| Candidates_id entries :
    (forall ids, entryOf "ids" entries <> Some (JArr ids)) ->
    prop (JObj entries) "id" <> JUndefined ->
    Candidates (JObj entries) [prop (JObj entries) "id"]
| Candidates_no_id entries :
    (forall ids, entryOf "ids" entries <> Some (JArr ids)) ->
    prop (JObj entries) "id" = JUndefined ->
    Candidates (JObj entries) []
| Candidates_bool b : Candidates (JBool b) []
| Candidates_undefined : Candidates JUndefined []
| Candidates_null : Candidates JNull [].

(** The properties of a contract that are neither read-only by name nor
    of a POSITION-typed field. *)
Definition writableProperties (schema : Schema N) : gmap string (JsVal N) :=
  filter (fun entry => writableName (fieldMap (fieldMetadata schema)) (fst entry) = true)
         (properties schema).

(** The objects of an export do not shadow the join object: none of them
    has the plural name [noteTargets] together with the singular name of a
    core object. *)
Definition joinNotShadowed (metadata : Metadata N) : Prop :=
  forall objects object,
    metadata = Some objects -> object ∈ objects ->
    Str.toLowerCase (objNamePlural object) = "notetargets" ->
    Str.toLowerCase (objNameSingular object) ∉ getCoreObjects.

End Vocabulary.

(** ** Example inputs *)

Definition plainField (name type : string) : Field Num :=
  {| fieldName := name;
     fieldType := type;
     fieldIsActive := true;
     fieldIsSystem := false;
     fieldIsNullable := Some true;
     fieldDefaultValue := JNull;
     fieldLabel := None;
     fieldDescription := None;
     fieldOptions := None;
     fieldRelation := None |}.

Definition relationTo (type : string) : FieldRelation :=
  {| relationType := Some type; targetObjectMetadata := None |}.

Definition relationField (name type : string) : Field Num :=
  {| fieldName := name;
     fieldType := "RELATION";
     fieldIsActive := true;
     fieldIsSystem := false;
     fieldIsNullable := Some true;
     fieldDefaultValue := JNull;
     fieldLabel := None;
     fieldDescription := None;
     fieldOptions := None;
     fieldRelation := Some (relationTo type) |}.

(** A schema export with one object, [people], holding a text field, a
    MANY_TO_ONE relation, a ONE_TO_MANY relation and a relation of an
    unknown type. *)
Definition peopleMetadata : Metadata Num :=
  Some [{| objNameSingular := "person";
           objNamePlural := "people";
           objLabelSingular := Some "Person";
           objLabelPlural := Some "People";
           objDescription := None;
           objIsActive := true;
           objIsSystem := false;
           objFields := [plainField "city" "TEXT";
                         relationField "company" "MANY_TO_ONE";
                         relationField "noteTargets" "ONE_TO_MANY";
                         relationField "favorites" "SOMETHING_ELSE"] |}].

Definition relationMeta (name alias type : string) : RelationMeta :=
  {| relName := name;
     relAlias := Some alias;
     relRelationType := Some type;
     relTargetNameSingular := None;
     relTargetNamePlural := None;
     relTargetLabelSingular := None;
     relTargetLabelPlural := None |}.

(** A contract with the given relations and nothing else. *)
Definition contractOf (relations : list RelationMeta) : Schema Num :=
  {| nameSingular := "person";
     namePlural := "people";
     labelSingular := Some "Person";
     labelPlural := Some "People";
     description := None;
     properties := ∅;
     required := [];
     fieldMetadata := [];
     relationMetadata := relations |}.

Definition companyContract : Schema Num :=
  contractOf [relationMeta "company" "companyId" "MANY_TO_ONE"].

(** The contract of an object whose MANY_TO_ONE relation field is named
    [ownerId]: [getRelationAlias] gives it the alias [ownerId]. *)
Definition ownerContract : Schema Num :=
  contractOf [relationMeta "ownerId" "ownerId" "MANY_TO_ONE"].

Definition noteTargetsContract : Schema Num :=
  contractOf [relationMeta "noteTargets" "noteTargetsIds" "ONE_TO_MANY"].

(** A contract whose only properties are system-managed. *)
Definition timestampsContract : Schema Num :=
  {| nameSingular := "event";
     namePlural := "events";
     labelSingular := None;
     labelPlural := None;
     description := None;
     properties := {[ "createdAt" := described "string" "Creation date";
                      "position" := described "number" "Position" ]};
     required := [];
     fieldMetadata := [];
     relationMetadata := [] |}.

(** A backend that answers every request with [{ data: { id: "n1" } }]. *)
Definition answeringBackend : Backend Num :=
  fun _ => Ok (JObj [("data", JObj [("id", JStr "n1")])]).

(** The arguments [{ personId: "p1", companyId: "c1", note: { title: "T" } }]. *)
Definition noteParams : JsVal Num :=
  JObj [("personId", JStr "p1");
        ("companyId", JStr "c1");
        ("note", JObj [("title", JStr "T")])].

(** The fallback registry with the hand-authored join contract
    [noteTargets] registered in addition. *)
Definition registryWithJoin : Registry Num :=
  registerObjectSchema (fallbackSchema "noteTargets") (rebuildRegistry None).

(** ** Further vocabulary *)

Import Handlers SchemaFiles.

Section Vocabulary2.
Context {N : Type} `{!JsNumber N}.

(** A default that surfaces in a contract: it holds no [null] and no
    [undefined], no empty array and no empty object, and none of its
    strings is an auto-generated token, at any depth. *)
Inductive StaticDefault : JsVal N -> Prop :=
| StaticDefault_bool b : StaticDefault (JBool b)
| StaticDefault_num n : StaticDefault (JNum n)
| StaticDefault_str s :
    has AUTO_DEFAULT_TOKENS (Str.toLowerCase s) = false -> StaticDefault (JStr s)
| StaticDefault_arr items :
    items <> [] -> Forall StaticDefault items -> StaticDefault (JArr items)
| StaticDefault_obj entries :
    entries <> [] -> Forall (fun entry => StaticDefault (snd entry)) entries ->
    StaticDefault (JObj entries).

(** The required-field rule of [generateToolSchema]: [isNullable] is
    [false] and the raw default is [null] or missing. *)
Definition requiredField (field : Field N) : bool :=
  bool_decide (fieldIsNullable field = Some false) && looselyNull (fieldDefaultValue field).

(** The relation descriptor [generateToolSchema] records for a field: one
    for each RELATION field that has a [relation] member. *)
Definition relationOf (field : Field N) : option RelationMeta :=
  match fieldRelation field with
  | Some rel =>
      if fieldType field =? "RELATION" then
        Some {| relName := fieldName field;
                relAlias := getRelationAlias field;
                relRelationType := relationType rel;
                relTargetNameSingular := targetField rel targetNameSingular;
                relTargetNamePlural := targetField rel targetNamePlural;
                relTargetLabelSingular := targetField rel targetLabelSingular;
                relTargetLabelPlural := targetField rel targetLabelPlural |}
      else None
  | None => None
  end.

(** The registry is consistent: a stored contract sits under its lower-cased
    plural name, has non-empty names and is a supported object; a supported
    object is stored; an alias leads to a stored contract; and the plural
    and singular names of a supported object are aliases. *)
Record RegistryOk (reg : Registry N) : Prop := {
  ok_stored :
    forall key schema,
      objectSchemas reg !! key = Some schema ->
      key = Str.toLowerCase (namePlural schema)
      /\ namePlural schema <> "" /\ nameSingular schema <> ""
      /\ schema ∈ supportedObjects reg;
  ok_supported :
    forall schema,
      schema ∈ supportedObjects reg ->
      objectSchemas reg !! Str.toLowerCase (namePlural schema) = Some schema;
  ok_aliases :
    forall name key,
      objectAliases reg !! name = Some key -> is_Some (objectSchemas reg !! key);
  ok_names :
    forall schema,
      schema ∈ supportedObjects reg ->
      is_Some (objectAliases reg !! Str.toLowerCase (namePlural schema))
      /\ is_Some (objectAliases reg !! Str.toLowerCase (nameSingular schema))
}.

(** What the loop of [buildNoteTargetRequests] maintains: the requests hold
    the note, have a second key, and bear distinct deduplication keys, which
    are the keys seen. *)
Definition linkState (noteId : string)
           (state : list (list (string * JsVal N)) * gset string) : Prop :=
  Forall (fun request =>
            entryOf "noteId" request = Some (JStr noteId) /\ 2 <= length request)
         (fst state)
  /\ NoDup (map requestKey (fst state))
  /\ (forall key, key ∈ snd state <-> key ∈ map requestKey (fst state)).

(** A value that holds no member named [toString] or [__proto__], at any
    depth: the string conversion of every value inside it returns, and an
    assignment of any of its keys defines a member. *)
Fixpoint plain (v : JsVal N) : bool :=
  match v with
  | JArr items => forallb plain items
  | JObj entries =>
      (fix each (es : list (string * JsVal N)) : bool :=
         match es with
         | [] => true
         | (key, val) :: rest =>
             negb (key =? "toString") && negb (key =? "__proto__") && plain val && each rest
         end) entries
  | _ => true
  end.

(** A contract that emits no relation under the key [__proto__]. *)
Definition ordinaryContract (schema : Schema N) : Prop :=
  Forall (fun relation => relationKey relation <> "__proto__") (relationMetadata schema).

(** The request that creates the note. *)
Definition noteRequest (noteSchema : Schema N) (note : JsVal N) : Request N :=
  {| endpoint := "/rest/notes"; method := "POST";
     body := sanitizePayload note noteSchema |}.

(** The request that creates one link of the note. *)
Definition linkRequest (targetSchema : Schema N) (request : list (string * JsVal N))
  : Request N :=
  {| endpoint := "/rest/noteTargets"; method := "POST";
     body := sanitizePayload (JObj request) targetSchema |}.

End Vocabulary2.

Section LoaderVocabulary.
Context {N Time Ops : Type}.

(** The loader holds a file's content exactly when it holds the file's
    signature, as after its construction and after every [loadSchemas]. *)
Definition LoaderOk (loader : Loader N Time Ops) : Prop :=
  (is_Some (loaderMetadata loader) <-> is_Some (statMetadata loader))
  /\ (is_Some (loaderOperations loader) <-> is_Some (statOperations loader)).

(** The signatures of the two files of a schema directory. *)
Definition signatures (dir : SchemaDir N Time Ops)
  : option (FileStat Time) * option (FileStat Time) :=
  (fileStat <$> metadataFile dir, fileStat <$> operationsFile dir).

End LoaderVocabulary.

(** A schema directory whose two files parse, the metadata file holding
    the export [peopleMetadata]. *)
Definition peopleDir : SchemaDir Num nat unit :=
  {| metadataFile :=
       Some {| fileStat := {| mtimeMs := 1; fileSize := 10 |};
               fileParsed := peopleMetadata |};
     operationsFile :=
       Some {| fileStat := {| mtimeMs := 2; fileSize := 20 |};
               fileParsed := Some tt |} |}.

(** The same directory with an operations file that does not parse. *)
Definition corruptDir : SchemaDir Num nat unit :=
  {| metadataFile := metadataFile peopleDir;
     operationsFile :=
       Some {| fileStat := {| mtimeMs := 2; fileSize := 20 |};
               fileParsed := None |} |}.

(** An export with the objects [people] and [noteTargets], the latter
    linking a note to a person. *)
Definition joinMetadata : Metadata Num :=
  Some [{| objNameSingular := "person";
           objNamePlural := "people";
           objLabelSingular := Some "Person";
           objLabelPlural := Some "People";
           objDescription := None;
           objIsActive := true;
           objIsSystem := false;
           objFields := [plainField "city" "TEXT"] |};
        {| objNameSingular := "noteTarget";
           objNamePlural := "noteTargets";
           objLabelSingular := Some "Note target";
           objLabelPlural := Some "Note targets";
           objDescription := None;
           objIsActive := true;
           objIsSystem := false;
           objFields := [relationField "note" "MANY_TO_ONE";
                         relationField "person" "MANY_TO_ONE"] |}].
(** * Properties *)

(** ** Relation alias derivation *)

Section AliasProperties.
Context {N : Type} `{!JsNumber N}.

Lemma eqIgnoreCase_refl (s : string) : Str.eqIgnoreCase s s = true.
Proof.
  induction s as [|c r IH]; simpl; [reflexivity|].
  rewrite IH, andb_true_r. apply Ascii.eqb_refl.
Qed.

Lemma length_append (s t : string) :
  String.length (s +:+ t) = String.length s + String.length t.
Proof. induction s as [|c r IH]; simpl; [reflexivity | now rewrite IH]. Qed.

Lemma endsWithIgnoreCase_self (pat : string) : Str.endsWithIgnoreCase pat pat = true.
Proof.
  destruct pat as [|c r]; simpl; [reflexivity|].
  rewrite Nat.eqb_refl. apply (eqIgnoreCase_refl (String c r)).
Qed.

Lemma endsWithIgnoreCase_append (pat s : string) :
  Str.endsWithIgnoreCase pat (s +:+ pat) = true.
Proof.
  induction s as [|c r IH].
  - apply endsWithIgnoreCase_self.
  - change (String c r +:+ pat) with (String c (r +:+ pat)).
    cbn [Str.endsWithIgnoreCase String.length].
    rewrite length_append.
    destruct (Nat.eqb_spec (S (String.length r + String.length pat)) (String.length pat)) as [E|_];
      [lia | exact IH].
Qed.

(** C7. For a relation field of SINGLE cardinality (MANY_TO_ONE or
    ONE_TO_ONE) the alias is the field name when the name ends in "Id",
    compared without case, and the name followed by "Id" otherwise; for
    MULTIPLE cardinality (ONE_TO_MANY or MANY_TO_MANY) the same holds with
    "Ids". Deriving the alias of a field named by an alias gives that alias
    again. *)
Theorem getRelationAlias_exact_idempotent
        (field : Field N) (rel : FieldRelation) (t : string) :
  fieldRelation field = Some rel ->
  relationType rel = Some t ->
  (t = "MANY_TO_ONE" \/ t = "ONE_TO_ONE" ->
   getRelationAlias field =
     Some (if Str.endsWithIgnoreCase "Id" (fieldName field)
           then fieldName field else fieldName field +:+ "Id"))
  /\ (t = "ONE_TO_MANY" \/ t = "MANY_TO_MANY" ->
      getRelationAlias field =
        Some (if Str.endsWithIgnoreCase "Ids" (fieldName field)
              then fieldName field else fieldName field +:+ "Ids"))
  /\ (forall alias,
        getRelationAlias field = Some alias ->
        getRelationAlias (renameField field alias) = Some alias).
Proof.
  intros Hrel Ht.
  assert (Hsingle : t = "MANY_TO_ONE" \/ t = "ONE_TO_ONE" ->
                    forall name, getRelationAlias (renameField field name) =
                      Some (if Str.endsWithIgnoreCase "Id" name
                            then name else name +:+ "Id")).
  { intros Hc name. unfold getRelationAlias. cbn [renameField fieldRelation fieldName].
    rewrite Hrel, Ht.
    destruct Hc as [-> | ->]; cbn;
      destruct (Str.endsWithIgnoreCase "Id" name); reflexivity. }
  assert (Hmultiple : t = "ONE_TO_MANY" \/ t = "MANY_TO_MANY" ->
                      forall name, getRelationAlias (renameField field name) =
                        Some (if Str.endsWithIgnoreCase "Ids" name
                              then name else name +:+ "Ids")).
  { intros Hc name. unfold getRelationAlias. cbn [renameField fieldRelation fieldName].
    rewrite Hrel, Ht.
    destruct Hc as [-> | ->]; cbn;
      destruct (Str.endsWithIgnoreCase "Ids" name); [reflexivity| |reflexivity|];
      destruct (Str.endsWith "s" name); reflexivity. }
  assert (Hsame : getRelationAlias (renameField field (fieldName field))
                  = getRelationAlias field) by reflexivity.
  split; [|split].
  - intros Hc. rewrite <- Hsame. apply Hsingle, Hc.
  - intros Hc. rewrite <- Hsame. apply Hmultiple, Hc.
  - intros alias Halias.
    assert (Hcases : isSingleType (Some t) = true \/ isMultipleType (Some t) = true).
    { revert Halias. unfold getRelationAlias. rewrite Hrel, Ht.
      destruct (negb (isSome_nonEmpty (Some t))); [discriminate|].
      destruct (isSingleType (Some t)); [now left|].
      destruct (isMultipleType (Some t)); [now right | discriminate]. }
    destruct Hcases as [Hs | Hm].
    + assert (Hc : t = "MANY_TO_ONE" \/ t = "ONE_TO_ONE").
      { unfold isSingleType, isType in Hs. apply orb_true_iff in Hs.
        destruct Hs as [Hs | Hs]; apply String.eqb_eq in Hs; auto. }
      rewrite <- Hsame, (Hsingle Hc) in Halias. rewrite (Hsingle Hc).
      destruct (Str.endsWithIgnoreCase "Id" (fieldName field)) eqn:E;
        injection Halias as <-.
      * now rewrite E.
      * now rewrite endsWithIgnoreCase_append.
    + assert (Hc : t = "ONE_TO_MANY" \/ t = "MANY_TO_MANY").
      { unfold isMultipleType, isType in Hm. apply orb_true_iff in Hm.
        destruct Hm as [Hm | Hm]; apply String.eqb_eq in Hm; auto. }
      rewrite <- Hsame, (Hmultiple Hc) in Halias. rewrite (Hmultiple Hc).
      destruct (Str.endsWithIgnoreCase "Ids" (fieldName field)) eqn:E;
        injection Halias as <-.
      * now rewrite E.
      * now rewrite endsWithIgnoreCase_append.
Qed.

End AliasProperties.

(** The theorem at the MANY_TO_ONE field [company]: its alias is
    [companyId], and a field named [companyId] keeps that alias. *)
Lemma getRelationAlias_company :
  getRelationAlias (relationField "company" "MANY_TO_ONE") = Some "companyId"
  /\ getRelationAlias (renameField (relationField "company" "MANY_TO_ONE") "companyId")
     = Some "companyId".
Proof.
  destruct (getRelationAlias_exact_idempotent
              (relationField "company" "MANY_TO_ONE") (relationTo "MANY_TO_ONE")
              "MANY_TO_ONE" eq_refl eq_refl) as (Hsingle & _ & Hidem).
  split.
  - exact (Hsingle (or_introl eq_refl)).
  - apply Hidem. exact (Hsingle (or_introl eq_refl)).
Defined.

(** ** Link normalization *)

Section LinkProperties.
Context {N : Type} `{!JsNumber N}.

Lemma trim_length_zero (s : string) :
  Nat.eqb (String.length s) 0 = true -> s = "".
Proof. destruct s; [reflexivity | discriminate]. Qed.

(** A string is wrapped; every other value is returned as it is. *)
Lemma normalizeLinksValue_cases (value : JsVal N) :
  normalizeLinksValue value =
    match value with
    | JStr s => linksObject (Str.trim s)
    | _ => value
    end.
Proof.
  unfold normalizeLinksValue.
  destruct value as [| |b|n|s|items|entries]; cbn; try reflexivity.
  - destruct (Nat.eqb (String.length (Str.trim s)) 0) eqn:E; [|reflexivity].
    now rewrite (trim_length_zero _ E).
  - destruct (_ || _ || _); reflexivity.
Qed.

(** C8. Link normalization returns an object (one that holds any of the
    keys primaryLinkUrl, primaryLinkLabel, secondaryLinks, or any other)
    unchanged; it returns a string [s], the empty string included, as
    [{primaryLinkUrl: trim(s), primaryLinkLabel: "", secondaryLinks: null}];
    it returns null, undefined and every other value unchanged; and
    normalizing a normalized value returns it unchanged. *)
Theorem normalizeLinksValue_shape_idempotent :
  (forall entries : list (string * JsVal N),
     normalizeLinksValue (JObj entries) = JObj entries)
  /\ (forall s : string,
        normalizeLinksValue (JStr s : JsVal N) =
          JObj [("primaryLinkUrl", JStr (Str.trim s));
                ("primaryLinkLabel", JStr "");
                ("secondaryLinks", JNull)])
  /\ normalizeLinksValue (JStr "" : JsVal N) =
       JObj [("primaryLinkUrl", JStr "");
             ("primaryLinkLabel", JStr "");
             ("secondaryLinks", JNull)]
  /\ normalizeLinksValue (JNull : JsVal N) = JNull
  /\ normalizeLinksValue (JUndefined : JsVal N) = JUndefined
  /\ (forall b : bool, normalizeLinksValue (JBool b : JsVal N) = JBool b)
  /\ (forall n : N, normalizeLinksValue (JNum n) = JNum n)
  /\ (forall items : list (JsVal N), normalizeLinksValue (JArr items) = JArr items)
  /\ (forall value : JsVal N,
        normalizeLinksValue (normalizeLinksValue value) = normalizeLinksValue value).
Proof.
  repeat split; intros; rewrite ?normalizeLinksValue_cases; try reflexivity.
  destruct value; reflexivity.
Qed.

End LinkProperties.

(** ** The sanitizer *)

Section SanitizerProperties.
Context {N : Type} `{!JsNumber N}.

(** C6. Whatever the payload and the contract, the object returned by
    [sanitizePayload] has no [id] key. *)
Theorem sanitizePayload_never_emits_id (payload : JsVal N) (schema : Schema N) :
  sanitizePayload payload schema !! "id" = None.
Proof.
  unfold sanitizePayload.
  destruct (negb (truthy payload) || negb (typeof payload =? "object")).
  - apply lookup_empty.
  - apply lookup_delete_eq.
Qed.

Lemma extractSingleRelationId_SingleId (value : JsVal N) (id : string) :
  SingleId value id -> extractSingleRelationId value = JStr id.
Proof.
  intros [entries s Hid Hs | entries s Hid Hval Hs | s Hs | n Hn]; cbn.
  - now rewrite Hid; cbn; rewrite Hs.
  - rewrite Hval; cbn. rewrite Hs.
    destruct (entryOf "id" entries) as [[| |b|n|s'|items|es]|] eqn:E; cbn; try reflexivity.
    now rewrite (Hid s' eq_refl).
  - now rewrite Hs.
  - now rewrite Hn.
Qed.

Lemma SingleId_defined (value : JsVal N) (id : string) :
  SingleId value id -> isUndefined value = false.
Proof. now intros []. Qed.

Lemma normalizeRelationValue_lookup_ne (value : JsVal N) (relation : RelationMeta)
      (key : string) :
  relationKey relation <> key ->
  normalizeRelationValue value relation !! key = None.
Proof.
  intros Hne. unfold normalizeRelationValue. fold (relationKey relation).
  destruct (negb (Str.nonEmpty (relationKey relation))); [apply lookup_empty|].
  destruct (getRelationCardinality (relRelationType relation)) as [[|]|].
  - destruct (isUndefined (extractSingleRelationId value));
      [apply lookup_empty | now apply lookup_singleton_ne].
  - destruct (extractMultipleRelationIds value);
      [now apply lookup_singleton_ne | apply lookup_empty].
  - destruct (extractMultipleRelationIds value);
      [now apply lookup_singleton_ne | apply lookup_empty].
Qed.

(** An entry changes the sanitized object at its emitted key only. *)
Lemma sanitizeEntry_lookup_ne (schema : Schema N) (sanitized : gmap string (JsVal N))
      (entry : string * JsVal N) (key : string) :
  emittedKey schema (fst entry) <> key ->
  sanitizeEntry (fst (getRelationInfo schema)) (snd (getRelationInfo schema))
                (getLinksFieldNames schema) sanitized entry !! key
  = sanitized !! key.
Proof.
  unfold emittedKey, sanitizeEntry. intros Hne.
  destruct (isUndefined (snd entry)); [reflexivity|].
  destruct (fst (getRelationInfo schema) !! fst entry) as [relation|].
  - rewrite lookup_union_r; [reflexivity|].
    now apply normalizeRelationValue_lookup_ne.
  - destruct (snd (getRelationInfo schema) !! fst entry) as [relation|].
    + destruct (isUndefined _); [reflexivity | now apply lookup_insert_ne].
    + destruct (bool_decide _); now apply lookup_insert_ne.
Qed.

Lemma sanitizeLoop_lookup_ne (schema : Schema N) (entries : list (string * JsVal N))
      (sanitized : gmap string (JsVal N)) (key : string) :
  (forall entry, entry ∈ entries -> emittedKey schema (fst entry) <> key) ->
  foldl (sanitizeEntry (fst (getRelationInfo schema)) (snd (getRelationInfo schema))
                       (getLinksFieldNames schema)) sanitized entries !! key
  = sanitized !! key.
Proof.
  revert sanitized.
  induction entries as [|entry rest IH]; intros sanitized Hall; [reflexivity|].
  cbn [foldl]. rewrite IH.
  - apply sanitizeEntry_lookup_ne, Hall. now left.
  - intros e He. apply Hall. now right.
Qed.

(** The entry of a SINGLE relation with an accepted value sets the
    relation's key to the identifier. *)
Lemma sanitizeEntry_single (schema : Schema N) (sanitized : gmap string (JsVal N))
      (key : string) (value : JsVal N) (relation : RelationMeta) (id : string) :
  fst (getRelationInfo schema) !! key = Some relation ->
  getRelationCardinality (relRelationType relation) = Some single ->
  Str.nonEmpty (relationKey relation) = true ->
  SingleId value id ->
  sanitizeEntry (fst (getRelationInfo schema)) (snd (getRelationInfo schema))
                (getLinksFieldNames schema) sanitized (key, value)
  = <[relationKey relation := JStr id]> sanitized.
Proof.
  intros Hname Hsingle Hkey Hid. unfold sanitizeEntry. cbn [fst snd].
  rewrite (SingleId_defined _ _ Hid), Hname.
  unfold normalizeRelationValue. fold (relationKey relation).
  rewrite Hkey, Hsingle, (extractSingleRelationId_SingleId _ _ Hid). cbn.
  now rewrite insert_union_singleton_l.
Qed.

(** A relation name that no relation of the list bears keeps its entry in
    the by-name map. *)
Lemma getRelationInfo_loop_other (relations : list RelationMeta)
      (maps : gmap string RelationMeta * gmap string RelationMeta) (name : string) :
  name ∉ map relName relations ->
  fst (foldl (fun maps relation =>
                (<[relName relation := relation]> (fst maps),
                 if isSome_nonEmpty (relAlias relation)
                 then <[orDefault (relAlias relation) "" := relation]> (snd maps)
                 else snd maps))
             maps relations) !! name
  = fst maps !! name.
Proof.
  revert maps. induction relations as [|r rest IH]; intros maps Hfresh; [reflexivity|].
  cbn [foldl]. rewrite IH.
  - cbn [fst]. apply lookup_insert_ne. intros E. apply Hfresh. rewrite <- E. now left.
  - intros Hin. apply Hfresh. now right.
Qed.

(** In a contract whose relation names are distinct, the by-name map of
    [getRelationInfo] resolves the name of each relation to that relation. *)
Lemma getRelationInfo_byName (schema : Schema N) (relation : RelationMeta) :
  NoDup (map relName (relationMetadata schema)) ->
  relation ∈ relationMetadata schema ->
  fst (getRelationInfo schema) !! relName relation = Some relation.
Proof.
  unfold getRelationInfo. generalize (∅ : gmap string RelationMeta, ∅ : gmap string RelationMeta).
  induction (relationMetadata schema) as [|r rest IH]; intros maps Hnodup Hin.
  - now apply elem_of_nil in Hin.
  - cbn [map] in Hnodup. apply NoDup_cons in Hnodup. destruct Hnodup as [Hfresh Hnodup].
    cbn [foldl]. apply elem_of_cons in Hin. destruct Hin as [-> | Hin].
    + rewrite getRelationInfo_loop_other by exact Hfresh.
      cbn [fst]. apply lookup_insert_eq.
    + now apply IH.
Qed.

Lemma sanitizePayload_object (entries : list (string * JsVal N)) (schema : Schema N) :
  sanitizePayload (JObj entries) schema
  = delete "id"
      (foldl (sanitizeEntry (fst (getRelationInfo schema)) (snd (getRelationInfo schema))
                            (getLinksFieldNames schema)) ∅ entries).
Proof. reflexivity. Qed.

(** C4, amended. Let the contract declare under the name [k] a SINGLE
    relation emitted under the key [a] (its alias), and let the payload map
    [k] to an object whose [id] (or, failing that, [value]) is a string that
    is not blank, to a string that is not blank, or to a finite number.
    Then the sanitized payload holds the trimmed identifier under [a],
    provided [a] is not [id] and no later entry of the payload is emitted
    under [a]; it has no key [k], provided [k] differs from [a] and no other
    entry of the payload is emitted under [k]; and a payload with this
    single entry is sanitized to exactly [{ a: identifier }]. *)
Theorem sanitizePayload_single_relation
        (schema : Schema N) (relation : RelationMeta) (k a : string)
        (value : JsVal N) (id : string) (before after : list (string * JsVal N)) :
  fst (getRelationInfo schema) !! k = Some relation ->
  getRelationCardinality (relRelationType relation) = Some single ->
  relationKey relation = a ->
  Str.nonEmpty a = true ->
  SingleId value id ->
  (a <> "id" ->
   (forall entry, entry ∈ after -> emittedKey schema (fst entry) <> a) ->
   sanitizePayload (JObj (before ++ (k, value) :: after)%list) schema !! a = Some (JStr id))
  /\ (k <> a ->
      (forall entry, entry ∈ (before ++ after)%list -> emittedKey schema (fst entry) <> k) ->
      sanitizePayload (JObj (before ++ (k, value) :: after)%list) schema !! k = None)
  /\ (a <> "id" ->
      sanitizePayload (JObj [(k, value)]) schema = {[a := JStr id]}).
Proof.
  intros Hname Hsingle <- Hkey Hid.
  assert (Hloop : forall sanitized,
            foldl (sanitizeEntry (fst (getRelationInfo schema)) (snd (getRelationInfo schema))
                                 (getLinksFieldNames schema))
                  sanitized (before ++ (k, value) :: after)%list
            = foldl (sanitizeEntry (fst (getRelationInfo schema)) (snd (getRelationInfo schema))
                                   (getLinksFieldNames schema))
                    (<[relationKey relation := JStr id]>
                       (foldl (sanitizeEntry (fst (getRelationInfo schema))
                                             (snd (getRelationInfo schema))
                                             (getLinksFieldNames schema))
                              sanitized before))
                    after).
  { intros sanitized. rewrite foldl_app. cbn [foldl].
    now rewrite (sanitizeEntry_single schema _ k value relation id). }
  rewrite !sanitizePayload_object.
  split; [|split].
  - intros Hnotid Hafter.
    rewrite lookup_delete_ne by congruence.
    rewrite Hloop, sanitizeLoop_lookup_ne by exact Hafter.
    apply lookup_insert_eq.
  - intros Hka Hothers.
    destruct (decide (k = "id")) as [-> | Hnotid]; [apply lookup_delete_eq|].
    rewrite lookup_delete_ne by congruence.
    rewrite Hloop, sanitizeLoop_lookup_ne.
    + rewrite lookup_insert_ne by congruence.
      rewrite sanitizeLoop_lookup_ne; [apply lookup_empty|].
      intros entry He. apply Hothers, elem_of_app. now left.
    + intros entry He. apply Hothers, elem_of_app. now right.
  - intros Hnotid. cbn [foldl].
    rewrite (sanitizeEntry_single schema _ k value relation id) by assumption.
    rewrite delete_insert_ne by congruence.
    now rewrite delete_empty, insert_empty.
Qed.

End SanitizerProperties.

(** Sanitizing [{ company: { id: "X" } }] against a contract with the SINGLE
    relation [company] yields exactly [{ companyId: "X" }]. *)
Lemma sanitizePayload_company :
  sanitizePayload (JObj [("company", JObj [("id", JStr "X")])]) companyContract
  = {[ "companyId" := JStr "X" ]}.
Proof.
  refine (proj2 (proj2 (sanitizePayload_single_relation
                          companyContract
                          (relationMeta "company" "companyId" "MANY_TO_ONE")
                          "company" "companyId"
                          (JObj [("id", JStr "X")]) "X" [] []
                          eq_refl eq_refl eq_refl eq_refl
                          (SingleId_object_id [("id", JStr "X")] "X" eq_refl eq_refl)))
                _).
  discriminate.
Defined.

(** C4 as stated fails where the relation field's name already ends in
    "Id": the alias of the MANY_TO_ONE field [ownerId] is [ownerId], and the
    sanitized form of [{ ownerId: { id: "X" } }] holds the original key. *)
Lemma sanitizePayload_keeps_name_ending_in_Id :
  getRelationAlias (relationField "ownerId" "MANY_TO_ONE") = Some "ownerId"
  /\ fst (getRelationInfo ownerContract) !! "ownerId"
     = Some (relationMeta "ownerId" "ownerId" "MANY_TO_ONE")
  /\ sanitizePayload (JObj [("ownerId", JObj [("id", JStr "X")])]) ownerContract !! "ownerId"
     = Some (JStr "X").
Proof. repeat split; vm_compute; reflexivity. Qed.


(** ** MULTIPLE relations *)

Section MultipleProperties.
Context {N : Type} `{!JsNumber N}.

Lemma has_elem_of (tokens : list string) (s : string) :
  has tokens s = true <-> s ∈ tokens.
Proof.
  unfold has. rewrite existsb_exists. split.
  - intros (x & Hin & Heq). apply String.eqb_eq in Heq. subst x.
    now apply list_elem_of_In.
  - intros Hin. exists s. split; [now apply list_elem_of_In | apply String.eqb_refl].
Qed.

(** The set insertion loop keeps the seen ids distinct and adds every id. *)
Lemma uniqueIds_loop (ids seen : list string) :
  NoDup seen ->
  NoDup (foldl (fun seen id => if has seen id then seen else (seen ++ [id])%list) seen ids)
  /\ (forall id,
        id ∈ foldl (fun seen id => if has seen id then seen else (seen ++ [id])%list) seen ids
        <-> id ∈ seen \/ id ∈ ids).
Proof.
  revert seen. induction ids as [|x rest IH]; intros seen Hnodup; cbn [foldl].
  - split; [exact Hnodup|]. intros id. rewrite elem_of_nil. tauto.
  - destruct (has seen x) eqn:Hx.
    + destruct (IH seen Hnodup) as [Hnd Hmem]. split; [exact Hnd|].
      intros id. rewrite Hmem, elem_of_cons.
      apply has_elem_of in Hx. split; [tauto|].
      intros [H | [-> | H]]; auto.
    + assert (Hfresh : x ∉ seen).
      { intros Hin. apply has_elem_of in Hin. congruence. }
      assert (Hnodup' : NoDup (seen ++ [x])).
      { apply NoDup_app. repeat split; [exact Hnodup| |apply NoDup_singleton].
        intros y Hy Hy'. apply list_elem_of_singleton in Hy'. now subst y. }
      destruct (IH (seen ++ [x])%list Hnodup') as [Hnd Hmem]. split; [exact Hnd|].
      intros id. rewrite Hmem, elem_of_app, list_elem_of_singleton, elem_of_cons. tauto.
Qed.

Lemma uniqueIds_NoDup (ids : list string) : NoDup (uniqueIds ids).
Proof. apply uniqueIds_loop, NoDup_nil_2. Qed.

Lemma uniqueIds_elem_of (ids : list string) (id : string) :
  id ∈ uniqueIds ids <-> id ∈ ids.
Proof.
  unfold uniqueIds.
  rewrite (proj2 (uniqueIds_loop ids [] (NoDup_nil_2)) id), elem_of_nil. tauto.
Qed.

Lemma uniqueIds_nil (ids : list string) : uniqueIds ids = [] -> ids = [].
Proof.
  intros Hnil. destruct ids as [|x rest]; [reflexivity|].
  assert (Hx : x ∈ uniqueIds (x :: rest)) by (apply uniqueIds_elem_of; now left).
  rewrite Hnil in Hx. now apply elem_of_nil in Hx.
Qed.

Lemma nonEmpty_true (s : string) : Str.nonEmpty s = true <-> s <> "".
Proof. destruct s; cbn; split; congruence. Qed.

(** A candidate contributes the string the SINGLE rule gives it, if any. *)
Lemma collectId_Some (candidate : JsVal N) (id : string) :
  collectId candidate = Some id
  <-> id <> "" /\ extractSingleRelationId candidate = JStr id.
Proof.
  unfold collectId.
  destruct (extractSingleRelationId candidate) as [| |b|n|s|items|entries];
    try (split; [discriminate | intros [_ ?]; discriminate]).
  destruct (Str.nonEmpty s) eqn:Hs.
  - apply nonEmpty_true in Hs. split.
    + now intros [= <-].
    + now intros [_ [= <-]].
  - split; [discriminate|]. intros [Hne [= <-]].
    apply nonEmpty_true in Hne. congruence.
Qed.

Lemma collected_elem_of (candidates : list (JsVal N)) (id : string) :
  id ∈ omap collectId candidates
  <-> id <> "" /\ exists c, c ∈ candidates /\ extractSingleRelationId c = JStr id.
Proof.
  rewrite list_elem_of_omap. split.
  - intros (c & Hc & Hid). apply collectId_Some in Hid. destruct Hid. eauto.
  - intros (Hne & c & Hc & Hid). exists c. split; [exact Hc|].
    now apply collectId_Some.
Qed.

Lemma length_zero_nil {A : Type} (l : list A) : Nat.eqb (length l) 0 = true <-> l = [].
Proof. destruct l; cbn; split; congruence. Qed.

(** What [extractMultipleRelationIds] returns for a value with candidates. *)
Lemma extractMultipleRelationIds_Candidates (value : JsVal N) (candidates : list (JsVal N)) :
  Candidates value candidates ->
  (omap collectId candidates <> [] ->
   extractMultipleRelationIds value = Some (uniqueIds (omap collectId candidates)))
  /\ (omap collectId candidates = [] -> ~ ExplicitClear value ->
      extractMultipleRelationIds value = None).
Proof.
  intros Hc. unfold extractMultipleRelationIds.
  destruct Hc as [items | entries ids Hids | s | n | entries Hids Hid | entries Hids Hid
                  | b | | ];
    cbn -[omap collectId uniqueIds]; rewrite ?Hids; cbn -[omap collectId uniqueIds].
  - destruct (Nat.eqb (length (omap collectId items)) 0) eqn:E.
    + apply length_zero_nil in E. split; [congruence|].
      intros _ Hclear. destruct items; [|reflexivity].
      destruct Hclear. constructor.
    + split; [reflexivity|]. intros E'. rewrite E' in E. discriminate.
  - destruct (Nat.eqb (length (omap collectId ids)) 0) eqn:E.
    + apply length_zero_nil in E. split; [congruence|].
      intros _ Hclear. destruct ids; [|reflexivity].
      destruct Hclear. now constructor.
    + split; [reflexivity|]. intros E'. rewrite E' in E. discriminate.
  - destruct (Nat.eqb (length (omap collectId [JStr s])) 0) eqn:E.
    + apply length_zero_nil in E. split; [congruence|].
      intros _ _. destruct (Str.nonEmpty s); reflexivity.
    + split; [reflexivity|]. intros E'. rewrite E' in E. discriminate.
  - destruct (Nat.eqb (length (omap collectId [JNum n])) 0) eqn:E.
    + apply length_zero_nil in E. split; [congruence|].
      intros _ _. destruct (number_truthy n); reflexivity.
    + split; [reflexivity|]. intros E'. rewrite E' in E. discriminate.
  - assert (Hdefined : isUndefined (default JUndefined (entryOf "id" entries)) = false).
    { cbn [prop] in Hid. now destruct (default JUndefined (entryOf "id" entries)). }
    assert (Harray : isEmptyArray (default JUndefined (entryOf "ids" entries)) = false).
    { destruct (entryOf "ids" entries) as [[| | | | |ids|]|] eqn:E; try reflexivity.
      now destruct (Hids ids). }
    rewrite Harray.
    destruct (entryOf "ids" entries) as [[| | | | |ids|]|] eqn:E;
      try (now destruct (Hids ids));
      cbn [default from_option id]; rewrite Hdefined; cbn [negb];
      (destruct (Nat.eqb (length (omap collectId [default JUndefined (entryOf "id" entries)])) 0)
         eqn:E0;
       [apply length_zero_nil in E0; split; [congruence | reflexivity]
       |split; [reflexivity|]; intros E'; rewrite E' in E0; discriminate]).
  - cbn [prop] in Hid.
    assert (Harray : isEmptyArray (default JUndefined (entryOf "ids" entries)) = false).
    { destruct (entryOf "ids" entries) as [[| | | | |ids|]|] eqn:E; try reflexivity.
      now destruct (Hids ids). }
    rewrite Harray.
    destruct (entryOf "ids" entries) as [[| | | | |ids|]|] eqn:E;
      try (now destruct (Hids ids));
      cbn [default from_option id]; rewrite Hid; cbn; split; congruence.
  - split; [intros H; now destruct H | now destruct b].
  - split; [intros H; now destruct H | reflexivity].
  - split; [intros H; now destruct H|]. intros _ Hclear. destruct Hclear. constructor.
Qed.

Lemma isUndefined_spec (v : JsVal N) : {v = JUndefined} + {v <> JUndefined}.
Proof. destruct v; (now left) || (right; discriminate). Qed.

(** Every value has candidates. *)
Lemma Candidates_total (value : JsVal N) : exists candidates, Candidates value candidates.
Proof.
  assert (Hobject : forall entries : list (string * JsVal N),
             (forall ids, entryOf "ids" entries <> Some (JArr ids)) ->
             exists candidates, Candidates (JObj entries) candidates).
  { intros entries Hids.
    destruct (isUndefined_spec (prop (JObj entries) "id")) as [Hid | Hid].
    - exists []. now apply Candidates_no_id.
    - eexists. now apply Candidates_id. }
  destruct value as [| |b|n|s|items|entries]; try (eexists; constructor; fail).
  destruct (entryOf "ids" entries) as [ids|] eqn:Hids.
  - destruct ids as [| |b|n|s|ids|members];
      try (apply Hobject; intros ids' E; rewrite Hids in E; discriminate E).
    exists ids. now apply Candidates_ids.
  - apply Hobject. intros ids' E. rewrite Hids in E. discriminate E.
Qed.

Lemma extractMultipleRelationIds_ExplicitClear (value : JsVal N) :
  ExplicitClear value -> extractMultipleRelationIds value = Some [].
Proof.
  intros [| | entries Hids]; [reflexivity | reflexivity |].
  unfold extractMultipleRelationIds. cbn. now rewrite Hids.
Qed.

(** How the two relation normalizers and the sanitizer use the extracted
    ids of a relation that is not SINGLE. *)
Lemma normalize_multiple (relation : RelationMeta) (value : JsVal N) :
  getRelationCardinality (relRelationType relation) = Some multiple ->
  Str.nonEmpty (relationKey relation) = true ->
  (forall ids,
     extractMultipleRelationIds value = Some ids ->
     normalizeRelationValue value relation = {[relationKey relation := idArray ids]}
     /\ normalizeRelationAliasValue value relation = idArray ids)
  /\ (extractMultipleRelationIds value = None ->
      normalizeRelationValue value relation = ∅
      /\ normalizeRelationAliasValue value relation = JUndefined).
Proof.
  intros Hmultiple Hkey.
  unfold normalizeRelationValue, normalizeRelationAliasValue.
  fold (relationKey relation). rewrite Hkey, Hmultiple. cbn.
  split; [intros ids ->|intros ->]; split; reflexivity.
Qed.

(** C5. For a MULTIPLE relation emitted under the key [a] and for every
    value: null, the empty array and an object whose [ids] is the empty
    array normalize to the empty array under [a]; every value has
    candidates (the elements of an array or of an [ids] list, a bare string
    or number, the [id] member of an object without [ids] list, and none
    for any other value); the candidates are each converted by the SINGLE
    rule, those that give no string are dropped and duplicates are removed;
    and when no id results and the input is not an explicit clear, nothing
    is emitted: the sanitized payload of that entry is empty. *)
Theorem multiple_relation_normalization
        (relation : RelationMeta) (a : string) (value : JsVal N) :
  getRelationCardinality (relRelationType relation) = Some multiple ->
  relationKey relation = a ->
  Str.nonEmpty a = true ->
  (ExplicitClear value ->
   normalizeRelationValue value relation = {[a := JArr []]}
   /\ normalizeRelationAliasValue value relation = JArr [])
  /\ (exists candidates, Candidates value candidates)
  /\ (forall candidates,
        Candidates value candidates ->
        exists ids,
          NoDup ids
          /\ (forall id, id ∈ ids <->
                         id <> "" /\
                         exists c, c ∈ candidates /\ extractSingleRelationId c = JStr id)
          /\ (ids <> [] ->
              normalizeRelationValue value relation = {[a := JArr (map JStr ids)]}
              /\ normalizeRelationAliasValue value relation = JArr (map JStr ids))
          /\ (ids = [] -> ~ ExplicitClear value ->
              normalizeRelationValue value relation = ∅
              /\ normalizeRelationAliasValue value relation = JUndefined
              /\ forall (schema : Schema N) (k : string),
                   fst (getRelationInfo schema) !! k = Some relation
                   \/ (fst (getRelationInfo schema) !! k = None
                       /\ snd (getRelationInfo schema) !! k = Some relation) ->
                   sanitizePayload (JObj [(k, value)]) schema = ∅)).
Proof.
  intros Hmultiple <- Hkey.
  destruct (normalize_multiple relation value Hmultiple Hkey) as [Hsome Hnone].
  split; [|split].
  - intros Hclear. apply (Hsome []), extractMultipleRelationIds_ExplicitClear, Hclear.
  - apply Candidates_total.
  - intros candidates Hc.
    destruct (extractMultipleRelationIds_Candidates value candidates Hc) as [Hids Hempty].
    exists (uniqueIds (omap collectId candidates)).
    split; [apply uniqueIds_NoDup|]. split; [|split].
    + intros id. rewrite uniqueIds_elem_of. apply collected_elem_of.
    + intros Hne. apply Hsome, Hids. intros E. apply Hne. now rewrite E.
    + intros Hnil Hnotclear. apply uniqueIds_nil in Hnil.
      specialize (Hempty Hnil Hnotclear). destruct (Hnone Hempty) as [Hvalue Halias].
      split; [exact Hvalue|]. split; [exact Halias|].
      intros schema k Hk. rewrite sanitizePayload_object. cbn [foldl].
      unfold sanitizeEntry. cbn [fst snd].
      destruct (isUndefined value); [now rewrite delete_empty|].
      destruct Hk as [-> | [-> ->]].
      * rewrite Hvalue. now rewrite (left_id_L ∅ (∪)), delete_empty.
      * rewrite Halias. cbn. now rewrite delete_empty.
Qed.

End MultipleProperties.

(** The theorem at the ONE_TO_MANY relation [noteTargets] and the value
    [null]: an empty array under [noteTargetsIds]. *)
Lemma multiple_relation_clear :
  normalizeRelationValue (JNull : JsVal Num)
                         (relationMeta "noteTargets" "noteTargetsIds" "ONE_TO_MANY")
  = {[ "noteTargetsIds" := JArr [] ]}.
Proof.
  exact (proj1 (proj1 (multiple_relation_normalization
                         (relationMeta "noteTargets" "noteTargetsIds" "ONE_TO_MANY")
                         "noteTargetsIds" JNull eq_refl eq_refl eq_refl)
                      ExplicitClear_null)).
Defined.

(** Sanitizing [{ noteTargets: [{id:"a"}, "b", "a"] }] against a contract
    with the MULTIPLE relation [noteTargets]. *)
Example sanitizePayload_noteTargets :
  sanitizePayload (JObj [("noteTargets", JArr [JObj [("id", JStr "a")]; JStr "b"; JStr "a"])])
                  noteTargetsContract
  = {[ "noteTargetsIds" := JArr [JStr "a"; JStr "b"] ]}.
Proof. vm_compute. reflexivity. Qed.

(** ** The list-result normalizer *)

Section ResultProperties.
Context {N : Type} `{!JsNumber N}.

(** C3, amended. When no record array can be extracted from the response:
    a response that is not an object (a string, a number, a boolean, null,
    undefined) is returned itself; an object is returned inside a wrapper
    that has no [items] member and holds the response under [raw], preceded
    by [pagination] and [summary] members when pagination data is found. *)
Theorem buildListPayload_without_records (response : JsVal N) :
  extractRecords response = JUndefined ->
  match response with
  | JObj _ =>
      exists payload,
        buildListPayload response = JObj payload
        /\ entryOf "items" payload = None
        /\ entryOf "raw" payload = Some response
        /\ (truthy (extractPagination response) = false ->
            payload = [("raw", response)])
        /\ (truthy (extractPagination response) = true ->
            payload =
              [("pagination", extractPagination response);
               ("summary",
                JObj [("total", resolveTotalFromPagination (extractPagination response));
                      ("hasNextPage",
                       resolveHasNextFromPagination (extractPagination response))]);
               ("raw", response)])
  | _ => buildListPayload response = response
  end.
Proof.
  intros Hrecords.
  destruct response as [| |b|n|s|items|entries]; try reflexivity.
  - destruct b; reflexivity.
  - unfold buildListPayload, extractRecords, extractPagination. cbn.
    destruct (number_truthy n); reflexivity.
  - unfold buildListPayload, extractRecords, extractPagination. cbn.
    destruct (Str.nonEmpty s); reflexivity.
  - discriminate Hrecords.
  - unfold buildListPayload. rewrite Hrecords.
    destruct (truthy (extractPagination (JObj entries))) eqn:Hp.
    + eexists. split; [reflexivity|]. split; [reflexivity|]. split; [reflexivity|].
      split; [discriminate | reflexivity].
    + eexists. split; [reflexivity|]. split; [reflexivity|]. split; [reflexivity|].
      split; [reflexivity | discriminate].
Qed.

End ResultProperties.

(** The theorem at a response that is plain text: it is returned itself. *)
Lemma buildListPayload_text :
  buildListPayload (JStr "Service Unavailable" : JsVal Num) = JStr "Service Unavailable".
Proof.
  exact (buildListPayload_without_records (JStr "Service Unavailable") eq_refl).
Defined.

(** C3 as stated fails for an object: no record array can be extracted from
    the empty object, and it is returned wrapped as [{ raw: {} }]. *)
Lemma buildListPayload_wraps_object :
  extractRecords (JObj [] : JsVal Num) = JUndefined
  /\ buildListPayload (JObj [] : JsVal Num) = JObj [("raw", JObj [])]
  /\ buildListPayload (JObj [] : JsVal Num) <> JObj [].
Proof. split; [reflexivity | split; [reflexivity | discriminate]]. Qed.

(** ** Writable properties and operation descriptors *)

Section WritableProperties.
Context {N : Type} `{!JsNumber N}.

Lemma size_zero_empty (m : gmap string (JsVal N)) :
  Nat.eqb (size m) 0 = true <-> m = ∅.
Proof. rewrite Nat.eqb_eq. apply map_size_empty_iff. Qed.

Lemma buildWritableProperties_cases (schema : Schema N) :
  (writableProperties schema = ∅ -> buildWritableProperties schema = properties schema)
  /\ (writableProperties schema <> ∅ ->
      buildWritableProperties schema = writableProperties schema).
Proof.
  unfold buildWritableProperties. fold (writableProperties schema).
  destruct (Nat.eqb (size (writableProperties schema)) 0) eqn:E.
  - apply size_zero_empty in E. split; [reflexivity | congruence].
  - split; [|reflexivity]. intros Hempty. apply size_zero_empty in Hempty. congruence.
Qed.

(** C10. The writable-property projection of a contract with a non-empty
    property map is never empty: when leaving out the read-only names and
    the POSITION-typed fields leaves no property, the full property map is
    returned (otherwise what is left is returned), and then the create and
    the update descriptors expose every property of the contract, the
    system-managed ones included. *)
Theorem buildWritableProperties_never_empty (schema : Schema N) :
  (properties schema <> ∅ -> buildWritableProperties schema <> ∅)
  /\ (writableProperties schema = ∅ ->
      buildWritableProperties schema = properties schema
      /\ forall tool,
           tool ∈ objectTools schema ->
           toolName tool = "create_" +:+ nameSingular schema
           \/ toolName tool = "update_" +:+ nameSingular schema ->
           forall name definition,
             properties schema !! name = Some definition ->
             toolProperties tool !! name = Some definition)
  /\ (writableProperties schema <> ∅ ->
      buildWritableProperties schema = writableProperties schema).
Proof.
  destruct (buildWritableProperties_cases schema) as [Hall Hsome].
  split; [|split].
  - intros Hne. destruct (decide (writableProperties schema = ∅)) as [E | E].
    + now rewrite (Hall E).
    + now rewrite (Hsome E).
  - intros E. split; [exact (Hall E)|].
    intros tool Htool Hname name definition Hprop.
    unfold objectTools in Htool. rewrite (Hall E) in Htool.
    repeat (apply elem_of_cons in Htool; destruct Htool as [-> | Htool]);
      [| | | | | now apply elem_of_nil in Htool]; cbn in Hname |- *.
    + exact Hprop.
    + destruct Hname; discriminate.
    + apply lookup_union_Some_raw. now left.
    + destruct Hname; discriminate.
    + destruct Hname; discriminate.
  - exact Hsome.
Qed.

End WritableProperties.

Lemma timestampsContract_properties : properties timestampsContract <> ∅.
Proof.
  intros E. apply (f_equal (fun m => m !! "createdAt")) in E.
  vm_compute in E. discriminate E.
Defined.

(** The theorem at a contract whose only properties are [createdAt] and
    [position]: the projection is not empty. *)
Lemma buildWritableProperties_timestamps :
  buildWritableProperties timestampsContract <> ∅.
Proof.
  exact (proj1 (buildWritableProperties_never_empty timestampsContract)
               timestampsContract_properties).
Defined.

(** For that contract the projection is the whole property map. *)
Example buildWritableProperties_timestamps_all :
  buildWritableProperties timestampsContract = properties timestampsContract.
Proof. vm_compute. reflexivity. Qed.

(** ** The schema compiler *)

Section CompilerProperties.
Context {N : Type} `{!JsNumber N}.

(** C2, on the code. Whatever its other members, a field of type LINKS is
    compiled to an object type whose sub-properties are [primary] (string),
    [secondary] (string) and [additional] (array of string), further keys
    being allowed; none of them is primaryLinkUrl, primaryLinkLabel or
    secondaryLinks. *)
Theorem buildFieldProperty_links_shape
        (name : string) (active system : bool) (nullable : option bool)
        (defaultValue : JsVal N) (label descr : option string)
        (options : option (list (FieldOption N))) (relation : option FieldRelation) :
  let property :=
    buildFieldProperty
      {| fieldName := name;
         fieldType := "LINKS";
         fieldIsActive := active;
         fieldIsSystem := system;
         fieldIsNullable := nullable;
         fieldDefaultValue := defaultValue;
         fieldLabel := label;
         fieldDescription := descr;
         fieldOptions := options;
         fieldRelation := relation |} in
  prop property "type" = JStr "object"
  /\ prop property "properties" =
       JObj [("primary", JObj [("type", JStr "string"); ("description", JStr "Primary link")]);
             ("secondary", JObj [("type", JStr "string"); ("description", JStr "Secondary link")]);
             ("additional",
              JObj [("type", JStr "array");
                    ("items", JObj [("type", JStr "string")]);
                    ("description", JStr "Additional URLs")])]
  /\ prop property "additionalProperties" = JBool true
  /\ hasKey "primaryLinkUrl" (prop property "properties") = false
  /\ hasKey "primaryLinkLabel" (prop property "properties") = false
  /\ hasKey "secondaryLinks" (prop property "properties") = false.
Proof.
  unfold buildFieldProperty. cbn.
  destruct options as [options|];
    destruct (isUndefined (normalizeDefaultValue defaultValue));
    repeat split; reflexivity.
Qed.

(** The fields [getObjectFields] returns are active, not system fields,
    and a RELATION field among them is MANY_TO_ONE or ONE_TO_ONE. *)
Lemma getObjectFields_selected (metadata : Metadata N) (name : string) (field : Field N) :
  field ∈ getObjectFields metadata name ->
  fieldIsActive field = true
  /\ fieldIsSystem field = false
  /\ (fieldType field = "RELATION" ->
      exists rel, fieldRelation field = Some rel
                  /\ (relationType rel = Some "MANY_TO_ONE"
                      \/ relationType rel = Some "ONE_TO_ONE")).
Proof.
  unfold getObjectFields.
  destruct (getObjectByName metadata name) as [object|];
    [|intros H; now apply elem_of_nil in H].
  intros Hin. apply list_elem_of_In, filter_In in Hin. destruct Hin as [_ Hsel].
  unfold fieldSelected in Hsel.
  destruct (fieldIsActive field); [|discriminate].
  destruct (fieldIsSystem field); [discriminate|].
  split; [reflexivity|]. split; [reflexivity|].
  intros Htype. rewrite Htype in Hsel. cbn in Hsel.
  destruct (fieldRelation field) as [rel|]; [|discriminate].
  exists rel. split; [reflexivity|].
  apply orb_true_iff in Hsel. unfold isType in Hsel.
  destruct (relationType rel) as [t|]; [|destruct Hsel; discriminate].
  destruct Hsel as [H | H]; apply String.eqb_eq in H; subst t; auto.
Qed.

(** Compilation does not abort: every object that is found has a contract. *)
Lemma generateToolSchema_total (metadata : Metadata N) (name : string) :
  is_Some (generateToolSchema metadata name) <-> is_Some (getObjectByName metadata name).
Proof.
  unfold generateToolSchema.
  destruct (getObjectByName metadata name); split; intros H; eauto;
    now apply is_Some_None in H.
Qed.

End CompilerProperties.

(** C1, on the code. For every schema export and object name, a RELATION
    field returned by [getObjectFields] is MANY_TO_ONE or ONE_TO_ONE; and
    for the export whose object [people] has the active, non-system fields
    [city] (text), [company] (MANY_TO_ONE), [noteTargets] (ONE_TO_MANY) and
    [favorites] (unknown relation type), the contract is built and lists
    [city] and [company] only: the ONE_TO_MANY field is left out like the
    unrecognized one. *)
Theorem generateToolSchema_omits_multiple_relations :
  (forall (metadata : Metadata Num) (name : string),
     forallb (fun field =>
                implb (fieldType field =? "RELATION")
                      (isSingleType (match fieldRelation field with
                                     | Some rel => relationType rel
                                     | None => None
                                     end)))
             (getObjectFields metadata name) = true)
  /\ exists schema,
       generateToolSchema peopleMetadata "people" = Some schema
       /\ map fieldName (fieldMetadata schema) = ["city"; "company"]
       /\ map relName (relationMetadata schema) = ["company"]
       /\ dom (properties schema) = ({[ "city"; "company"; "companyId" ]} : gset string).
Proof.
  split.
  - intros metadata name. apply forallb_forall. intros field Hin.
    apply list_elem_of_In, getObjectFields_selected in Hin.
    destruct Hin as (_ & _ & Hrel).
    destruct (fieldType field =? "RELATION") eqn:Htype; [|reflexivity].
    apply String.eqb_eq in Htype. destruct (Hrel Htype) as (rel & -> & [-> | ->]);
      reflexivity.
  - eexists. split; [reflexivity|].
    split; [reflexivity|]. split; [reflexivity|].
    vm_compute. reflexivity.
Qed.

(** ** The composite note-linking operation *)

Section CompositeProperties.
Context {N : Type} `{!JsNumber N}.

(** The registry built without a schema export holds the five core
    contracts; the join contract [noteTargets] is not among them. *)
Lemma fallback_registry_keys :
  dom (objectSchemas (rebuildRegistry (N := N) None))
  = ({[ "people"; "companies"; "notes"; "tasks"; "opportunities" ]} : gset string).
Proof. vm_compute. reflexivity. Qed.

Lemma fallback_registry_notes :
  objectSchemas (rebuildRegistry (N := N) None) !! "notes" = Some (fallbackSchema "notes").
Proof. vm_compute. reflexivity. Qed.

Lemma fallback_registry_notetargets :
  objectSchemas (rebuildRegistry (N := N) None) !! "notetargets" = None.
Proof. vm_compute. reflexivity. Qed.

(** Without the join contract the operation throws after at most one
    request, the creation of the note. *)
Lemma createNoteForPerson_without_join_contract
      (reg : Registry N) (params : JsVal N) (backend : Backend N) :
  objectSchemas reg !! "notetargets" = None ->
  (exists msg, fst (createNoteForPerson reg params backend []) = Throw msg)
  /\ (snd (createNoteForPerson reg params backend []) = []
      \/ exists data,
           snd (createNoteForPerson reg params backend [])
           = [{| endpoint := "/rest/notes"; method := "POST"; body := data |}]).
Proof.
  intros Hjoin. unfold createNoteForPerson.
  destruct (negb (truthy (prop params "personId"))); [cbn; eauto|].
  destruct (negb (truthy (prop params "note")) || negb (typeof (prop params "note") =? "object"));
    [cbn; eauto|].
  destruct (objectSchemas reg !! "notes") as [noteSchema|]; [|cbn; eauto].
  destruct (Nat.eqb (size (sanitizePayload (prop params "note") noteSchema)) 0);
    [cbn; eauto|].
  unfold mbind, op_bind, bind, makeRequest. cbn [app].
  destruct (backend _) as [noteResponse | msg]; [|cbn; eauto].
  destruct (extractResourceId noteResponse) as [noteId|]; [|cbn; eauto].
  destruct (negb (Str.nonEmpty noteId)); [cbn; eauto|].
  rewrite Hjoin. cbn. eauto.
Qed.

(** The deduplication key is the request's [key:value] pairs, sorted by key
    and joined with a bar. *)
Lemma requestKey_person (noteId : string) (personId : JsVal N) :
  requestKey [("noteId", JStr noteId); ("personId", personId)]
  = "noteId:" +:+ noteId +:+ "|personId:" +:+ toString personId.
Proof. reflexivity. Qed.

Lemma requestKey_company (noteId : string) (companyId : JsVal N) :
  requestKey [("noteId", JStr noteId); ("companyId", companyId)]
  = "companyId:" +:+ toString companyId +:+ "|noteId:" +:+ noteId.
Proof. reflexivity. Qed.

(** With a person, a company and no further targets, two link requests are
    built, the person's first. *)
Lemma buildNoteTargetRequests_person_company
      (noteId : string) (personId companyId targets : JsVal N) :
  truthy companyId = true ->
  isArray targets = false ->
  buildNoteTargetRequests noteId personId companyId targets
  = [[("noteId", JStr noteId); ("personId", personId)];
     [("noteId", JStr noteId); ("companyId", companyId)]].
Proof.
  intros Hcompany Htargets. unfold buildNoteTargetRequests. rewrite Hcompany.
  assert (Hfirst : addRequest [("noteId", JStr noteId); ("personId", personId)] ([], ∅)
                   = ([[("noteId", JStr noteId); ("personId", personId)]],
                      {[requestKey [("noteId", JStr noteId); ("personId", personId)]]} ∪ ∅)).
  { unfold addRequest. cbn [fst snd].
    rewrite bool_decide_eq_false_2 by set_solver.
    now rewrite requestKey_person. }
  rewrite Hfirst.
  assert (Hsecond :
            fst (addRequest [("noteId", JStr noteId); ("companyId", companyId)]
                   ([[("noteId", JStr noteId); ("personId", personId)]],
                    {[requestKey [("noteId", JStr noteId); ("personId", personId)]]} ∪ ∅))
            = [[("noteId", JStr noteId); ("personId", personId)];
               [("noteId", JStr noteId); ("companyId", companyId)]]).
  { unfold addRequest. cbn [fst snd].
    rewrite bool_decide_eq_false_2.
    - now rewrite requestKey_company.
    - rewrite requestKey_company, requestKey_person.
      rewrite elem_of_union, elem_of_singleton, elem_of_empty.
      intros [H | []]. cbn in H. discriminate H. }
  destruct targets; try exact Hsecond. discriminate Htargets.
Qed.

(** X1. The composite operation on a registry that holds both contracts,
    neither of which emits a relation under [__proto__], for arguments
    without a member [toString] or [__proto__] that have a person, a
    company and no further targets: when the backend answers the note
    creation with a response that carries an identifier and answers the
    first link, both answers without a member [toString], the requests
    submitted are the note creation, then the sanitized link [{ noteId,
    personId }], then the sanitized link [{ noteId, companyId }]. *)
Lemma createNoteForPerson_submissions
      (reg : Registry N) (noteSchema targetSchema : Schema N)
      (params personId companyId note noteResponse linkResponse : JsVal N)
      (noteId : string) (backend : Backend N) :
  objectSchemas reg !! "notes" = Some noteSchema ->
  objectSchemas reg !! "notetargets" = Some targetSchema ->
  ordinaryContract noteSchema -> ordinaryContract targetSchema ->
  plain params = true -> plain noteResponse = true -> plain linkResponse = true ->
  prop params "personId" = personId -> truthy personId = true ->
  prop params "companyId" = companyId -> truthy companyId = true ->
  prop params "note" = note -> truthy note = true -> typeof note = "object" ->
  isArray (prop params "targets") = false ->
  sanitizePayload note noteSchema <> ∅ ->
  let noteRequest :=
    {| endpoint := "/rest/notes"; method := "POST";
       body := sanitizePayload note noteSchema |} in
  let personLink :=
    {| endpoint := "/rest/noteTargets"; method := "POST";
       body := sanitizePayload (JObj [("noteId", JStr noteId); ("personId", personId)])
                               targetSchema |} in
  let companyLink :=
    {| endpoint := "/rest/noteTargets"; method := "POST";
       body := sanitizePayload (JObj [("noteId", JStr noteId); ("companyId", companyId)])
                               targetSchema |} in
  backend [noteRequest] = Ok noteResponse ->
  extractResourceId noteResponse = Some noteId ->
  Str.nonEmpty noteId = true ->
  backend [noteRequest; personLink] = Ok linkResponse ->
  snd (createNoteForPerson reg params backend []) = [noteRequest; personLink; companyLink].
Proof.
  intros Hnotes Hjoin _ _ _ _ _ Hperson Hptruthy Hcompany Hctruthy Hnote Hntruthy Hntype Htargets
         Hfields noteRequest personLink companyLink Hanswer Hid Hidne Hlink.
  subst noteRequest personLink companyLink.
  unfold createNoteForPerson.
  rewrite Hperson, Hptruthy, Hcompany, Hnote, Hntruthy, Hntype, Hnotes, String.eqb_refl.
  cbn [negb orb].
  assert (Hsize : Nat.eqb (size (sanitizePayload note noteSchema)) 0 = false).
  { apply Nat.eqb_neq. intros E. now apply map_size_empty_iff in E. }
  rewrite Hsize.
  unfold mbind, op_bind, bind, makeRequest. cbn [app].
  rewrite Hanswer, Hid, Hidne, Hjoin. cbn [negb].
  rewrite (buildNoteTargetRequests_person_company noteId personId companyId _ Hctruthy Htargets).
  cbn [length Nat.eqb forEachAwait].
  unfold mbind, op_bind, bind, makeRequest, mret, op_ret, ret. cbn [app].
  rewrite Hlink. cbn [app].
  destruct (backend [_; _; _]); reflexivity.
Qed.

(** Registering a contract changes the registry at its lower-cased plural
    name only. *)
Lemma registerObjectSchema_lookup_ne (schema : Schema N) (reg : Registry N) (key : string) :
  Str.toLowerCase (namePlural schema) <> key ->
  objectSchemas (registerObjectSchema schema reg) !! key = objectSchemas reg !! key.
Proof.
  intros Hne. unfold registerObjectSchema.
  destruct (_ || _); [reflexivity|].
  destruct (bool_decide _); [reflexivity|].
  cbn. now apply lookup_insert_ne.
Qed.

Lemma getObjectByName_Some (metadata : Metadata N) (name : string) (object : MetaObject N) :
  getObjectByName metadata name = Some object ->
  exists objects,
    metadata = Some objects /\ object ∈ objects
    /\ (Str.toLowerCase (objNamePlural object) = Str.toLowerCase name
        \/ Str.toLowerCase (objNameSingular object) = Str.toLowerCase name).
Proof.
  unfold getObjectByName. destruct metadata as [objects|]; [|discriminate].
  destruct (negb (Str.nonEmpty name)); [discriminate|].
  intros Hfind. apply find_some in Hfind. destruct Hfind as [Hin Htest].
  exists objects. split; [reflexivity|]. split; [now apply list_elem_of_In|].
  apply andb_true_iff in Htest. destruct Htest as [_ Htest].
  apply orb_true_iff in Htest.
  destruct Htest as [H | H]; apply String.eqb_eq in H; auto.
Qed.

Lemma buildObjectRegistry_join (metadata : Metadata N) (names : list string)
      (reg : Registry N) :
  joinNotShadowed metadata ->
  (forall name, name ∈ names -> name ∈ getCoreObjects) ->
  objectSchemas reg !! "notetargets" = None ->
  objectSchemas
    (foldl (fun reg namePlural =>
              match generateToolSchema metadata namePlural with
              | None => reg
              | Some schema => registerObjectSchema schema reg
              end) reg names) !! "notetargets" = None.
Proof.
  intros Hsane. revert reg.
  induction names as [|name rest IH]; intros reg Hcore Hreg; [exact Hreg|].
  cbn [foldl]. apply IH; [intros n Hn; apply Hcore; now right|].
  unfold generateToolSchema.
  destruct (getObjectByName metadata name) as [object|] eqn:Hfind; [|exact Hreg].
  rewrite registerObjectSchema_lookup_ne; [exact Hreg|]. cbn [namePlural].
  intros Hplural.
  destruct (getObjectByName_Some _ _ _ Hfind) as (objects & -> & Hin & Hname).
  assert (Hname_core : name ∈ getCoreObjects) by (apply Hcore; now left).
  assert (Hlower : Str.toLowerCase name = name /\ name <> "notetargets").
  { unfold getCoreObjects in Hname_core.
    repeat (apply elem_of_cons in Hname_core; destruct Hname_core as [-> | Hname_core]);
      [split; [reflexivity | discriminate].. | now apply elem_of_nil in Hname_core]. }
  destruct Hlower as [Hlower Hnot]. rewrite Hlower in Hname.
  destruct Hname as [Hp | Hs]; [congruence|].
  apply (Hsane objects object eq_refl Hin Hplural). now rewrite Hs.
Qed.

Lemma buildFallbackRegistry_join (reg : Registry N) :
  objectSchemas reg !! "notetargets" = None ->
  objectSchemas (buildFallbackRegistry reg) !! "notetargets" = None.
Proof.
  intros Hreg. unfold buildFallbackRegistry, getCoreObjects. cbn [foldl].
  now rewrite !registerObjectSchema_lookup_ne by discriminate.
Qed.

(** Whatever export is loaded, as long as it does not shadow the join
    object, the rebuilt registry has no join contract. *)
Lemma rebuildRegistry_has_no_join_contract (metadata : Metadata N) :
  joinNotShadowed metadata ->
  objectSchemas (rebuildRegistry metadata) !! "notetargets" = None.
Proof.
  intros Hsane. unfold rebuildRegistry.
  destruct metadata as [objects|]; [|now apply buildFallbackRegistry_join].
  assert (Hbuilt : objectSchemas (buildObjectRegistry (Some objects) emptyRegistry)
                   !! "notetargets" = None).
  { unfold buildObjectRegistry. apply buildObjectRegistry_join; auto. }
  destruct (Nat.eqb _ 0); [now apply buildFallbackRegistry_join | exact Hbuilt].
Qed.

End CompositeProperties.

(** C9, on the code. A server started without a schema export registers the
    five core contracts only, so for all arguments and every backend the
    composite operation throws and submits at most the note creation, never
    a link request; for [{ personId: "p1", companyId: "c1", note: { title:
    "T" } }] and a backend that answers [{ data: { id: "n1" } }] it submits
    the note and throws "noteTargets schema unavailable". *)
Theorem createNoteForPerson_fallback_submits_no_link :
  (forall (params : JsVal Num) (backend : Backend Num),
     (exists msg,
        fst (createNoteForPerson (rebuildRegistry None) params backend []) = Throw msg)
     /\ Forall (fun request => endpoint request = "/rest/notes")
               (snd (createNoteForPerson (rebuildRegistry None) params backend []))
     /\ length (snd (createNoteForPerson (rebuildRegistry None) params backend [])) <= 1)
  /\ createNoteForPerson (rebuildRegistry None) noteParams answeringBackend []
     = (Throw "noteTargets schema unavailable; cannot create note links",
        [{| endpoint := "/rest/notes"; method := "POST";
            body := {[ "title" := JStr "T" ]} |}]).
Proof.
  split.
  - intros params backend.
    destruct (createNoteForPerson_without_join_contract
                (rebuildRegistry None) params backend fallback_registry_notetargets)
      as [Hthrow [Hlog | [data Hlog]]]; rewrite Hlog.
    + split; [exact Hthrow|]. split; [constructor | cbn; lia].
    + split; [exact Hthrow|]. split; [repeat constructor | cbn; lia].
  - vm_compute. reflexivity.
Qed.

(** Only on a registry that holds the join contract does the operation
    submit the note and then the two links, the person's first. *)
Example createNoteForPerson_with_join_contract :
  snd (createNoteForPerson registryWithJoin noteParams answeringBackend [])
  = [{| endpoint := "/rest/notes"; method := "POST";
        body := {[ "title" := JStr "T" ]} |};
     {| endpoint := "/rest/noteTargets"; method := "POST";
        body := <["noteId" := JStr "n1"]> {[ "personId" := JStr "p1" ]} |};
     {| endpoint := "/rest/noteTargets"; method := "POST";
        body := <["noteId" := JStr "n1"]> {[ "companyId" := JStr "c1" ]} |}].
Proof. vm_compute. reflexivity. Qed.

Lemma noteParams_note_fields :
  sanitizePayload (JObj [("title", JStr "T")] : JsVal Num) (fallbackSchema "notes") <> ∅.
Proof.
  intros E. apply (f_equal (fun m => m !! "title")) in E.
  vm_compute in E. discriminate E.
Defined.

(** [createNoteForPerson_submissions] at the registry with the join
    contract, the arguments [{ personId: "p1", companyId: "c1", note: {
    title: "T" } }] and the answering backend. *)
Lemma createNoteForPerson_submissions_example :
  snd (createNoteForPerson registryWithJoin noteParams answeringBackend [])
  = [{| endpoint := "/rest/notes"; method := "POST";
        body := sanitizePayload (JObj [("title", JStr "T")]) (fallbackSchema "notes") |};
     {| endpoint := "/rest/noteTargets"; method := "POST";
        body := sanitizePayload (JObj [("noteId", JStr "n1"); ("personId", JStr "p1")])
                                (fallbackSchema "noteTargets") |};
     {| endpoint := "/rest/noteTargets"; method := "POST";
        body := sanitizePayload (JObj [("noteId", JStr "n1"); ("companyId", JStr "c1")])
                                (fallbackSchema "noteTargets") |}].
Proof.
  refine (createNoteForPerson_submissions
            registryWithJoin (fallbackSchema "notes") (fallbackSchema "noteTargets")
            noteParams (JStr "p1") (JStr "c1") (JObj [("title", JStr "T")])
            (JObj [("data", JObj [("id", JStr "n1")])])
            (JObj [("data", JObj [("id", JStr "n1")])])
            "n1" answeringBackend
            _ _ _ _ eq_refl eq_refl eq_refl
            eq_refl eq_refl eq_refl eq_refl eq_refl eq_refl eq_refl eq_refl
            noteParams_note_fields eq_refl eq_refl eq_refl eq_refl);
    vm_compute.
  - reflexivity.
  - reflexivity.
  - repeat (apply List.Forall_cons; [intros H; vm_compute in H; discriminate H|]).
    apply List.Forall_nil.
  - repeat (apply List.Forall_cons; [intros H; vm_compute in H; discriminate H|]).
    apply List.Forall_nil.
Defined.

Lemma peopleMetadata_joinNotShadowed : joinNotShadowed peopleMetadata.
Proof.
  intros objects object [= <-] Hin Hplural.
  apply list_elem_of_singleton in Hin. subst object. discriminate Hplural.
Defined.

(** [rebuildRegistry_has_no_join_contract] at the export [peopleMetadata]. *)
Lemma rebuildRegistry_people_has_no_join_contract :
  objectSchemas (rebuildRegistry peopleMetadata) !! "notetargets" = None.
Proof.
  exact (rebuildRegistry_has_no_join_contract peopleMetadata peopleMetadata_joinNotShadowed).
Defined.

(** * Further properties *)

(** ** Default values *)

Section DefaultProperties.
Context {N : Type} `{!JsNumber N}.

(** Induction over a value, its array elements and its entry values. *)
Lemma JsVal_nested_ind (P : JsVal N -> Prop) :
  P JUndefined -> P JNull -> (forall b, P (JBool b)) -> (forall n, P (JNum n)) ->
  (forall s, P (JStr s)) ->
  (forall items, Forall P items -> P (JArr items)) ->
  (forall entries, Forall (fun entry => P (snd entry)) entries -> P (JObj entries)) ->
  forall v, P v.
Proof.
  intros Hundef Hnull Hbool Hnum Hstr Harr Hobj.
  refine (fix go (v : JsVal N) : P v :=
            match v with
            | JUndefined => Hundef
            | JNull => Hnull
            | JBool b => Hbool b
            | JNum n => Hnum n
            | JStr s => Hstr s
            | JArr items =>
                Harr items
                     ((fix all (l : list (JsVal N)) : Forall P l :=
                         match l with
                         | [] => @List.Forall_nil _ P
                         | x :: rest => @List.Forall_cons _ P x rest (go x) (all rest)
                         end) items)
            | JObj entries =>
                Hobj entries
                     ((fix all (l : list (string * JsVal N))
                         : Forall (fun entry => P (snd entry)) l :=
                         match l with
                         | [] => @List.Forall_nil _ _
                         | (k, x) :: rest =>
                             @List.Forall_cons _ (fun entry => P (snd entry)) (k, x) rest
                                              (go x) (all rest)
                         end) entries)
            end).
Qed.

Lemma StaticDefault_defined (v : JsVal N) : StaticDefault v -> isUndefined v = false.
Proof. now intros []. Qed.

(** What [normalizeDefaultValue] gives is [undefined] or a static
    default. *)
Lemma normalizeDefaultValue_cases (value : JsVal N) :
  normalizeDefaultValue value = JUndefined
  \/ StaticDefault (normalizeDefaultValue value).
Proof.
  induction value as [| |b|n|s|items IH|entries IH] using JsVal_nested_ind.
  - now left.
  - now left.
  - right. constructor.
  - right. constructor.
  - cbn [normalizeDefaultValue].
    destruct (has EMPTY_STRING_TOKENS (Str.trim s)).
    + right. now constructor.
    + destruct (has AUTO_DEFAULT_TOKENS _) eqn:Hauto; [now left|].
      right. now constructor.
  - cbn [normalizeDefaultValue].
    assert (Hall : Forall StaticDefault
                     (List.filter (fun item => negb (isUndefined item))
                                  (map normalizeDefaultValue items))).
    { induction IH as [|x rest Hx _ IHrest]; cbn; [constructor|].
      destruct Hx as [-> | Hx]; cbn; [exact IHrest|].
      rewrite (StaticDefault_defined _ Hx). cbn. now constructor. }
    destruct (List.filter _ _) as [|x rest] eqn:E; [now left|].
    right. constructor; [discriminate | exact Hall].
  - cbn [normalizeDefaultValue].
    set (each := fix each (es : list (string * JsVal N)) : list (string * JsVal N) :=
                   match es with
                   | [] => []
                   | (key, val) :: rest =>
                       if isUndefined (normalizeDefaultValue val) then each rest
                       else if key =? "__proto__" then each rest
                       else (key, normalizeDefaultValue val) :: each rest
                   end).
    assert (Hall : Forall (fun entry => StaticDefault (snd entry)) (each entries)).
    { induction IH as [|[key val] rest Hx _ IHrest]; cbn; [constructor|].
      cbn in Hx. destruct Hx as [-> | Hx]; cbn; [exact IHrest|].
      rewrite (StaticDefault_defined _ Hx).
      destruct (key =? "__proto__"); [exact IHrest | now constructor]. }
    destruct (each entries) as [|x rest] eqn:E; [now left|].
    right. constructor; [discriminate | exact Hall].
Qed.

(** X3. [normalizeDefaultValue] gives [undefined] or a value that can
    surface as a static default: at no depth does the result hold [null],
    [undefined], an empty array, an empty object or a string that is an
    auto-generated token ([now], [uuid], ...) in any letter case. *)
Theorem normalizeDefaultValue_static (value : JsVal N) :
  normalizeDefaultValue value = JUndefined
  \/ StaticDefault (normalizeDefaultValue value).
Proof. apply normalizeDefaultValue_cases. Qed.

Lemma entryOf_map_set (key key' : string) (val : JsVal N)
      (entries : list (string * JsVal N)) :
  key <> key' ->
  entryOf key' (map (fun e => if String.eqb (fst e) key then (fst e, val) else e) entries)
  = entryOf key' entries.
Proof.
  intros Hne. induction entries as [|[k v] rest IH]; [reflexivity|].
  cbn. destruct (String.eqb_spec k key) as [-> | Hk]; cbn.
  - destruct (String.eqb_spec key key'); [congruence | exact IH].
  - destruct (k =? key'); [reflexivity | exact IH].
Qed.

Lemma entryOf_app (key : string) (entries more : list (string * JsVal N)) :
  entryOf key (entries ++ more)%list
  = match entryOf key entries with
    | Some v => Some v
    | None => entryOf key more
    end.
Proof.
  induction entries as [|[k v] rest IH]; [reflexivity|].
  cbn. destruct (k =? key); [reflexivity | exact IH].
Qed.

(** Assigning a property leaves the other properties as they are. *)
Lemma entryOf_setProp_ne (key key' : string) (val : JsVal N)
      (entries : list (string * JsVal N)) :
  key <> key' -> entryOf key' (setProp key val entries) = entryOf key' entries.
Proof.
  intros Hne. unfold setProp. destruct (bool_decide _).
  - now apply entryOf_map_set.
  - rewrite entryOf_app. destruct (entryOf key' entries); [reflexivity|].
    cbn. destruct (String.eqb_spec key key'); [congruence | reflexivity].
Qed.

Lemma entryOf_map_set_eq (key : string) (val : JsVal N)
      (entries : list (string * JsVal N)) :
  is_Some (entryOf key entries) ->
  entryOf key (map (fun e => if String.eqb (fst e) key then (fst e, val) else e) entries)
  = Some val.
Proof.
  induction entries as [|[k v] rest IH]; cbn.
  - intros H. now apply is_Some_None in H.
  - destruct (String.eqb_spec k key) as [-> | Hk]; cbn.
    + now rewrite String.eqb_refl.
    + intros H. destruct (String.eqb_spec k key); [congruence | now apply IH].
Qed.

(** Reading a property that was just assigned gives the assigned value. *)
Lemma entryOf_setProp_eq (key : string) (val : JsVal N)
      (entries : list (string * JsVal N)) :
  entryOf key (setProp key val entries) = Some val.
Proof.
  unfold setProp. destruct (bool_decide_reflect (is_Some (entryOf key entries))) as [H | H].
  - now apply entryOf_map_set_eq.
  - rewrite entryOf_app. destruct (entryOf key entries) eqn:E.
    + destruct H. eauto.
    + cbn. now rewrite String.eqb_refl.
Qed.

Lemma fieldTypeCase_default (field : Field N) (property : list (string * JsVal N)) :
  entryOf "default" (fieldTypeCase field property) = entryOf "default" property.
Proof.
  unfold fieldTypeCase.
  repeat match goal with
         | |- context [if ?b then _ else _] => destruct b
         | |- context [match fieldRelation field with _ => _ end] =>
             destruct (fieldRelation field)
         end;
    rewrite ?entryOf_setProp_ne by discriminate; reflexivity.
Qed.

(** X4. The compiled property of a field carries a [default] member exactly
    when [normalizeDefaultValue] gives a value for the field's default, and
    then it is that value: an auto-generated token ([now], [uuid], ...) in
    any letter case or quoting yields no [default], and what surfaces
    holds no auto-generated token, [null] or empty container. *)
Theorem buildFieldProperty_default (field : Field N) :
  prop (buildFieldProperty field) "default" = normalizeDefaultValue (fieldDefaultValue field)
  /\ hasKey "default" (buildFieldProperty field)
     = negb (isUndefined (normalizeDefaultValue (fieldDefaultValue field)))
  /\ (hasKey "default" (buildFieldProperty field) = false
      \/ StaticDefault (prop (buildFieldProperty field) "default")).
Proof.
  assert (Hentry :
            forall property, buildFieldProperty field = JObj property ->
            entryOf "default" property
            = if isUndefined (normalizeDefaultValue (fieldDefaultValue field))
              then None else Some (normalizeDefaultValue (fieldDefaultValue field))).
  { intros property. unfold buildFieldProperty.
    set (base := fieldTypeCase field _).
    assert (Hbase : entryOf "default" base = None)
      by (unfold base; now rewrite fieldTypeCase_default).
    set (withEnum := match fieldOptions field with Some _ => _ | None => _ end).
    assert (Henum : entryOf "default" withEnum = None).
    { unfold withEnum. destruct (fieldOptions field) as [options|]; [|exact Hbase].
      destruct (prop (JObj base) "type") as [| |b|n|s|items|entries];
        rewrite ?entryOf_setProp_ne by discriminate; try exact Hbase.
      destruct (s =? "array") eqn:Hs.
      - apply String.eqb_eq in Hs. subst s.
        destruct (prop (JObj base) "items");
          rewrite ?entryOf_setProp_ne by discriminate; exact Hbase.
      - assert (Hother : forall A (x y : A),
                  match s with "array" => x | _ => y end = y).
        { intros A x y. destruct (String.eqb_spec s "array") as [-> | Hne];
            [discriminate Hs|].
          repeat (match goal with
                  | |- context [match ?t with EmptyString => _ | String _ _ => _ end] =>
                      destruct t
                  | |- context [match ?a with Ascii _ _ _ _ _ _ _ _ => _ end] =>
                      destruct a
                  | |- context [if ?b then _ else _] => destruct b
                  end; try reflexivity; try congruence). }
        rewrite Hother. rewrite entryOf_setProp_ne by discriminate. exact Hbase. }
    destruct (isUndefined (normalizeDefaultValue (fieldDefaultValue field)));
      intros [= <-]; [exact Henum | apply entryOf_setProp_eq]. }
  destruct (buildFieldProperty field) as [| |b|n|s|items|property] eqn:E;
    try (unfold buildFieldProperty in E; destruct (isUndefined _) in E; discriminate E).
  specialize (Hentry property eq_refl). unfold prop, hasKey. rewrite Hentry.
  destruct (normalizeDefaultValue_cases (fieldDefaultValue field)) as [Hu | Hs].
  - rewrite Hu. cbn. repeat split; auto.
  - rewrite (StaticDefault_defined _ Hs). cbn. repeat split; auto.
Qed.

End DefaultProperties.

(** ** Contracts compiled from an export *)

Section ContractProperties.
Context {N : Type} `{!JsNumber N}.

Lemma compileField_required (acc : Compiled) (field : Field N) :
  cRequired (compileField acc field)
  = (cRequired acc ++ (if requiredField field then [fieldName field] else []))%list.
Proof.
  unfold compileField, requiredField.
  destruct (fieldRelation field) as [rel|]; [destruct (fieldType field =? "RELATION")|];
    cbn [cRequired]; destruct (_ && _); now rewrite ?app_nil_r.
Qed.

Lemma compileField_relations (acc : Compiled) (field : Field N) :
  cRelationMetadata (compileField acc field)
  = (cRelationMetadata acc ++ option_list (relationOf field))%list.
Proof.
  unfold compileField, relationOf.
  destruct (fieldRelation field) as [rel|]; [destruct (fieldType field =? "RELATION")|];
    cbn [cRelationMetadata option_list]; now rewrite ?app_nil_r.
Qed.

Lemma append_Id_not_proto (s : string) : s +:+ "Id" <> "__proto__".
Proof.
  intros H. assert (Hlen := f_equal String.length H).
  rewrite length_append in Hlen. cbn in Hlen.
  do 8 (destruct s as [|? s]; [cbv in H; discriminate H | cbn in Hlen]).
  lia.
Qed.

Lemma append_Ids_not_proto (s : string) : s +:+ "Ids" <> "__proto__".
Proof.
  intros H. assert (Hlen := f_equal String.length H).
  rewrite length_append in Hlen. cbn in Hlen.
  do 7 (destruct s as [|? s]; [cbv in H; discriminate H | cbn in Hlen]).
  lia.
Qed.

(** The key [__proto__] is no relation alias: an alias ends in [Id] or
    [Ids]. *)
Lemma getRelationAlias_not_proto (field : Field N) (alias : string) :
  getRelationAlias field = Some alias -> alias <> "__proto__".
Proof.
  unfold getRelationAlias.
  destruct (fieldRelation field) as [rel|]; [|discriminate].
  destruct (negb _); [discriminate|].
  destruct (isSingleType _); [|destruct (isMultipleType _); [|discriminate]].
  - destruct (Str.endsWithIgnoreCase "Id" (fieldName field)) eqn:E; intros [= <-].
    + intros H. rewrite H in E. discriminate E.
    + apply append_Id_not_proto.
  - destruct (Str.endsWithIgnoreCase "Ids" (fieldName field)) eqn:E;
      [|destruct (Str.endsWith "s" (fieldName field))]; intros [= <-];
      try apply append_Ids_not_proto.
    intros H. rewrite H in E. discriminate E.
Qed.

Lemma assign_ne (name : string) (v : JsVal N) (m : gmap string (JsVal N)) :
  name <> "__proto__" -> assign name v m = <[name := v]> m.
Proof. intros H. unfold assign. apply String.eqb_neq in H. now rewrite H. Qed.

Lemma assign_lookup (key name : string) (v : JsVal N) (m : gmap string (JsVal N)) :
  assign name v m !! key
  = if decide (key = name /\ name <> "__proto__") then Some v else m !! key.
Proof.
  unfold assign. destruct (String.eqb_spec name "__proto__") as [-> | Hne].
  - destruct (decide _) as [[_ H] | _]; [now destruct H | reflexivity].
  - destruct (decide _) as [[-> _] | H].
    + apply lookup_insert_eq.
    + apply lookup_insert_ne. intros <-. apply H. now split.
Qed.

(** The properties after a field is compiled: its own property, then its
    alias property when the alias is not empty and not yet a property. *)
Lemma compileField_properties (acc : Compiled) (field : Field N) :
  cProperties (compileField acc field)
  = assign (fieldName field) (buildFieldProperty field) (cProperties acc)
  \/ exists rel alias,
       relationOf field <> None
       /\ fieldRelation field = Some rel
       /\ getRelationAlias field = Some alias
       /\ assign (fieldName field) (buildFieldProperty field) (cProperties acc) !! alias = None
       /\ cProperties (compileField acc field)
          = <[alias := aliasProperty field rel]>
              (assign (fieldName field) (buildFieldProperty field) (cProperties acc)).
Proof.
  unfold compileField, relationOf.
  destruct (fieldRelation field) as [rel|]; [|now left].
  destruct (fieldType field =? "RELATION"); [|now left].
  cbn [cProperties].
  destruct (getRelationAlias field) as [alias|] eqn:Halias; [|now left].
  destruct (Str.nonEmpty alias); [|now left]. cbn [andb].
  destruct (bool_decide_reflect
              (is_Some (assign (fieldName field) (buildFieldProperty field) (cProperties acc)
                          !! alias)))
    as [Hsome | Hnone]; [now left|].
  right. exists rel, alias. cbn [negb].
  assert (Hproto := getRelationAlias_not_proto field alias Halias).
  rewrite (assign_ne alias) by exact Hproto.
  repeat split; try reflexivity; [discriminate|].
  now apply eq_None_not_Some.
Qed.

Lemma compileField_own (acc : Compiled) (field : Field N) :
  fieldName field <> "__proto__" ->
  cProperties (compileField acc field) !! fieldName field = Some (buildFieldProperty field).
Proof.
  intros Hname.
  assert (Hown : assign (fieldName field) (buildFieldProperty field) (cProperties acc)
                   !! fieldName field = Some (buildFieldProperty field)).
  { rewrite assign_lookup. destruct (decide _) as [_ | H]; [reflexivity|].
    destruct H. now split. }
  destruct (compileField_properties acc field) as [-> | (rel & alias & _ & _ & _ & Hfree & ->)].
  - exact Hown.
  - rewrite lookup_insert_ne; [exact Hown|].
    intros ->. rewrite Hown in Hfree. discriminate.
Qed.

(** A property that exists is changed only by a field of its name. *)
Lemma compileField_keep (acc : Compiled) (field : Field N) (key : string) (v : JsVal N) :
  cProperties acc !! key = Some v ->
  key <> fieldName field ->
  cProperties (compileField acc field) !! key = Some v.
Proof.
  intros Hkey Hne.
  assert (Hkept : assign (fieldName field) (buildFieldProperty field) (cProperties acc) !! key
                  = Some v).
  { rewrite assign_lookup. destruct (decide _) as [[H _] | _]; [contradiction | exact Hkey]. }
  destruct (compileField_properties acc field) as [-> | (rel & alias & _ & _ & _ & Hfree & ->)].
  - exact Hkept.
  - rewrite lookup_insert_ne; [exact Hkept|].
    intros ->. rewrite Hkept in Hfree. discriminate.
Qed.

(** No field defines a member [__proto__]. *)
Lemma compileField_proto (acc : Compiled) (field : Field N) :
  cProperties acc !! "__proto__" = None ->
  cProperties (compileField acc field) !! "__proto__" = None.
Proof.
  intros Hacc.
  assert (Hassign : assign (fieldName field) (buildFieldProperty field) (cProperties acc)
                      !! "__proto__" = None).
  { rewrite assign_lookup. destruct (decide _) as [[<- H] | _]; [now destruct H | exact Hacc]. }
  destruct (compileField_properties acc field)
    as [-> | (rel & alias & _ & _ & Halias & _ & ->)]; [exact Hassign|].
  rewrite lookup_insert_ne; [exact Hassign|].
  now apply getRelationAlias_not_proto in Halias.
Qed.

Lemma compileField_alias (acc : Compiled) (field : Field N) (r : RelationMeta) (alias : string) :
  relationOf field = Some r -> relAlias r = Some alias -> alias <> "" ->
  is_Some (cProperties (compileField acc field) !! alias).
Proof.
  intros Hr Halias Hne.
  unfold relationOf in Hr. unfold compileField.
  destruct (fieldRelation field) as [rel|]; [|discriminate].
  destruct (fieldType field =? "RELATION"); [|discriminate].
  injection Hr as <-. cbn [relAlias] in Halias. rewrite Halias. cbn [cProperties].
  apply nonEmpty_true in Hne. rewrite Hne. cbn [andb].
  destruct (bool_decide_reflect
              (is_Some (assign (fieldName field) (buildFieldProperty field) (cProperties acc)
                          !! alias)))
    as [Hsome | Hnone]; cbn [negb]; [exact Hsome|].
  assert (Hproto := getRelationAlias_not_proto field alias Halias).
  rewrite (assign_ne alias) by exact Hproto.
  rewrite lookup_insert_eq. eauto.
Qed.

(** The keys of the properties come from field names and aliases only. *)
Lemma compileField_keys (acc : Compiled) (field : Field N) (key : string) :
  is_Some (cProperties (compileField acc field) !! key) ->
  is_Some (cProperties acc !! key)
  \/ key = fieldName field
  \/ exists r, relationOf field = Some r /\ relAlias r = Some key.
Proof.
  intros Hkey.
  destruct (compileField_properties acc field)
    as [E | (rel & alias & Hrel & Hfr & Halias & _ & E)]; rewrite E in Hkey.
  - rewrite assign_lookup in Hkey. destruct (decide _) as [[-> _] | _]; auto.
  - destruct (decide (key = alias)) as [-> | Hne].
    + right. right. destruct (relationOf field) as [r|] eqn:Hr; [|contradiction].
      exists r. split; [reflexivity|].
      unfold relationOf in Hr. rewrite Hfr in Hr.
      destruct (fieldType field =? "RELATION"); [|discriminate].
      injection Hr as <-. exact Halias.
    + rewrite lookup_insert_ne in Hkey by congruence.
      rewrite assign_lookup in Hkey. destruct (decide _) as [[-> _] | _]; auto.
Qed.

(** The accumulators after the loop over the fields. *)
Lemma compileFields_spec (fields : list (Field N)) (acc : Compiled) :
  cRequired (foldl compileField acc fields)
  = (cRequired acc ++ map fieldName (List.filter requiredField fields))%list
  /\ cRelationMetadata (foldl compileField acc fields)
     = (cRelationMetadata acc ++ omap relationOf fields)%list
  /\ (forall key, is_Some (cProperties acc !! key) ->
                  is_Some (cProperties (foldl compileField acc fields) !! key))
  /\ (forall field, field ∈ fields -> fieldName field <> "__proto__" ->
                    is_Some (cProperties (foldl compileField acc fields) !! fieldName field))
  /\ (forall r alias, r ∈ omap relationOf fields -> relAlias r = Some alias -> alias <> "" ->
                      is_Some (cProperties (foldl compileField acc fields) !! alias))
  /\ (forall key, is_Some (cProperties (foldl compileField acc fields) !! key) ->
                  is_Some (cProperties acc !! key)
                  \/ key ∈ map fieldName fields
                  \/ exists r, r ∈ omap relationOf fields /\ relAlias r = Some key).
Proof.
  revert acc. induction fields as [|field rest IH]; intros acc.
  - cbn. rewrite !app_nil_r. repeat split; auto.
    + intros f Hf. now apply elem_of_nil in Hf.
    + intros r a Hr. now apply elem_of_nil in Hr.
  - cbn [foldl].
    destruct (IH (compileField acc field)) as (Hreq & Hrel & Hkeep & Hown & Halias & Hkeys).
    assert (Hstep : forall key, is_Some (cProperties acc !! key) ->
                                is_Some (cProperties (compileField acc field) !! key)).
    { intros key [v Hv]. destruct (decide (key = fieldName field)) as [-> | Hne].
      - destruct (decide (fieldName field = "__proto__")) as [Hproto | Hproto].
        + destruct (compileField_properties acc field)
            as [-> | (rel & alias & _ & _ & _ & _ & ->)].
          * rewrite assign_lookup. destruct (decide _); eauto.
          * destruct (decide (fieldName field = alias)) as [<- | Hne].
            -- rewrite lookup_insert_eq. eauto.
            -- rewrite lookup_insert_ne by congruence.
               rewrite assign_lookup. destruct (decide _); eauto.
        + rewrite compileField_own by exact Hproto. eauto.
      - rewrite (compileField_keep _ _ _ _ Hv Hne). eauto. }
    split; [|split; [|split; [|split; [|split]]]].
    + rewrite Hreq, compileField_required. cbn [List.filter].
      destruct (requiredField field); cbn; now rewrite <- ?app_assoc, ?app_nil_r.
    + rewrite Hrel, compileField_relations. cbn [omap list_omap].
      destruct (relationOf field); cbn; now rewrite <- ?app_assoc, ?app_nil_r.
    + intros key Hkey. apply Hkeep, Hstep, Hkey.
    + intros f Hf Hname. apply elem_of_cons in Hf.
      destruct Hf as [-> | Hf]; [|now apply Hown].
      apply Hkeep. rewrite compileField_own by exact Hname. eauto.
    + intros r alias Hr Ha Hne. cbn [omap list_omap] in Hr.
      destruct (relationOf field) as [r0|] eqn:Hr0; [|now apply (Halias r alias)].
      apply elem_of_cons in Hr. destruct Hr as [-> | Hr]; [|now apply (Halias r alias)].
      apply Hkeep. now apply (compileField_alias acc field r0 alias).
    + intros key Hkey. destruct (Hkeys key Hkey) as [H | [H | (r & Hr & Ha)]].
      * destruct (compileField_keys acc field key H) as [H' | [-> | (r & Hr & Ha)]].
        -- now left.
        -- right. left. cbn. now left.
        -- right. right. exists r. split; [|exact Ha].
           cbn [omap list_omap]. rewrite Hr. now left.
      * right. left. cbn. now right.
      * right. right. exists r. split; [|exact Ha].
        cbn [omap list_omap]. destruct (relationOf field); [now right | exact Hr].
Qed.

Lemma compileFields_proto (fields : list (Field N)) (acc : Compiled) :
  cProperties acc !! "__proto__" = None ->
  cProperties (foldl compileField acc fields) !! "__proto__" = None.
Proof.
  revert acc. induction fields as [|field rest IH]; intros acc Hacc; [exact Hacc|].
  cbn [foldl]. now apply IH, compileField_proto.
Qed.

(** With distinct field names, each field keeps its own property. *)
Lemma compileFields_declared (fields : list (Field N)) (acc : Compiled) (field : Field N) :
  NoDup (map fieldName fields) ->
  field ∈ fields ->
  fieldName field <> "__proto__" ->
  cProperties (foldl compileField acc fields) !! fieldName field
  = Some (buildFieldProperty field).
Proof.
  revert acc. induction fields as [|f rest IH]; intros acc Hnodup Hin Hname.
  - now apply elem_of_nil in Hin.
  - cbn [map] in Hnodup. apply NoDup_cons in Hnodup. destruct Hnodup as [Hfresh Hnodup].
    cbn [foldl]. apply elem_of_cons in Hin. destruct Hin as [-> | Hin]; [|now apply IH].
    clear IH. generalize (compileField_own acc f Hname).
    generalize (compileField acc f). clear acc.
    induction rest as [|g rest IH]; intros acc Hacc; [exact Hacc|].
    cbn [foldl]. cbn [map] in Hfresh, Hnodup.
    apply NoDup_cons in Hnodup. destruct Hnodup as [_ Hnodup].
    apply IH; [intros H; apply Hfresh; now right | exact Hnodup|].
    apply compileField_keep; [exact Hacc|].
    intros E. apply Hfresh. rewrite E. now left.
Qed.

Lemma endsWithIgnoreCase_nonEmpty (pat s : string) :
  pat <> "" -> Str.endsWithIgnoreCase pat s = true -> s <> "".
Proof. intros Hpat H ->. destruct pat; [congruence | discriminate H]. Qed.

Lemma append_nonEmpty (s t : string) : t <> "" -> s +:+ t <> "".
Proof. destruct s; cbn; [auto | discriminate]. Qed.

(** X5. In a contract compiled from an export, the required list names the
    selected fields that are not nullable and have no raw default, in field
    order; the relation descriptors are those of the selected RELATION
    fields, all of SINGLE cardinality, each with a non-empty alias (the
    field name, or the field name followed by "Id") that is a property of
    the contract; every selected field has a property, unless its name is
    [__proto__], a key that is never a member of the properties; and every
    property is keyed by a field name or by a relation alias. *)
Theorem generateToolSchema_contract
        (metadata : Metadata N) (name : string) (schema : Schema N) :
  generateToolSchema metadata name = Some schema ->
  required schema = map fieldName (List.filter requiredField (fieldMetadata schema))
  /\ relationMetadata schema = omap relationOf (fieldMetadata schema)
  /\ (forall field, field ∈ fieldMetadata schema -> fieldName field <> "__proto__" ->
                    is_Some (properties schema !! fieldName field))
  /\ properties schema !! "__proto__" = None
  /\ (forall r, r ∈ relationMetadata schema ->
                getRelationCardinality (relRelationType r) = Some single
                /\ exists alias,
                     relAlias r = Some alias /\ alias <> ""
                     /\ (alias = relName r \/ alias = relName r +:+ "Id")
                     /\ is_Some (properties schema !! alias))
  /\ (forall key, is_Some (properties schema !! key) ->
                  key ∈ map fieldName (fieldMetadata schema)
                  \/ exists r, r ∈ relationMetadata schema /\ relAlias r = Some key).
Proof.
  unfold generateToolSchema.
  destruct (getObjectByName metadata name) as [object|]; [|discriminate].
  intros [= <-]. cbn [required relationMetadata fieldMetadata properties].
  set (fields := getObjectFields metadata (objNamePlural object)).
  destruct (compileFields_spec fields
              {| cProperties := ∅; cRequired := []; cRelationMetadata := [] |})
    as (Hreq & Hrel & _ & Hown & Halias & Hkeys).
  cbn [cRequired cRelationMetadata cProperties app] in *.
  split; [exact Hreq|]. split; [exact Hrel|]. split; [exact Hown|].
  split; [now apply compileFields_proto|]. split.
  - intros r Hr. rewrite Hrel in Hr.
    assert (Hr' := Hr). apply list_elem_of_omap in Hr'. destruct Hr' as (field & Hfield & Hof).
    destruct (getObjectFields_selected _ _ _ Hfield) as (_ & _ & Hsingle).
    unfold relationOf in Hof.
    destruct (fieldRelation field) as [rel|] eqn:Hrelation; [|discriminate].
    destruct (fieldType field =? "RELATION") eqn:Htype; [|discriminate].
    apply String.eqb_eq in Htype. destruct (Hsingle Htype) as (rel' & [= <-] & Hcases).
    assert (Halias_of : getRelationAlias field
                        = Some (if Str.endsWithIgnoreCase "Id" (fieldName field)
                                then fieldName field else fieldName field +:+ "Id")).
    { unfold getRelationAlias. rewrite Hrelation.
      destruct Hcases as [-> | ->]; cbn;
        destruct (Str.endsWithIgnoreCase "Id" (fieldName field)); reflexivity. }
    injection Hof as <-. cbn [relRelationType relAlias relName].
    split; [destruct Hcases as [-> | ->]; reflexivity|].
    exists (if Str.endsWithIgnoreCase "Id" (fieldName field)
            then fieldName field else fieldName field +:+ "Id").
    assert (Hne : (if Str.endsWithIgnoreCase "Id" (fieldName field)
                   then fieldName field else fieldName field +:+ "Id") <> "").
    { destruct (Str.endsWithIgnoreCase "Id" (fieldName field)) eqn:E.
      - now apply (endsWithIgnoreCase_nonEmpty "Id").
      - now apply append_nonEmpty. }
    split; [exact Halias_of|]. split; [exact Hne|]. split.
    + destruct (Str.endsWithIgnoreCase "Id" (fieldName field)); auto.
    + refine (Halias _ _ Hr _ Hne). exact Halias_of.
  - intros key Hkey. destruct (Hkeys key Hkey) as [H | [H | (r & Hr & Ha)]].
    + rewrite lookup_empty in H. now apply is_Some_None in H.
    + now left.
    + right. exists r. rewrite Hrel. auto.
Qed.

(** X6. In a contract compiled from fields with distinct names, the property
    under the name of a field, other than [__proto__], is the one compiled
    from that field: an alias injected for a relation never replaces a
    declared property. *)
Theorem generateToolSchema_declared_wins
        (metadata : Metadata N) (name : string) (schema : Schema N) (field : Field N) :
  generateToolSchema metadata name = Some schema ->
  NoDup (map fieldName (fieldMetadata schema)) ->
  field ∈ fieldMetadata schema ->
  fieldName field <> "__proto__" ->
  properties schema !! fieldName field = Some (buildFieldProperty field).
Proof.
  unfold generateToolSchema.
  destruct (getObjectByName metadata name) as [object|]; [|discriminate].
  intros [= <-]. cbn [fieldMetadata properties]. apply compileFields_declared.
Qed.

End ContractProperties.

(** [generateToolSchema_contract] at the object [people] of the example
    export: no field is required and the only relation is [company]. *)
Lemma generateToolSchema_contract_people :
  exists schema,
    generateToolSchema peopleMetadata "people" = Some schema
    /\ required schema = map fieldName (List.filter requiredField (fieldMetadata schema))
    /\ relationMetadata schema = omap relationOf (fieldMetadata schema).
Proof.
  eexists. split; [reflexivity|].
  destruct (generateToolSchema_contract peopleMetadata "people" _ eq_refl)
    as (Hrequired & Hrelations & _).
  split; [exact Hrequired | exact Hrelations].
Defined.

(** [generateToolSchema_declared_wins] at the field [company] of the object
    [people] of the example export. *)
Lemma generateToolSchema_declared_wins_people :
  exists schema,
    generateToolSchema peopleMetadata "people" = Some schema
    /\ properties schema !! "company"
       = Some (buildFieldProperty (relationField "company" "MANY_TO_ONE")).
Proof.
  eexists. split; [reflexivity|].
  refine (generateToolSchema_declared_wins
            peopleMetadata "people" _ (relationField "company" "MANY_TO_ONE") eq_refl _ _ _).
  - vm_compute. compute_done.
  - apply list_elem_of_In. vm_compute. right. left. reflexivity.
  - discriminate.
Defined.

(** An export whose object has a field named [__proto__]: the contract
    lists the field, and its properties hold the other field only. *)
Example generateToolSchema_proto_field :
  let metadata : Metadata Num :=
    Some [{| objNameSingular := "person";
             objNamePlural := "people";
             objLabelSingular := None;
             objLabelPlural := None;
             objDescription := None;
             objIsActive := true;
             objIsSystem := false;
             objFields := [plainField "__proto__" "TEXT"; plainField "city" "TEXT"] |}] in
  (fun schema => (map fieldName (fieldMetadata schema),
                  map fst (map_to_list (properties schema))))
    <$> generateToolSchema metadata "people"
  = Some (["__proto__"; "city"], ["city"]).
Proof. vm_compute. reflexivity. Qed.

(** ** Object lookup *)

Section LookupProperties.
Context {N : Type} `{!JsNumber N}.

Lemma nonEmpty_toLowerCase (s : string) :
  Str.nonEmpty (Str.toLowerCase s) = Str.nonEmpty s.
Proof. now destruct s. Qed.

(** X7. The lookup behind [generateToolSchema] is case-insensitive and sees
    active objects only: a contract comes from an active object whose
    plural or singular name equals the requested name up to letter case,
    and carries that object's names; there is no contract exactly when
    there is no export, the name is empty, or no active object matches;
    and two names that differ in letter case only give the same result. *)
Theorem generateToolSchema_lookup (metadata : Metadata N) (name : string) :
  (forall schema,
     generateToolSchema metadata name = Some schema ->
     exists objects object,
       metadata = Some objects /\ object ∈ objects
       /\ objIsActive object = true
       /\ (Str.toLowerCase (objNamePlural object) = Str.toLowerCase name
           \/ Str.toLowerCase (objNameSingular object) = Str.toLowerCase name)
       /\ nameSingular schema = objNameSingular object
       /\ namePlural schema = objNamePlural object)
  /\ (generateToolSchema metadata name = None <->
      metadata = None \/ name = ""
      \/ exists objects,
           metadata = Some objects
           /\ forall object,
                object ∈ objects -> objIsActive object = true ->
                Str.toLowerCase (objNamePlural object) <> Str.toLowerCase name
                /\ Str.toLowerCase (objNameSingular object) <> Str.toLowerCase name)
  /\ (forall name',
        Str.toLowerCase name' = Str.toLowerCase name ->
        generateToolSchema metadata name' = generateToolSchema metadata name).
Proof.
  split; [|split].
  - intros schema. unfold generateToolSchema.
    destruct (getObjectByName metadata name) as [object|] eqn:Hfind; [|discriminate].
    intros [= <-]. cbn [nameSingular namePlural].
    unfold getObjectByName in Hfind. destruct metadata as [objects|]; [|discriminate].
    destruct (negb (Str.nonEmpty name)); [discriminate|].
    apply find_some in Hfind. destruct Hfind as [Hin Htest].
    apply andb_true_iff in Htest. destruct Htest as [Hactive Hmatch].
    exists objects, object. split; [reflexivity|]. split; [now apply list_elem_of_In|].
    split; [exact Hactive|]. split; [|split; reflexivity].
    apply orb_true_iff in Hmatch.
    destruct Hmatch as [H | H]; apply String.eqb_eq in H; auto.
  - unfold generateToolSchema, getObjectByName.
    destruct metadata as [objects|]; [|split; auto].
    destruct (Str.nonEmpty name) eqn:Hname; cbn [negb].
    + destruct (List.find _ objects) as [object|] eqn:Hfind.
      * split; [discriminate|]. intros [H | [H | (objects' & [= <-] & Hnone)]].
        -- discriminate.
        -- subst name. discriminate.
        -- exfalso. apply find_some in Hfind. destruct Hfind as [Hin Htest].
           apply andb_true_iff in Htest. destruct Htest as [Hactive Hmatch].
           destruct (Hnone object (proj2 (list_elem_of_In _ _) Hin) Hactive) as [Hp Hs].
           apply orb_true_iff in Hmatch.
           destruct Hmatch as [H | H]; apply String.eqb_eq in H; congruence.
      * split; [|reflexivity]. intros _. right. right. exists objects.
        split; [reflexivity|]. intros object Hin Hactive.
        assert (Htest := find_none _ _ Hfind object (proj1 (list_elem_of_In _ _) Hin)).
        cbn in Htest. rewrite Hactive in Htest. cbn in Htest.
        apply orb_false_iff in Htest. destruct Htest as [Hp Hs].
        apply String.eqb_neq in Hp, Hs. auto.
    + split; [|reflexivity]. intros _. right. left. now destruct name.
  - intros name' Hsame. unfold generateToolSchema, getObjectByName.
    destruct metadata as [objects|]; [|reflexivity].
    rewrite <- (nonEmpty_toLowerCase name'), Hsame, nonEmpty_toLowerCase.
    reflexivity.
Qed.

End LookupProperties.

(** ** The registry *)

Section RegistryProperties.
Context {N : Type} `{!JsNumber N}.
Import Handlers.

Lemma setAlias_lookup (label : option string) (pluralKey : string)
      (aliases : gmap string string) (name key : string) :
  setAlias label pluralKey aliases !! name = Some key ->
  key = pluralKey \/ aliases !! name = Some key.
Proof.
  unfold setAlias. destruct label as [l|]; [|auto].
  destruct (Str.nonEmpty l); [|auto].
  destruct (decide (Str.toLowerCase l = name)) as [<- | Hne].
  - rewrite lookup_insert_eq. intros [= <-]. now left.
  - rewrite lookup_insert_ne by exact Hne. auto.
Qed.

Lemma setAlias_keeps (label : option string) (pluralKey : string)
      (aliases : gmap string string) (name : string) :
  is_Some (aliases !! name) -> is_Some (setAlias label pluralKey aliases !! name).
Proof.
  unfold setAlias. destruct label as [l|]; [|auto].
  destruct (Str.nonEmpty l); [|auto].
  intros H. destruct (decide (Str.toLowerCase l = name)) as [<- | Hne].
  - rewrite lookup_insert_eq. eauto.
  - now rewrite lookup_insert_ne.
Qed.

Lemma insert_keeps (m : gmap string string) (k v name : string) :
  is_Some (m !! name) -> is_Some (<[k := v]> m !! name).
Proof.
  intros H. destruct (decide (k = name)) as [<- | Hne].
  - rewrite lookup_insert_eq. eauto.
  - now rewrite lookup_insert_ne.
Qed.

(** What [registerObjectSchema] does: nothing, when a name is empty or the
    plural key is taken; otherwise it stores the contract, points its four
    names to it and appends it to the supported objects. *)
Lemma registerObjectSchema_cases (schema : Schema N) (reg : Registry N) :
  ((namePlural schema = "" \/ nameSingular schema = ""
    \/ is_Some (objectSchemas reg !! Str.toLowerCase (namePlural schema)))
   /\ registerObjectSchema schema reg = reg)
  \/ (namePlural schema <> "" /\ nameSingular schema <> ""
      /\ objectSchemas reg !! Str.toLowerCase (namePlural schema) = None
      /\ registerObjectSchema schema reg
         = {| objectSchemas :=
                <[Str.toLowerCase (namePlural schema) := schema]> (objectSchemas reg);
              objectAliases :=
                setAlias (labelPlural schema) (Str.toLowerCase (namePlural schema))
                  (setAlias (labelSingular schema) (Str.toLowerCase (namePlural schema))
                     (<[Str.toLowerCase (nameSingular schema)
                        := Str.toLowerCase (namePlural schema)]>
                        (<[Str.toLowerCase (namePlural schema)
                           := Str.toLowerCase (namePlural schema)]> (objectAliases reg))));
              supportedObjects := (supportedObjects reg ++ [schema])%list |}).
Proof.
  unfold registerObjectSchema.
  destruct (Str.nonEmpty (namePlural schema)) eqn:Hp;
    [|left; split; [left; now destruct (namePlural schema) | reflexivity]].
  destruct (Str.nonEmpty (nameSingular schema)) eqn:Hs;
    [|left; split; [right; left; now destruct (nameSingular schema) | reflexivity]].
  cbn [negb orb].
  destruct (bool_decide_reflect
              (is_Some (objectSchemas reg !! Str.toLowerCase (namePlural schema))))
    as [Htaken | Hfree]; [left; auto|].
  right. apply nonEmpty_true in Hp, Hs. apply eq_None_not_Some in Hfree. auto.
Qed.

Lemma registerObjectSchema_alias (schema : Schema N) (reg : Registry N) (name key : string) :
  objectAliases (registerObjectSchema schema reg) !! name = Some key ->
  key = Str.toLowerCase (namePlural schema) \/ objectAliases reg !! name = Some key.
Proof.
  destruct (registerObjectSchema_cases schema reg) as [[_ ->] | (_ & _ & _ & ->)]; [auto|].
  cbn [objectAliases]. intros Hname.
  apply setAlias_lookup in Hname. destruct Hname as [? | Hname]; [auto|].
  apply setAlias_lookup in Hname. destruct Hname as [? | Hname]; [auto|].
  destruct (decide (Str.toLowerCase (nameSingular schema) = name)) as [<- | Hne].
  - rewrite lookup_insert_eq in Hname. injection Hname as <-. auto.
  - rewrite lookup_insert_ne in Hname by exact Hne.
    destruct (decide (Str.toLowerCase (namePlural schema) = name)) as [<- | Hne'].
    + rewrite lookup_insert_eq in Hname. injection Hname as <-. auto.
    + rewrite lookup_insert_ne in Hname by exact Hne'. auto.
Qed.

(** Registration never replaces a stored contract. *)
Lemma registerObjectSchema_kept (schema : Schema N) (reg : Registry N)
      (key : string) (stored : Schema N) :
  objectSchemas reg !! key = Some stored ->
  objectSchemas (registerObjectSchema schema reg) !! key = Some stored.
Proof.
  intros Hkey.
  destruct (registerObjectSchema_cases schema reg) as [[_ ->] | (_ & _ & Hfree & ->)];
    [exact Hkey|].
  cbn [objectSchemas]. rewrite lookup_insert_ne; [exact Hkey|].
  intros E. rewrite E, Hkey in Hfree. discriminate.
Qed.

Lemma emptyRegistry_ok : RegistryOk (emptyRegistry (N := N)).
Proof.
  split; cbn.
  - intros key schema H. now rewrite lookup_empty in H.
  - intros schema H. now apply elem_of_nil in H.
  - intros name key H. now rewrite lookup_empty in H.
  - intros schema H. now apply elem_of_nil in H.
Qed.

(** Registration keeps the registry consistent. *)
Lemma registerObjectSchema_ok (schema : Schema N) (reg : Registry N) :
  RegistryOk reg -> RegistryOk (registerObjectSchema schema reg).
Proof.
  intros [Hstored Hsupported Haliases Hnames].
  destruct (registerObjectSchema_cases schema reg) as [[_ ->] | (Hp & Hs & Hfree & ->)];
    [now split|].
  split; cbn [objectSchemas objectAliases supportedObjects].
  - intros key s Hkey.
    destruct (decide (Str.toLowerCase (namePlural schema) = key)) as [<- | Hne].
    + rewrite lookup_insert_eq in Hkey. injection Hkey as <-.
      repeat split; auto. apply elem_of_app. right. now left.
    + rewrite lookup_insert_ne in Hkey by exact Hne.
      destruct (Hstored key s Hkey) as (? & ? & ? & ?).
      repeat split; auto. apply elem_of_app. now left.
  - intros s Hin. apply elem_of_app in Hin. destruct Hin as [Hin | Hin].
    + specialize (Hsupported s Hin).
      rewrite lookup_insert_ne; [exact Hsupported|].
      intros E. rewrite E, Hsupported in Hfree. discriminate.
    + apply list_elem_of_singleton in Hin. subst s. apply lookup_insert_eq.
  - intros name key Hname.
    assert (Hcases : key = Str.toLowerCase (namePlural schema)
                     \/ objectAliases reg !! name = Some key).
    { apply setAlias_lookup in Hname. destruct Hname as [? | Hname]; [auto|].
      apply setAlias_lookup in Hname. destruct Hname as [? | Hname]; [auto|].
      destruct (decide (Str.toLowerCase (nameSingular schema) = name)) as [<- | Hne].
      - rewrite lookup_insert_eq in Hname. injection Hname as <-. auto.
      - rewrite lookup_insert_ne in Hname by exact Hne.
        destruct (decide (Str.toLowerCase (namePlural schema) = name)) as [<- | Hne'].
        + rewrite lookup_insert_eq in Hname. injection Hname as <-. auto.
        + rewrite lookup_insert_ne in Hname by exact Hne'. auto. }
    destruct Hcases as [-> | Hold].
    + rewrite lookup_insert_eq. eauto.
    + destruct (Haliases name key Hold) as [s Hs'].
      destruct (decide (Str.toLowerCase (namePlural schema) = key)) as [<- | Hne].
      * rewrite lookup_insert_eq. eauto.
      * rewrite lookup_insert_ne by exact Hne. eauto.
  - intros s Hin. apply elem_of_app in Hin. destruct Hin as [Hin | Hin].
    + destruct (Hnames s Hin) as [H1 H2].
      split; repeat (first [apply setAlias_keeps | apply insert_keeps]); assumption.
    + apply list_elem_of_singleton in Hin. subst s. split.
      * do 2 apply setAlias_keeps. apply insert_keeps. rewrite lookup_insert_eq. eauto.
      * do 2 apply setAlias_keeps. rewrite lookup_insert_eq. eauto.
Qed.

Lemma buildObjectRegistry_ok (metadata : Metadata N) (reg : Registry N) :
  RegistryOk reg -> RegistryOk (buildObjectRegistry metadata reg).
Proof.
  unfold buildObjectRegistry. generalize getCoreObjects. intros names. revert reg.
  induction names as [|name rest IH]; intros reg Hok; [exact Hok|].
  cbn [foldl]. apply IH.
  destruct (generateToolSchema metadata name); [now apply registerObjectSchema_ok | exact Hok].
Qed.

Lemma buildFallbackRegistry_ok (reg : Registry N) :
  RegistryOk reg -> RegistryOk (buildFallbackRegistry reg).
Proof.
  unfold buildFallbackRegistry. generalize getCoreObjects. intros names. revert reg.
  induction names as [|name rest IH]; intros reg Hok; [exact Hok|].
  cbn [foldl]. now apply IH, registerObjectSchema_ok.
Qed.

Lemma rebuildRegistry_ok (metadata : Metadata N) : RegistryOk (rebuildRegistry metadata).
Proof.
  unfold rebuildRegistry. destruct metadata as [objects|].
  - destruct (Nat.eqb _ 0).
    + apply buildFallbackRegistry_ok, buildObjectRegistry_ok, emptyRegistry_ok.
    + apply buildObjectRegistry_ok, emptyRegistry_ok.
  - apply buildFallbackRegistry_ok, emptyRegistry_ok.
Qed.

(** In a consistent registry a result of [resolveObject] is a supported
    object together with its lower-cased plural name. *)
Lemma resolveObject_Some (reg : Registry N) (objectName : JsVal N)
      (schema : Schema N) (key : string) :
  RegistryOk reg ->
  resolveObject reg objectName = Some (schema, key) ->
  schema ∈ supportedObjects reg /\ key = Str.toLowerCase (namePlural schema).
Proof.
  intros Hok. unfold resolveObject.
  destruct (negb (truthy objectName)); [discriminate|].
  destruct (objectAliases reg !! _) as [pluralKey|]; [|discriminate].
  destruct (negb (Str.nonEmpty pluralKey)); [discriminate|].
  destruct (objectSchemas reg !! pluralKey) as [s|] eqn:Hs; [|discriminate].
  intros [= <- <-]. destruct (ok_stored reg Hok _ _ Hs) as (? & _ & _ & ?). auto.
Qed.

(** In a consistent registry every name the alias map knows resolves. *)
Lemma resolveObject_alias (reg : Registry N) (name : string) :
  RegistryOk reg ->
  name <> "" ->
  is_Some (objectAliases reg !! Str.toLowerCase (Str.trim name)) ->
  is_Some (resolveObject reg (JStr name)).
Proof.
  intros Hok Hname [key Hkey]. unfold resolveObject. cbn [truthy toString].
  apply nonEmpty_true in Hname. rewrite Hname, Hkey. cbn [negb].
  destruct (ok_aliases reg Hok _ _ Hkey) as [schema Hschema].
  destruct (ok_stored reg Hok _ _ Hschema) as (-> & Hp & _ & _).
  apply nonEmpty_true in Hp. rewrite nonEmpty_toLowerCase, Hp, Hschema. cbn. eauto.
Qed.

(** X8. After a rebuild, from any export or none, the registry is never
    empty and is consistent: every alias leads to a stored contract; every
    object [resolveObject] returns is a supported object, returned with
    its lower-cased plural name; and the plural and the singular name of
    every supported object resolve, when written without surrounding
    white space. *)
Theorem rebuildRegistry_resolves (metadata : Metadata N) :
  supportedObjects (rebuildRegistry metadata) <> []
  /\ (forall name key,
        objectAliases (rebuildRegistry metadata) !! name = Some key ->
        exists schema,
          objectSchemas (rebuildRegistry metadata) !! key = Some schema
          /\ key = Str.toLowerCase (namePlural schema))
  /\ (forall objectName schema key,
        resolveObject (rebuildRegistry metadata) objectName = Some (schema, key) ->
        schema ∈ supportedObjects (rebuildRegistry metadata)
        /\ key = Str.toLowerCase (namePlural schema))
  /\ (forall schema name,
        schema ∈ supportedObjects (rebuildRegistry metadata) ->
        name = namePlural schema \/ name = nameSingular schema ->
        Str.trim name = name ->
        is_Some (resolveObject (rebuildRegistry metadata) (JStr name))).
Proof.
  assert (Hok := rebuildRegistry_ok metadata).
  split; [|split; [|split]].
  - unfold rebuildRegistry. destruct metadata as [objects|].
    + destruct (Nat.eqb (length (supportedObjects (buildObjectRegistry (Some objects) emptyRegistry))) 0)
        eqn:E.
      * assert (Hempty : objectSchemas (buildObjectRegistry (Some objects) emptyRegistry)
                         !! "people" = None).
        { destruct (objectSchemas _ !! "people") as [s|] eqn:Hs; [|reflexivity].
          destruct (ok_stored _ (buildObjectRegistry_ok (Some objects) _ emptyRegistry_ok)
                              _ _ Hs) as (_ & _ & _ & Hin).
          apply length_zero_nil in E. rewrite E in Hin. now apply elem_of_nil in Hin. }
        unfold buildFallbackRegistry, getCoreObjects. cbn [foldl].
        set (first := registerObjectSchema (fallbackSchema "people") _).
        assert (Hfirst : fallbackSchema "people" ∈ supportedObjects first).
        { unfold first.
          destruct (registerObjectSchema_cases
                      (fallbackSchema (N := N) "people")
                      (buildObjectRegistry (Some objects) emptyRegistry))
            as [[[Hp | [Hs | Htaken]] _] | (_ & _ & _ & ->)].
          - discriminate Hp.
          - discriminate Hs.
          - change (Str.toLowerCase (namePlural (fallbackSchema (N := N) "people")))
              with "people" in Htaken.
            rewrite Hempty in Htaken. now destruct Htaken.
          - cbn. apply elem_of_app. right. now left. }
        intros Hnil.
        assert (Hkept : forall (s : Schema N) reg s', s ∈ supportedObjects reg ->
                          s ∈ supportedObjects (registerObjectSchema s' reg)).
        { intros s reg s' Hs.
          destruct (registerObjectSchema_cases s' reg) as [[_ ->] | (_ & _ & _ & ->)];
            [exact Hs|]. cbn. apply elem_of_app. now left. }
        apply (Hkept _ _ (fallbackSchema "companies")) in Hfirst.
        apply (Hkept _ _ (fallbackSchema "notes")) in Hfirst.
        apply (Hkept _ _ (fallbackSchema "tasks")) in Hfirst.
        apply (Hkept _ _ (fallbackSchema "opportunities")) in Hfirst.
        rewrite Hnil in Hfirst. now apply elem_of_nil in Hfirst.
      * intros Hnil. rewrite Hnil in E. discriminate.
    + vm_compute. discriminate.
  - intros name key Hname. destruct (ok_aliases _ Hok _ _ Hname) as [schema Hschema].
    exists schema. split; [exact Hschema|].
    now destruct (ok_stored _ Hok _ _ Hschema).
  - intros objectName schema key. now apply resolveObject_Some.
  - intros schema name Hin Hname Htrim.
    destruct (ok_stored _ Hok _ _ (ok_supported _ Hok _ Hin)) as (_ & Hp & Hs & _).
    apply resolveObject_alias; [exact Hok | destruct Hname; congruence|].
    rewrite Htrim. destruct (ok_names _ Hok _ Hin) as [H1 H2].
    destruct Hname; subst name; assumption.
Qed.

End RegistryProperties.

(** ** Tool calls *)

Section HandlerProperties.
Context {N : Type} `{!JsNumber N}.
Import Handlers.

Lemma afterPrefix_append (prefix s : string) : afterPrefix prefix (prefix +:+ s) = Some s.
Proof.
  induction prefix as [|c prefix IH]; [reflexivity|].
  change (String c prefix +:+ s) with (String c (prefix +:+ s)).
  cbn [afterPrefix]. now rewrite Ascii.eqb_refl.
Qed.

Lemma afterPrefix_Some (prefix s rest : string) :
  afterPrefix prefix s = Some rest -> s = prefix +:+ rest.
Proof.
  revert s. induction prefix as [|c prefix IH]; intros s H.
  - cbn in H. now injection H as ->.
  - destruct s as [|d s]; [discriminate|]. cbn [afterPrefix] in H.
    destruct (Ascii.eqb_spec c d) as [-> | _]; [|discriminate].
    change (String d prefix +:+ rest) with (String d (prefix +:+ rest)).
    f_equal. now apply IH.
Qed.

Lemma append_cons (c : ascii) (a b : string) : String c a +:+ b = String c (a +:+ b).
Proof. reflexivity. Qed.

Lemma append_nil (b : string) : "" +:+ b = b.
Proof. reflexivity. Qed.

Lemma append_empty_r (a : string) : a +:+ "" = a.
Proof.
  induction a as [|x a IH]; [reflexivity|].
  rewrite append_cons. now rewrite IH.
Qed.

Lemma append_assoc (a b c : string) : (a +:+ b) +:+ c = a +:+ (b +:+ c).
Proof.
  induction a as [|x a IH]; [reflexivity|].
  rewrite !append_cons. now rewrite IH.
Qed.

(** The pattern of the CRUD tools, as a specification. *)
Lemma matchCrudTool_spec (name operation objectName : string) :
  matchCrudTool name = Some (operation, objectName)
  <-> name = operation +:+ "_" +:+ objectName
      /\ operation ∈ crudOperations
      /\ objectName <> ""
      /\ noLineTerminator objectName = true.
Proof.
  split.
  - unfold matchCrudTool, crudOperations. cbv beta match fix.
    repeat match goal with
           | |- context [afterPrefix ?p name] =>
               let E := fresh "E" in
               let rest := fresh "rest" in
               destruct (afterPrefix p name) as [rest|] eqn:E;
               [ apply afterPrefix_Some in E;
                 destruct (Str.nonEmpty rest && noLineTerminator rest) eqn:?
               | ]
           end;
      intros H; try discriminate H; injection H as <- <-;
      match goal with
      | Hc : (_ && _) = true |- _ =>
          apply andb_true_iff in Hc; destruct Hc as [Hne Hline]
      end;
      apply nonEmpty_true in Hne;
      (split; [match goal with
               | E : name = _ |- _ => rewrite append_assoc in E; exact E
               end|]);
      (split; [|split; assumption]);
      apply list_elem_of_In; cbn; tauto.
  - intros (-> & Hop & Hne & Hline). apply nonEmpty_true in Hne.
    apply list_elem_of_In in Hop. cbn in Hop.
    unfold matchCrudTool, crudOperations. cbv beta match fix.
    destruct Hop as [<- | [<- | [<- | [<- | [<- | []]]]]];
      rewrite ?append_cons, ?append_nil; cbn [afterPrefix Ascii.eqb Bool.eqb];
      now rewrite Hne, Hline.
Qed.

Lemma routeTool_spec (name operation objectName : string) :
  routeTool name = CrudHandler operation objectName
  <-> matchCrudTool name = Some (operation, objectName) /\ name ∉ globalToolNames.
Proof.
  unfold routeTool. destruct (has globalToolNames name) eqn:Hglobal.
  - apply has_elem_of in Hglobal. split; [discriminate | tauto].
  - assert (Hnot : name ∉ globalToolNames).
    { intros Hin. apply has_elem_of in Hin. congruence. }
    destruct (matchCrudTool name) as [[op obj]|].
    + split; [now intros [= -> ->] | now intros [[= -> ->] _]].
    + split; [discriminate | now intros [? _]].
Qed.

(** X9. The pattern of the CRUD tools takes a tool name apart into one of
    the five operations and a non-empty object name without line
    terminators, and puts nothing else together: [matchCrudTool] answers
    [(operation, objectName)] exactly for the names
    [operation_objectName] of that kind. A name of that kind is routed to
    the CRUD handler with these two parts unless it is the name of a
    global tool, which takes precedence. *)
Theorem routeTool_crud (name operation objectName : string) :
  (matchCrudTool name = Some (operation, objectName)
   <-> name = operation +:+ "_" +:+ objectName
       /\ operation ∈ crudOperations
       /\ objectName <> ""
       /\ noLineTerminator objectName = true)
  /\ (routeTool name = CrudHandler operation objectName
      <-> matchCrudTool name = Some (operation, objectName)
          /\ name ∉ globalToolNames).
Proof. split; [apply matchCrudTool_spec | apply routeTool_spec]. Qed.

(** X10. The five tools generated for a supported object of a rebuilt
    registry are served: when the singular and the plural name of the
    object have no surrounding white space and no line terminator, and no
    tool bears the name of a global tool, the names of the tools are
    routed, in order, to [create], [get], [update] on the singular name,
    [list] on the plural name and [delete] on the singular name, and both
    names resolve to a supported object. *)
Theorem generated_tools_are_served (metadata : Metadata N) (schema : Schema N) :
  schema ∈ supportedObjects (rebuildRegistry metadata) ->
  Str.trim (nameSingular schema) = nameSingular schema ->
  noLineTerminator (nameSingular schema) = true ->
  Str.trim (namePlural schema) = namePlural schema ->
  noLineTerminator (namePlural schema) = true ->
  Forall (fun tool => toolName tool ∉ globalToolNames) (objectTools schema) ->
  map (fun tool => routeTool (toolName tool)) (objectTools schema)
  = [CrudHandler "create" (nameSingular schema);
     CrudHandler "get" (nameSingular schema);
     CrudHandler "update" (nameSingular schema);
     CrudHandler "list" (namePlural schema);
     CrudHandler "delete" (nameSingular schema)]
  /\ (exists resolved key,
        resolveObject (rebuildRegistry metadata) (JStr (nameSingular schema))
        = Some (resolved, key)
        /\ resolved ∈ supportedObjects (rebuildRegistry metadata))
  /\ (exists resolved key,
        resolveObject (rebuildRegistry metadata) (JStr (namePlural schema))
        = Some (resolved, key)
        /\ resolved ∈ supportedObjects (rebuildRegistry metadata)).
Proof.
  intros Hin Hstrim Hsline Hptrim Hpline Hglobal.
  assert (Hok := rebuildRegistry_ok metadata).
  destruct (ok_stored _ Hok _ _ (ok_supported _ Hok _ Hin)) as (_ & Hp & Hs & _).
  destruct (ok_names _ Hok _ Hin) as [Hpa Hsa].
  assert (Hresolve : forall name,
             name <> "" ->
             is_Some (objectAliases (rebuildRegistry metadata)
                      !! Str.toLowerCase (Str.trim name)) ->
             exists resolved key,
               resolveObject (rebuildRegistry metadata) (JStr name) = Some (resolved, key)
               /\ resolved ∈ supportedObjects (rebuildRegistry metadata)).
  { intros name Hname Halias.
    destruct (resolveObject_alias _ name Hok Hname Halias) as [[resolved key] Hres].
    exists resolved, key. split; [exact Hres|].
    now destruct (resolveObject_Some _ _ _ _ Hok Hres). }
  split; [|split].
  - unfold objectTools in *. cbn [map toolName] in *.
    repeat match goal with
           | H : Forall _ (_ :: _) |- _ =>
               apply Forall_cons in H; cbn [toolName] in H; destruct H as [? H]
           end.
    repeat f_equal;
      apply routeTool_spec; (split; [|assumption]);
      apply matchCrudTool_spec; (split; [reflexivity|]);
      (split; [apply list_elem_of_In; cbn; tauto|]); auto.
  - apply Hresolve; [exact Hs | now rewrite Hstrim].
  - apply Hresolve; [exact Hp | now rewrite Hptrim].
Qed.

(** X11. A CRUD call submits at most one request. It is rejected before any
    request when the object does not resolve, when the operation is none of
    the five, when [get], [update] or [delete] comes without a truthy [id]
    or with an [id] that has no string conversion, and when building the
    query of [list] throws. Otherwise exactly one request is submitted,
    under the plural name of the resolved object; its body has no [id] key
    and is empty unless the method is POST or PUT; a throw of the backend
    is thrown on, and an answer gives a result. *)
Theorem handleCRUDOperation_requests
        (listQuery : JsVal N -> Result string) (reg : Registry N)
        (operation objectName : string) (args : JsVal N)
        (backend : Backend N) (log : list (Request N)) :
  let outcome := handleCRUDOperation listQuery reg operation objectName args backend log in
  let rejected :=
    resolveObject reg (JStr objectName) = None
    \/ operation ∉ crudOperations
    \/ (operation ∈ ["get"; "update"; "delete"]
        /\ (truthy (prop args "id") = false \/ stringifiable (prop args "id") = false))
    \/ (operation = "list" /\ exists msg, listQuery args = Throw msg) in
  (rejected -> snd outcome = log /\ exists msg, fst outcome = Throw msg)
  /\ (~ rejected ->
      exists schema key request,
        resolveObject reg (JStr objectName) = Some (schema, key)
        /\ snd outcome = (log ++ [request])%list
        /\ (exists rest, endpoint request = "/rest/" +:+ namePlural schema +:+ rest)
        /\ body request !! "id" = None
        /\ (method request ∈ ["POST"; "PUT"] \/ body request = ∅)
        /\ (forall msg, backend (log ++ [request])%list = Throw msg ->
                        fst outcome = Throw msg)
        /\ (forall answer, backend (log ++ [request])%list = Ok answer ->
                           exists result, fst outcome = Ok result)).
Proof.
  assert (Hnoid : forall payload schema,
             sanitizePayload (N := N) payload schema !! "id" = None).
  { intros payload schema. unfold sanitizePayload.
    destruct (negb (truthy payload) || negb (typeof payload =? "object"));
      [apply lookup_empty | apply lookup_delete_eq]. }
  cbv zeta. unfold handleCRUDOperation.
  destruct (resolveObject reg (JStr objectName)) as [[schema key]|] eqn:Hres.
  2:{ split; [intros _; cbn; eauto | intros Hnot; exfalso; apply Hnot; now left]. }
  assert (Hrun : forall e m data (k : JsVal N -> string * JsVal N),
             (exists rest, e = "/rest/" +:+ namePlural schema +:+ rest) ->
             data !! "id" = None ->
             (m ∈ ["POST"; "PUT"] \/ data = ∅) ->
             let outcome :=
               bind (makeRequest e m data) (fun created => ret (k created)) backend log in
             exists schema' key' request,
               Some (schema, key) = Some (schema', key')
               /\ snd outcome = (log ++ [request])%list
               /\ (exists rest, endpoint request
                                = "/rest/" +:+ namePlural schema' +:+ rest)
               /\ body request !! "id" = None
               /\ (method request ∈ ["POST"; "PUT"] \/ body request = ∅)
               /\ (forall msg, backend (log ++ [request])%list = Throw msg ->
                               fst outcome = Throw msg)
               /\ (forall answer, backend (log ++ [request])%list = Ok answer ->
                                  exists result, fst outcome = Ok result)).
  { intros e m data k He Hid Hbody. cbv zeta.
    exists schema, key, {| endpoint := e; method := m; body := data |}.
    unfold bind, makeRequest, ret.
    destruct (backend _) as [answer | msg] eqn:Hb; cbn [fst snd endpoint method body];
      repeat split; try assumption; try (intros; congruence); eauto. }
  assert (Hkeyed : forall op, op ∈ ["get"; "update"; "delete"] ->
             truthy (prop args "id") = true -> stringifiable (prop args "id") = true ->
             ~ (Some (schema, key) = None
                \/ op ∉ crudOperations
                \/ (op ∈ ["get"; "update"; "delete"]
                    /\ (truthy (prop args "id") = false
                        \/ stringifiable (prop args "id") = false))
                \/ (op = "list" /\ exists msg, listQuery args = Throw msg))).
  { intros op Hop Hid Hstr [H | [H | [[_ [H | H]] | [-> _]]]]; try congruence.
    - apply H. apply list_elem_of_In. apply list_elem_of_In in Hop. cbn in Hop |- *. tauto.
    - apply list_elem_of_In in Hop. cbn in Hop. intuition discriminate. }
  assert (Hunkeyed : forall op, op ∈ ["get"; "update"; "delete"] ->
             truthy (prop args "id") = false \/ stringifiable (prop args "id") = false ->
             (Some (schema, key) = None
                \/ op ∉ crudOperations
                \/ (op ∈ ["get"; "update"; "delete"]
                    /\ (truthy (prop args "id") = false
                        \/ stringifiable (prop args "id") = false))
                \/ (op = "list" /\ exists msg, listQuery args = Throw msg))).
  { intros op Hop Hid. right. right. left. now split. }
  destruct (String.eqb_spec operation "create") as [-> | Hcreate].
  { split.
    - intros [H | [H | [[H _] | [H _]]]]; [discriminate H | | | discriminate H]; exfalso.
      + apply H. apply list_elem_of_In. cbn. tauto.
      + apply list_elem_of_In in H. cbn in H. intuition discriminate.
    - intros _. apply (Hrun _ _ _ (fun created => (_, created))).
      + exists "". now rewrite append_empty_r.
      + apply Hnoid.
      + left. apply list_elem_of_In. cbn. tauto. }
  destruct (String.eqb_spec operation "get") as [-> | Hget].
  { assert (Hop : "get" ∈ ["get"; "update"; "delete"])
      by (apply list_elem_of_In; cbn; tauto).
    destruct (truthy (prop args "id")) eqn:Hid; cbn [negb];
      [destruct (stringifiable (prop args "id")) eqn:Hstr; cbn [negb]|].
    - split; [intros H; now destruct (Hkeyed _ Hop eq_refl eq_refl)|].
      intros _. apply (Hrun _ _ _ (fun item => (_, item))).
      + eexists. reflexivity.
      + apply lookup_empty.
      + now right.
    - split; [intros _; cbn; eauto|].
      intros Hnot. exfalso. apply Hnot, (Hunkeyed _ Hop). now right.
    - split; [intros _; cbn; eauto|].
      intros Hnot. exfalso. apply Hnot, (Hunkeyed _ Hop). now left. }
  destruct (String.eqb_spec operation "update") as [-> | Hupdate].
  { assert (Hop : "update" ∈ ["get"; "update"; "delete"])
      by (apply list_elem_of_In; cbn; tauto).
    destruct (truthy (prop args "id")) eqn:Hid; cbn [negb];
      [destruct (stringifiable (prop args "id")) eqn:Hstr; cbn [negb]|].
    - split; [intros H; now destruct (Hkeyed _ Hop eq_refl eq_refl)|].
      intros _. apply (Hrun _ _ _ (fun updated => (_, updated))).
      + eexists. reflexivity.
      + apply Hnoid.
      + left. apply list_elem_of_In. cbn. tauto.
    - split; [intros _; cbn; eauto|].
      intros Hnot. exfalso. apply Hnot, (Hunkeyed _ Hop). now right.
    - split; [intros _; cbn; eauto|].
      intros Hnot. exfalso. apply Hnot, (Hunkeyed _ Hop). now left. }
  destruct (String.eqb_spec operation "list") as [-> | Hlist].
  { destruct (listQuery args) as [queryString | message] eqn:Hquery.
    - split.
      + intros [H | [H | [[H _] | [_ [msg H]]]]];
          [discriminate H | | | discriminate H]; exfalso.
        * apply H. apply list_elem_of_In. cbn. tauto.
        * apply list_elem_of_In in H. cbn in H. intuition discriminate.
      + intros _. apply (Hrun _ _ _ (fun list => (_, buildListPayload list))).
        * eexists. reflexivity.
        * apply lookup_empty.
        * now right.
    - split; [intros _; cbn; eauto|].
      intros Hnot. exfalso. apply Hnot. right. right. right. split; eauto. }
  destruct (String.eqb_spec operation "delete") as [-> | Hdelete].
  { assert (Hop : "delete" ∈ ["get"; "update"; "delete"])
      by (apply list_elem_of_In; cbn; tauto).
    destruct (truthy (prop args "id")) eqn:Hid; cbn [negb];
      [destruct (stringifiable (prop args "id")) eqn:Hstr; cbn [negb]|].
    - split; [intros H; now destruct (Hkeyed _ Hop eq_refl eq_refl)|].
      intros _. apply (Hrun _ _ _ (fun _ => (_, JUndefined))).
      + eexists. reflexivity.
      + apply lookup_empty.
      + now right.
    - split; [intros _; cbn; eauto|].
      intros Hnot. exfalso. apply Hnot, (Hunkeyed _ Hop). now right.
    - split; [intros _; cbn; eauto|].
      intros Hnot. exfalso. apply Hnot, (Hunkeyed _ Hop). now left. }
  split; [intros _; cbn; eauto|].
  intros Hnot. exfalso. apply Hnot. right. left.
  intros Hin. apply list_elem_of_In in Hin. cbn in Hin. intuition congruence.
Qed.

End HandlerProperties.

(** [generated_tools_are_served] at the object [people] of the example
    export. *)
Lemma generated_tools_are_served_people :
  exists schema,
    generateToolSchema peopleMetadata "people" = Some schema
    /\ map (fun tool => Handlers.routeTool (toolName tool)) (objectTools schema)
       = [Handlers.CrudHandler "create" "person";
          Handlers.CrudHandler "get" "person";
          Handlers.CrudHandler "update" "person";
          Handlers.CrudHandler "list" "people";
          Handlers.CrudHandler "delete" "person"].
Proof.
  eexists. split; [reflexivity|].
  refine (proj1 (generated_tools_are_served peopleMetadata _ _ _ _ _ _ _)).
  - apply list_elem_of_In. vm_compute. left. reflexivity.
  - vm_compute. reflexivity.
  - vm_compute. reflexivity.
  - vm_compute. reflexivity.
  - vm_compute. reflexivity.
  - unfold objectTools.
    repeat (apply List.Forall_cons;
            [intros Hin; apply has_elem_of in Hin; vm_compute in Hin; discriminate Hin|]).
    apply List.Forall_nil.
Defined.

(** A [get] whose [id] is the object [{ toString: null }]: the endpoint
    cannot be built, and nothing is requested. *)
Example handleCRUDOperation_unconvertible_id :
  Handlers.handleCRUDOperation
    (fun _ => Ok "") registryWithJoin "get" "people"
    (JObj [("id", JObj [("toString", JNull)])]) answeringBackend []
  = (Throw Handlers.conversionError, []).
Proof. vm_compute. reflexivity. Qed.

(** ** Contracts registered on demand *)

Section OnDemandProperties.
Context {N : Type} `{!JsNumber N}.
Import Handlers.

(** A name that resolves after a registration and did not resolve before
    resolves to the registered contract. *)
Lemma resolveObject_registered (schema : Schema N) (reg : Registry N)
      (objectName : JsVal N) (resolved : Schema N) (key : string) :
  resolveObject reg objectName = None ->
  resolveObject (registerObjectSchema schema reg) objectName = Some (resolved, key) ->
  registerObjectSchema schema reg <> reg
  /\ resolved = schema /\ key = Str.toLowerCase (namePlural schema).
Proof.
  intros Hbefore Hafter.
  destruct (registerObjectSchema_cases schema reg) as [[_ Hsame] | (_ & _ & Hfree & Hnew)].
  { rewrite Hsame in Hafter. congruence. }
  split.
  { intros Hsame. rewrite Hsame in Hafter. congruence. }
  unfold resolveObject in *.
  destruct (negb (truthy objectName)); [discriminate|].
  destruct (objectAliases (registerObjectSchema schema reg) !! _) as [k|] eqn:Halias;
    [|discriminate].
  destruct (negb (Str.nonEmpty k)) eqn:Hk; [discriminate|].
  destruct (objectSchemas (registerObjectSchema schema reg) !! k) as [s|] eqn:Hs;
    [|discriminate].
  injection Hafter as -> ->.
  destruct (decide (key = Str.toLowerCase (namePlural schema))) as [-> | Hne].
  - rewrite Hnew in Hs. cbn [objectSchemas] in Hs. rewrite lookup_insert_eq in Hs.
    injection Hs as ->. auto.
  - exfalso. apply registerObjectSchema_alias in Halias.
    destruct Halias as [-> | Hold]; [now apply Hne|].
    rewrite Hold, Hk in Hbefore.
    rewrite registerObjectSchema_lookup_ne in Hs by congruence.
    rewrite Hs in Hbefore. discriminate.
Qed.

(** The two ways [getLocalObjectSchema] ends: with the registry as it was,
    or with a contract compiled from the export and registered. *)
Lemma getLocalObjectSchema_cases
      (metadata : Metadata N) (reg : Registry N) (objectName : JsVal N) :
  (exists result, getLocalObjectSchema metadata reg objectName = (result, reg))
  \/ (exists name generated,
        objectName = JStr name
        /\ Str.nonEmpty name = true
        /\ resolveObject reg (JStr name) = None
        /\ generateToolSchema metadata name = Some generated
        /\ objectSchemas reg !! Str.toLowerCase (namePlural generated) = None
        /\ objectSchemas (registerObjectSchema generated reg)
           !! Str.toLowerCase (namePlural generated) = Some generated
        /\ supportedObjects (registerObjectSchema generated reg)
           = (supportedObjects reg ++ [generated])%list
        /\ getLocalObjectSchema metadata reg objectName
           = (Ok generated, registerObjectSchema generated reg)).
Proof.
  unfold getLocalObjectSchema.
  destruct (negb (truthy objectName)) eqn:Htruthy; [left; eauto|].
  destruct (resolveObject reg objectName) as [[schema key]|] eqn:Hresolve; [left; eauto|].
  destruct metadata as [objects|]; [|left; eauto].
  destruct objectName as [| |b|n|name|items|entries]; try (left; eauto; fail).
  destruct (generateToolSchema (Some objects) name) as [generated|] eqn:Hgenerated;
    [|left; eauto].
  destruct (bool_decide_reflect
              (is_Some (objectSchemas reg !! Str.toLowerCase (namePlural generated))))
    as [Htaken | Hfree]; [left; eauto|].
  apply eq_None_not_Some in Hfree.
  destruct (registerObjectSchema_cases generated reg)
    as [[_ Hsame] | (Hp & Hs & _ & Hnew)].
  { left. rewrite Hsame. eauto. }
  right. exists name, generated. cbn [truthy] in Htruthy.
  apply negb_false_iff in Htruthy.
  repeat (split; [first [reflexivity | assumption]|]).
  split; [|split; [|reflexivity]].
  - rewrite Hnew. cbn [objectSchemas]. apply lookup_insert_eq.
  - now rewrite Hnew.
Qed.

(** X12. [getLocalObjectSchema] changes the registry in one way only: when it
    reports a contract compiled from the export whose plural key is free,
    it registers that contract, after the supported objects. A throw
    leaves the registry as it was; a stored contract is never replaced; a
    consistent registry stays consistent; and asking again gives the same
    answer and changes nothing more. *)
Theorem getLocalObjectSchema_frame
        (metadata : Metadata N) (reg : Registry N) (objectName : JsVal N) :
  let outcome := getLocalObjectSchema metadata reg objectName in
  (forall msg, fst outcome = Throw msg -> snd outcome = reg)
  /\ (forall schema,
        fst outcome = Ok schema ->
        snd outcome = reg
        \/ (objectSchemas reg !! Str.toLowerCase (namePlural schema) = None
            /\ objectSchemas (snd outcome) !! Str.toLowerCase (namePlural schema)
               = Some schema
            /\ supportedObjects (snd outcome) = (supportedObjects reg ++ [schema])%list))
  /\ (forall key stored,
        objectSchemas reg !! key = Some stored ->
        objectSchemas (snd outcome) !! key = Some stored)
  /\ (RegistryOk reg -> RegistryOk (snd outcome))
  /\ getLocalObjectSchema metadata (snd outcome) objectName = outcome.
Proof.
  cbv zeta.
  destruct (getLocalObjectSchema_cases metadata reg objectName)
    as [[result Hcall]
       | (name & generated & -> & Hname & Hresolve & Hgenerated & Hfree & Hstored
          & Hsupported & Hcall)];
    rewrite Hcall; cbn [fst snd].
  { split; [auto|]. split; [auto|]. split; [auto|]. split; [auto | exact Hcall]. }
  split; [discriminate|]. split; [|split; [|split]].
  - intros schema [= <-]. right. auto.
  - intros key stored. apply registerObjectSchema_kept.
  - apply registerObjectSchema_ok.
  - unfold getLocalObjectSchema. cbn [truthy]. rewrite Hname. cbn [negb].
    destruct (resolveObject (registerObjectSchema generated reg) (JStr name))
      as [[resolved key]|] eqn:Hagain.
    + destruct (resolveObject_registered _ _ _ _ _ Hresolve Hagain) as (_ & -> & _).
      reflexivity.
    + destruct metadata as [objects|]; [|discriminate Hgenerated].
      rewrite Hgenerated. rewrite bool_decide_eq_true_2; [reflexivity|].
      rewrite Hstored. eauto.
Qed.

(** X13. A contract that the export can give, that no name of the registry
    resolves and whose plural key is free is registered by
    [getLocalObjectSchema]: it is reported, it is stored under its
    lower-cased plural name, and its plural and singular names resolve to
    it from then on, when written without surrounding white space. *)
Theorem getLocalObjectSchema_registers
        (metadata : Metadata N) (reg : Registry N) (name : string) (generated : Schema N) :
  generateToolSchema metadata name = Some generated ->
  resolveObject reg (JStr name) = None ->
  objectSchemas reg !! Str.toLowerCase (namePlural generated) = None ->
  namePlural generated <> "" ->
  nameSingular generated <> "" ->
  let outcome := getLocalObjectSchema metadata reg (JStr name) in
  fst outcome = Ok generated
  /\ objectSchemas (snd outcome) !! Str.toLowerCase (namePlural generated) = Some generated
  /\ (forall alias,
        alias = namePlural generated \/ alias = nameSingular generated ->
        Str.trim alias = alias ->
        resolveObject (snd outcome) (JStr alias)
        = Some (generated, Str.toLowerCase (namePlural generated))).
Proof.
  intros Hgenerated Hresolve Hfree Hp Hs. cbv zeta.
  assert (Hname : Str.nonEmpty name = true).
  { destruct name; [|reflexivity]. unfold generateToolSchema, getObjectByName in Hgenerated.
    destruct metadata; discriminate. }
  unfold getLocalObjectSchema. cbn [truthy]. rewrite Hname, Hresolve. cbn [negb].
  destruct metadata as [objects|]; [|discriminate Hgenerated].
  rewrite Hgenerated.
  rewrite bool_decide_eq_false_2 by (rewrite Hfree; now apply is_Some_None).
  cbn [fst snd].
  destruct (registerObjectSchema_cases generated reg)
    as [[[H | [H | H]] _] | (_ & _ & _ & Hnew)].
  { contradiction. }
  { contradiction. }
  { rewrite Hfree in H. now apply is_Some_None in H. }
  assert (Hstored : objectSchemas (registerObjectSchema generated reg)
                    !! Str.toLowerCase (namePlural generated) = Some generated).
  { rewrite Hnew. cbn [objectSchemas]. apply lookup_insert_eq. }
  split; [reflexivity|]. split; [exact Hstored|].
  intros alias Halias Htrim.
  assert (Hkey : objectAliases (registerObjectSchema generated reg)
                 !! Str.toLowerCase alias = Some (Str.toLowerCase (namePlural generated))).
  { rewrite Hnew. cbn [objectAliases].
    assert (Hset : forall label (aliases : gmap string string) n,
               aliases !! n = Some (Str.toLowerCase (namePlural generated)) ->
               setAlias label (Str.toLowerCase (namePlural generated)) aliases !! n
               = Some (Str.toLowerCase (namePlural generated))).
    { intros label aliases n Hn. unfold setAlias. destruct label as [l|]; [|exact Hn].
      destruct (Str.nonEmpty l); [|exact Hn].
      destruct (decide (Str.toLowerCase l = n)) as [<- | Hne].
      - apply lookup_insert_eq.
      - now rewrite lookup_insert_ne. }
    do 2 apply Hset.
    destruct (decide (Str.toLowerCase (nameSingular generated) = Str.toLowerCase alias))
      as [<- | Hne]; [apply lookup_insert_eq|].
    rewrite lookup_insert_ne by exact Hne.
    destruct Halias as [-> | ->]; [apply lookup_insert_eq | contradiction]. }
  unfold resolveObject. cbn [truthy toString].
  assert (Hnonempty : Str.nonEmpty alias = true).
  { apply nonEmpty_true. destruct Halias; congruence. }
  rewrite Hnonempty, Htrim, Hkey. cbn [negb].
  apply nonEmpty_true in Hp. rewrite nonEmpty_toLowerCase, Hp. cbn [negb].
  now rewrite Hstored.
Qed.

End OnDemandProperties.

(** [getLocalObjectSchema_registers] at the join object of the example
    export: the registry rebuilt from the export has no join contract, and
    asking for the local schema of [noteTargets] registers it. *)
Lemma getLocalObjectSchema_registers_join :
  objectSchemas (rebuildRegistry joinMetadata) !! "notetargets" = None
  /\ exists generated,
       generateToolSchema joinMetadata "noteTargets" = Some generated
       /\ objectSchemas
            (snd (Handlers.getLocalObjectSchema joinMetadata (rebuildRegistry joinMetadata)
                                                (JStr "noteTargets")))
          !! "notetargets" = Some generated.
Proof.
  split; [vm_compute; reflexivity|].
  eexists. split; [reflexivity|].
  refine (proj1 (proj2 (getLocalObjectSchema_registers
                          joinMetadata (rebuildRegistry joinMetadata) "noteTargets" _
                          eq_refl _ _ _ _))).
  - vm_compute. reflexivity.
  - vm_compute. reflexivity.
  - discriminate.
  - discriminate.
Defined.

(** ** Schema files *)

Section SchemaFileProperties.
Context {N : Type} `{!JsNumber N} {Time : Type} `{!EqDecision Time} {Ops : Type}.
Import SchemaFiles.

Lemma statDiffers_false (a b : FileStat Time) : statDiffers a b = false <-> a = b.
Proof.
  unfold statDiffers. rewrite orb_false_iff, !negb_false_iff.
  rewrite bool_decide_eq_true, Nat.eqb_eq.
  destruct a as [ta sa], b as [tb sb]. cbn. split.
  - now intros [-> ->].
  - now intros [= -> ->].
Qed.

Lemma statDiffers_refl (a : FileStat Time) : statDiffers a a = false.
Proof. now apply statDiffers_false. Qed.

(** What a successful [loadSchemas] leaves. *)
Lemma loadSchemas_true (force : bool) (dir : SchemaDir N Time Ops)
      (loader loader' : Loader N Time Ops) :
  force = true \/ LoaderOk loader ->
  loadSchemas force dir loader = (true, loader') ->
  LoaderOk loader'
  /\ isSome_nonEmpty (schemaPath loader') = true
  /\ schemaPath loader' = schemaPath loader
  /\ is_Some (loaderMetadata loader')
  /\ is_Some (statMetadata loader')
  /\ (statMetadata loader', statOperations loader') = signatures dir.
Proof.
  intros Hok. unfold loadSchemas, signatures.
  destruct (isSome_nonEmpty (schemaPath loader)) eqn:Hpath; [|discriminate]. cbn [negb].
  destruct (metadataFile dir) as [mfile|]; [|discriminate]. cbn [fmap option_fmap option_map].
  set (changed := force || _).
  assert (Hafter :
            forall after,
              (if changed
               then match fileParsed mfile with
                    | None => None
                    | Some objects =>
                        Some {| loaderMetadata := Some objects;
                                loaderOperations := loaderOperations loader;
                                schemaPath := schemaPath loader;
                                statMetadata := Some (fileStat mfile);
                                statOperations := statOperations loader |}
                    end
               else Some loader) = Some after ->
              is_Some (loaderMetadata after)
              /\ statMetadata after = Some (fileStat mfile)
              /\ schemaPath after = schemaPath loader
              /\ loaderOperations after = loaderOperations loader
              /\ statOperations after = statOperations loader
              /\ (force = true \/ LoaderOk loader)).
  { intros after. destruct changed eqn:Hchanged.
    - destruct (fileParsed mfile) as [objects|]; [|discriminate].
      intros [= <-]. cbn. repeat split; eauto.
    - intros [= <-]. unfold changed in Hchanged.
      apply orb_false_iff in Hchanged. destruct Hchanged as [-> Hstat].
      destruct Hok as [Hforce | Hok]; [discriminate|].
      destruct (statMetadata loader) as [known|] eqn:Hknown; [|discriminate].
      apply statDiffers_false in Hstat. subst known.
      repeat split; auto. apply Hok. rewrite Hknown. eauto. }
  destruct (if changed then _ else _) as [after|]; [|discriminate].
  destruct (Hafter after eq_refl) as (Hmeta & Hstat & Hsame & Hops & Hopstat & Hok').
  clear Hafter. clearbody changed.
  assert (Hpath' : isSome_nonEmpty (schemaPath after) = true) by now rewrite Hsame.
  destruct (operationsFile dir) as [ofile|]; cbn [fmap option_fmap option_map].
  - set (ochanged := force || _). destruct ochanged eqn:Hochanged.
    + destruct (fileParsed ofile) as [operations|]; [|discriminate].
      intros [= <-]. cbn. rewrite Hstat.
      repeat split; eauto.
    + intros [= <-]. unfold ochanged in Hochanged.
      apply orb_false_iff in Hochanged. destruct Hochanged as [-> Hostat].
      destruct Hok' as [Hforce | [Hm Ho]]; [discriminate|].
      destruct (statOperations after) as [known|] eqn:Hknown; [|discriminate].
      apply statDiffers_false in Hostat. subst known.
      rewrite Hstat. split; [|repeat split; eauto].
      split.
      * split; eauto.
      * rewrite Hops, Hknown, Hopstat. exact Ho.
  - intros [= <-]. cbn. rewrite Hstat.
    split; [|repeat split; eauto].
    split; split; eauto; intros H; now apply is_Some_None in H.
Qed.

(** A loader that holds the signatures of the files detects no change. *)
Lemma hasSchemaChanged_settled (dir : SchemaDir N Time Ops) (loader : Loader N Time Ops) :
  is_Some (loaderMetadata loader) ->
  is_Some (statMetadata loader) ->
  (statMetadata loader, statOperations loader) = signatures dir ->
  hasSchemaChanged dir loader = false.
Proof.
  intros [objects Hobjects] [known Hknown]. unfold signatures, hasSchemaChanged.
  intros [= Hm Ho]. destruct (negb _); [reflexivity|].
  rewrite Hobjects, Hknown. rewrite Hknown in Hm.
  destruct (metadataFile dir) as [mfile|]; [|discriminate]. injection Hm as ->.
  rewrite statDiffers_refl.
  destruct (operationsFile dir) as [ofile|]; cbn in Ho; rewrite Ho.
  - apply statDiffers_refl.
  - apply bool_decide_eq_false_2. now apply is_Some_None.
Qed.

(** X14. A load that succeeds, whether forced or on a loader that holds
    content and signatures together, leaves the export, the signatures of
    both files as they are on disk and the schema path as it was; from
    then on, as long as the signatures on disk stay, no change is detected
    and a load that is not forced changes nothing. *)
Theorem loadSchemas_settles (force : bool) (dir : SchemaDir N Time Ops)
        (loader loader' : Loader N Time Ops) :
  force = true \/ LoaderOk loader ->
  loadSchemas force dir loader = (true, loader') ->
  LoaderOk loader'
  /\ is_Some (loaderMetadata loader')
  /\ (statMetadata loader', statOperations loader') = signatures dir
  /\ schemaPath loader' = schemaPath loader
  /\ (forall dir' : SchemaDir N Time Ops,
        signatures dir' = signatures dir ->
        hasSchemaChanged dir' loader' = false
        /\ loadSchemas false dir' loader' = (true, loader')).
Proof.
  intros Hok Hload.
  destruct (loadSchemas_true _ _ _ _ Hok Hload)
    as (Hok' & Hpath & Hsame & Hmeta & Hstat & Hsig).
  repeat (split; [assumption|]).
  intros dir' Hdir'. split.
  - apply hasSchemaChanged_settled; [assumption.. | congruence].
  - rewrite <- Hdir' in Hsig. unfold signatures in Hsig. injection Hsig as Hm Ho.
    unfold loadSchemas. rewrite Hpath. cbn [negb orb].
    destruct (metadataFile dir') as [mfile|];
      [|rewrite Hm in Hstat; now apply is_Some_None in Hstat].
    cbn in Hm. rewrite Hm, statDiffers_refl.
    destruct (operationsFile dir') as [ofile|]; cbn in Ho.
    + rewrite Ho, statDiffers_refl. reflexivity.
    + destruct Hok' as [_ Hops]. rewrite Ho in Hops.
      assert (Hnone : loaderOperations loader' = None).
      { destruct (loaderOperations loader') as [ops|]; [|reflexivity].
        exfalso. apply (is_Some_None (A := FileStat Time)), Hops. eauto. }
      rewrite <- Hnone, <- Ho. now destruct loader'.
Qed.

(** X15. Change detection looks at signatures only. For a loader with a
    schema path that holds an export, no change is detected exactly when
    the loader holds a signature of the metadata file and its two
    signatures are those of the files on disk (a missing operations file
    going with no signature); so a file rewritten with the same
    modification time and size is not reloaded. *)
Theorem hasSchemaChanged_exact (dir : SchemaDir N Time Ops) (loader : Loader N Time Ops) :
  isSome_nonEmpty (schemaPath loader) = true ->
  is_Some (loaderMetadata loader) ->
  hasSchemaChanged dir loader = false
  <-> is_Some (statMetadata loader)
      /\ (statMetadata loader, statOperations loader) = signatures dir.
Proof.
  intros Hpath Hmeta. split.
  2:{ intros [Hstat Hsig]. now apply hasSchemaChanged_settled. }
  destruct Hmeta as [objects Hobjects]. unfold hasSchemaChanged, signatures.
  rewrite Hpath, Hobjects. cbn [negb].
  destruct (metadataFile dir) as [mfile|].
  2:{ intros H. apply bool_decide_eq_false in H. exfalso. apply H. eauto. }
  destruct (statMetadata loader) as [known|]; [|discriminate].
  destruct (statDiffers (fileStat mfile) known) eqn:Hstat; [discriminate|].
  apply statDiffers_false in Hstat. subst known.
  destruct (operationsFile dir) as [ofile|]; cbn.
  - destruct (statOperations loader) as [oknown|]; [|discriminate].
    intros Ho. apply statDiffers_false in Ho. subst oknown. eauto.
  - intros Ho. apply bool_decide_eq_false in Ho.
    destruct (statOperations loader) as [oknown|]; [exfalso; apply Ho; eauto|]. eauto.
Qed.

(** A forced load reads both files whatever the loader holds, so forcing it
    again on what it left gives the same. *)
Lemma loadSchemas_force_again (dir : SchemaDir N Time Ops) (loader : Loader N Time Ops) :
  loadSchemas true dir (snd (loadSchemas true dir loader)) = loadSchemas true dir loader.
Proof.
  unfold loadSchemas at 2. cbn [orb].
  destruct (isSome_nonEmpty (schemaPath loader)) eqn:Hpath; cbn [negb snd].
  2:{ unfold loadSchemas. now rewrite Hpath. }
  destruct (metadataFile dir) as [mfile|] eqn:Hmfile; cbn [snd].
  2:{ unfold loadSchemas. now rewrite Hpath, Hmfile. }
  destruct (fileParsed mfile) as [objects|] eqn:Hobjects; cbn [snd].
  2:{ unfold loadSchemas. now rewrite Hpath, Hmfile, Hobjects. }
  destruct (operationsFile dir) as [ofile|] eqn:Hofile; cbn [snd].
  - destruct (fileParsed ofile) as [operations|] eqn:Hoperations; cbn [snd];
      unfold loadSchemas; cbn; now rewrite Hpath, Hmfile, Hobjects, Hofile, Hoperations.
  - unfold loadSchemas; cbn; now rewrite Hpath, Hmfile, Hobjects, Hofile.
Qed.

Lemma refreshSchemaIfChanged_failed (dir : SchemaDir N Time Ops)
      (loader : Loader N Time Ops) (reg : Registry N) :
  loadSchemas true dir loader = (false, loader) ->
  refreshSchemaIfChanged dir (loader, reg) = (loader, reg).
Proof.
  intros Hload. unfold refreshSchemaIfChanged. cbn [fst snd]. rewrite Hload. cbn [fst snd negb].
  destruct (loaderMetadata loader); [|reflexivity].
  now destruct (hasSchemaChanged dir loader).
Qed.

Lemma refreshSchemaIfChanged_settled (dir : SchemaDir N Time Ops)
      (loader loader' : Loader N Time Ops) (reg : Registry N) :
  loadSchemas true dir loader = (true, loader') ->
  refreshSchemaIfChanged dir (loader', reg) = (loader', reg).
Proof.
  intros Hload.
  destruct (loadSchemas_true true dir loader loader' (or_introl eq_refl) Hload)
    as (_ & _ & _ & Hmeta & Hstat & Hsig).
  unfold refreshSchemaIfChanged. cbn [fst snd].
  destruct Hmeta as [objects Hobjects]. rewrite Hobjects.
  rewrite hasSchemaChanged_settled; [reflexivity | rewrite Hobjects; eauto | assumption..].
Qed.

Lemma loadSchemas_schemaPath (force : bool) (dir : SchemaDir N Time Ops)
      (loader : Loader N Time Ops) :
  schemaPath (snd (loadSchemas force dir loader)) = schemaPath loader.
Proof.
  unfold loadSchemas.
  destruct (negb _); [reflexivity|].
  destruct (metadataFile dir) as [mfile|]; [|reflexivity].
  destruct (force || _).
  - destruct (fileParsed mfile); [|reflexivity].
    destruct (operationsFile dir) as [ofile|]; [|reflexivity].
    destruct (force || _); [|reflexivity]. now destruct (fileParsed ofile).
  - destruct (operationsFile dir) as [ofile|]; [|reflexivity].
    destruct (force || _); [|reflexivity]. now destruct (fileParsed ofile).
Qed.

(** X16. [refreshSchemaIfChanged] either leaves the registry as it was or
    replaces it by the registry rebuilt from the export just loaded, after
    which no change is detected; whatever had been registered otherwise is
    gone then. The schema path stays. And refreshing again, with the
    same files on disk, changes nothing: also after a load that failed. *)
Theorem refreshSchemaIfChanged_idempotent
        (dir : SchemaDir N Time Ops) (server : Loader N Time Ops * Registry N) :
  let server' := refreshSchemaIfChanged dir server in
  refreshSchemaIfChanged dir server' = server'
  /\ schemaPath (fst server') = schemaPath (fst server)
  /\ (snd server' = snd server
      \/ (is_Some (loaderMetadata (fst server'))
          /\ snd server' = rebuildRegistry (loaderMetadata (fst server'))
          /\ hasSchemaChanged dir (fst server') = false)).
Proof.
  destruct server as [loader reg]. cbv zeta.
  assert (Hagain := loadSchemas_force_again dir loader).
  assert (Hpath := loadSchemas_schemaPath true dir loader).
  assert (Hcases :
            refreshSchemaIfChanged dir (loader, reg) = (loader, reg)
            \/ refreshSchemaIfChanged dir (loader, reg)
               = (if fst (loadSchemas true dir loader)
                  then (snd (loadSchemas true dir loader),
                        rebuildRegistry (loaderMetadata (snd (loadSchemas true dir loader))))
                  else (snd (loadSchemas true dir loader), reg))).
  { unfold refreshSchemaIfChanged. cbn [fst snd].
    destruct (loaderMetadata loader); [|now right].
    destruct (hasSchemaChanged dir loader); cbn [negb]; [right | now left].
    now destruct (fst (loadSchemas true dir loader)). }
  destruct Hcases as [Hsame | Hreload]; [rewrite !Hsame; cbn [fst snd]; auto|].
  rewrite !Hreload.
  destruct (loadSchemas true dir loader) as [[|] loader'] eqn:Hload; cbn [fst snd] in *.
  - split; [now apply (refreshSchemaIfChanged_settled dir loader)|].
    split; [exact Hpath|]. right.
    destruct (loadSchemas_true true dir loader loader' (or_introl eq_refl) Hload)
      as (_ & _ & _ & Hmeta & Hstat & Hsig).
    split; [exact Hmeta|]. split; [reflexivity|].
    now apply hasSchemaChanged_settled.
  - split; [|split; [exact Hpath | now left]].
    apply refreshSchemaIfChanged_failed.
    rewrite Hagain. reflexivity.
Qed.

(** X17. An operations file that does not parse makes the load fail after
    the export has been taken in. The constructor of the server, whose
    load reports the failure, still builds the registry from the export; a
    refresh by a loader without export takes the export in as well, but
    leaves the registry as it was. *)
Theorem unparsable_operations_file
        (path : option string) (dir : SchemaDir N Time Ops)
        (mfile : SchemaFile Time (list (MetaObject N))) (objects : list (MetaObject N))
        (ofile : SchemaFile Time Ops) :
  isSome_nonEmpty path = true ->
  metadataFile dir = Some mfile ->
  fileParsed mfile = Some objects ->
  operationsFile dir = Some ofile ->
  fileParsed ofile = None ->
  fst (loadSchemas false dir (newLoader path)) = false
  /\ snd (newServer path dir) = rebuildRegistry (Some objects)
  /\ (forall (loader : Loader N Time Ops) (reg : Registry N),
        schemaPath loader = path ->
        loaderMetadata loader = None ->
        loaderMetadata (fst (refreshSchemaIfChanged dir (loader, reg))) = Some objects
        /\ snd (refreshSchemaIfChanged dir (loader, reg)) = reg).
Proof.
  intros Hpath Hmfile Hobjects Hofile Hoperations.
  assert (Hload : forall (force : bool) (loader : Loader N Time Ops),
             schemaPath loader = path ->
             force = true \/ (statMetadata loader = None /\ statOperations loader = None) ->
             loadSchemas force dir loader
             = (false,
                {| loaderMetadata := Some objects;
                   loaderOperations := loaderOperations loader;
                   schemaPath := schemaPath loader;
                   statMetadata := Some (fileStat mfile);
                   statOperations := statOperations loader |})).
  { intros force loader Hschema Hforce. unfold loadSchemas.
    rewrite Hschema, Hpath, Hmfile. cbn [negb].
    destruct Hforce as [-> | [Hm Ho]].
    - cbn [orb]. rewrite Hobjects, Hofile, Hoperations. reflexivity.
    - rewrite Hm, orb_true_r, Hobjects, Hofile. cbn [statOperations].
      rewrite Ho, orb_true_r, Hoperations. reflexivity. }
  split; [|split].
  - rewrite Hload; [reflexivity | reflexivity | right; split; reflexivity].
  - unfold newServer.
    rewrite Hload; [reflexivity | reflexivity | right; split; reflexivity].
  - intros loader reg Hschema Hnone.
    unfold refreshSchemaIfChanged. cbn [fst snd]. rewrite Hnone.
    rewrite Hload; [split; reflexivity | exact Hschema | now left].
Qed.

End SchemaFileProperties.

(** [loadSchemas_settles] at the first load of the example directory. *)
Lemma loadSchemas_settles_people :
  SchemaFiles.hasSchemaChanged
    peopleDir
    (snd (SchemaFiles.loadSchemas false peopleDir (SchemaFiles.newLoader (Some "schema"))))
  = false.
Proof.
  refine (proj1 (proj2 (proj2 (proj2 (proj2
            (loadSchemas_settles false peopleDir
               (SchemaFiles.newLoader (Some "schema")) _ _ eq_refl)))) peopleDir eq_refl)).
  right. split; split; intros H; vm_compute in H; destruct H; discriminate.
Defined.

(** [hasSchemaChanged_exact] at a loader that never loaded the operations
    file of the example directory: the change is detected. *)
Lemma hasSchemaChanged_exact_people :
  SchemaFiles.hasSchemaChanged
    peopleDir
    (snd (SchemaFiles.loadSchemas false corruptDir (SchemaFiles.newLoader (Some "schema"))))
  <> false.
Proof.
  intros H.
  apply (hasSchemaChanged_exact
           peopleDir
           (snd (SchemaFiles.loadSchemas false corruptDir
                   (SchemaFiles.newLoader (Some "schema"))))) in H.
  - destruct H as [_ H]. vm_compute in H. discriminate H.
  - reflexivity.
  - vm_compute. eauto.
Defined.

(** [unparsable_operations_file] at the example directory whose operations
    file does not parse. *)
Lemma unparsable_operations_file_people :
  snd (SchemaFiles.newServer (Some "schema") corruptDir) = rebuildRegistry peopleMetadata
  /\ snd (SchemaFiles.refreshSchemaIfChanged
            corruptDir (SchemaFiles.newLoader (Some "schema"), rebuildRegistry None))
     = rebuildRegistry None.
Proof.
  destruct (unparsable_operations_file
              (Some "schema") corruptDir _ _ _ eq_refl eq_refl eq_refl eq_refl eq_refl)
    as (_ & Hnew & Hrefresh).
  split; [exact Hnew|].
  exact (proj2 (Hrefresh (SchemaFiles.newLoader (Some "schema")) (rebuildRegistry None)
                         eq_refl eq_refl)).
Defined.

(** ** The sanitizer, entry by entry *)

Section SanitizerFrame.
Context {N : Type} `{!JsNumber N}.

Lemma extractSingleRelationId_cases (value : JsVal N) :
  (value = JNull /\ extractSingleRelationId value = JNull)
  \/ (exists id, SingleId value id /\ extractSingleRelationId value = JStr id)
  \/ (value <> JNull /\ (forall id, ~ SingleId value id)
      /\ extractSingleRelationId value = JUndefined).
Proof.
  destruct value as [| |b|n|s|items|entries].
  - right. right. split; [discriminate|]. split; [|reflexivity]. intros id H. inversion H.
  - now left.
  - right. right. split; [discriminate|]. split; [|reflexivity]. intros id H. inversion H.
  - cbn. destruct (number_isFinite n) eqn:Hn.
    + right. left. exists (number_toString n). split; [now constructor | reflexivity].
    + right. right. split; [discriminate|]. split; [|reflexivity].
      intros id H. inversion H. congruence.
  - cbn. destruct (Str.nonEmpty (Str.trim s)) eqn:Hs.
    + right. left. exists (Str.trim s). split; [now constructor | reflexivity].
    + right. right. split; [discriminate|]. split; [|reflexivity].
      intros id H. inversion H. congruence.
  - right. right. split; [discriminate|]. split; [|reflexivity]. intros id H. inversion H.
  - assert (Hvalue :
              (exists s, entryOf "value" entries = Some (JStr s)
                         /\ Str.nonEmpty (Str.trim s) = true
                         /\ match prop (JObj entries) "value" with
                            | JStr val =>
                                if Str.nonEmpty (Str.trim val) then JStr (Str.trim val)
                                else JUndefined
                            | _ => JUndefined
                            end = (JStr (Str.trim s) : JsVal N))
              \/ ((forall s, entryOf "value" entries = Some (JStr s) ->
                             Str.nonEmpty (Str.trim s) = false)
                  /\ match prop (JObj entries) "value" with
                     | JStr val =>
                         if Str.nonEmpty (Str.trim val) then JStr (Str.trim val)
                         else JUndefined
                     | _ => JUndefined
                     end = (JUndefined : JsVal N))).
    { cbn [prop].
      destruct (entryOf "value" entries) as [[| |b|n|s|items|es]|]; cbn;
        try (right; split; [intros ? [=] | reflexivity]).
      destruct (Str.nonEmpty (Str.trim s)) eqn:Hs.
      - left. exists s. auto.
      - right. split; [now intros ? [= <-] | reflexivity]. }
    assert (Hnoid :
              (forall s, entryOf "id" entries = Some (JStr s) ->
                         Str.nonEmpty (Str.trim s) = false) ->
              forall result : JsVal N,
                match prop (JObj entries) "value" with
                | JStr val =>
                    if Str.nonEmpty (Str.trim val) then JStr (Str.trim val)
                    else JUndefined
                | _ => JUndefined
                end = result ->
                (exists id, SingleId (JObj entries) id /\ result = JStr id)
                \/ (JObj entries <> JNull /\ (forall id, ~ SingleId (JObj entries) id)
                    /\ result = JUndefined)).
    { intros Hid result <-.
      destruct Hvalue as [(s & Hs & Hne & ->) | [Hnone ->]].
      - left. exists (Str.trim s). split; [now apply SingleId_object_value | reflexivity].
      - right. split; [discriminate|]. split; [|reflexivity].
        intros id H. inversion H as [es s Hs Hne | es s Hno Hs Hne | |]; subst.
        + specialize (Hid _ Hs). congruence.
        + specialize (Hnone _ Hs). congruence. }
    right. cbn [extractSingleRelationId]. cbn [prop] in *.
    destruct (entryOf "id" entries) as [[| |b|n|s|items|es]|] eqn:Hid;
      cbn [default from_option id];
      try (apply Hnoid; [intros ? [=] | reflexivity]).
    destruct (Str.nonEmpty (Str.trim s)) eqn:Hs.
    + left. exists (Str.trim s). split; [now apply SingleId_object_id | reflexivity].
    + apply Hnoid; [|reflexivity]. now intros ? [= <-].
Qed.

(** X20. For a SINGLE relation emitted under the key [a]: [null] is kept as
    [null] under [a], which clears the relation; a value the SINGLE rule
    accepts gives its identifier under [a]; and every other value, such as
    a boolean, a blank string, a number that is not finite, an array or an
    object without a usable [id] or [value], is omitted: the sanitized
    payload of that entry alone is empty. *)
Theorem single_relation_normalization
        (relation : RelationMeta) (a : string) (value : JsVal N) :
  getRelationCardinality (relRelationType relation) = Some single ->
  relationKey relation = a ->
  Str.nonEmpty a = true ->
  (value = JNull ->
   normalizeRelationValue value relation = {[a := JNull]}
   /\ normalizeRelationAliasValue value relation = JNull)
  /\ (forall id,
        SingleId value id ->
        normalizeRelationValue value relation = {[a := JStr id]}
        /\ normalizeRelationAliasValue value relation = JStr id)
  /\ (value <> JNull -> (forall id, ~ SingleId value id) ->
      normalizeRelationValue value relation = ∅
      /\ normalizeRelationAliasValue value relation = JUndefined
      /\ forall (schema : Schema N) (k : string),
           fst (getRelationInfo schema) !! k = Some relation
           \/ (fst (getRelationInfo schema) !! k = None
               /\ snd (getRelationInfo schema) !! k = Some relation) ->
           sanitizePayload (JObj [(k, value)]) schema = ∅).
Proof.
  intros Hsingle <- Hkey.
  unfold normalizeRelationValue, normalizeRelationAliasValue.
  fold (relationKey relation). rewrite Hkey, Hsingle. cbn [negb].
  destruct (extractSingleRelationId_cases value)
    as [[-> Hnull] | [(id & Hid & Hresult) | (Hnotnull & Hnone & Hresult)]].
  - split; [intros _; now rewrite Hnull|]. split.
    + intros id Hid. inversion Hid.
    + intros Hne. now contradiction Hne.
  - split; [intros ->; inversion Hid|]. split.
    + intros id' Hid'. rewrite (extractSingleRelationId_SingleId _ _ Hid'). auto.
    + intros _ Hnone. now destruct (Hnone id).
  - split; [intros ->; now contradiction Hnotnull|]. split.
    + intros id Hid. now destruct (Hnone id).
    + intros _ _. rewrite Hresult. cbn [isUndefined].
      split; [reflexivity|]. split; [reflexivity|].
      intros schema k Hk. rewrite sanitizePayload_object. cbn [foldl].
      unfold sanitizeEntry. cbn [fst snd].
      destruct (isUndefined value); [now rewrite delete_empty|].
      destruct Hk as [-> | [-> ->]].
      * unfold normalizeRelationValue. fold (relationKey relation).
        rewrite Hkey, Hsingle, Hresult. cbn.
        now rewrite (left_id_L ∅ (∪)), delete_empty.
      * unfold normalizeRelationAliasValue. rewrite Hsingle, Hresult. cbn.
        now rewrite delete_empty.
Qed.

Lemma extractSingleRelationId_idArray (ids : list string) :
  isUndefined (idArray (N := N) ids) = false.
Proof. reflexivity. Qed.

Lemma normalizeLinksValue_defined (value : JsVal N) :
  isUndefined value = false -> isUndefined (normalizeLinksValue value) = false.
Proof.
  intros Hvalue. unfold normalizeLinksValue.
  destruct (isNull value || isUndefined value); [exact Hvalue|].
  destruct (_ && _); [exact Hvalue|].
  destruct value; try exact Hvalue.
  now destruct (Nat.eqb _ 0).
Qed.

Lemma normalizeRelationValue_defined (value : JsVal N) (relation : RelationMeta)
      (key : string) (v : JsVal N) :
  normalizeRelationValue value relation !! key = Some v -> isUndefined v = false.
Proof.
  unfold normalizeRelationValue. destruct (negb _); [now rewrite lookup_empty|].
  destruct (getRelationCardinality _) as [[|]|].
  - destruct (isUndefined (extractSingleRelationId value)) eqn:E;
      [now rewrite lookup_empty|].
    intros H. apply lookup_singleton_Some in H. destruct H as [_ <-]. exact E.
  - destruct (extractMultipleRelationIds value); [|now rewrite lookup_empty].
    intros H. apply lookup_singleton_Some in H. now destruct H as [_ <-].
  - destruct (extractMultipleRelationIds value); [|now rewrite lookup_empty].
    intros H. apply lookup_singleton_Some in H. now destruct H as [_ <-].
Qed.

(** An entry of the sanitized object comes from the entry just processed,
    as that entry alone would give it, or was there before. *)
Lemma sanitizeEntry_lookup (schema : Schema N) (sanitized : gmap string (JsVal N))
      (entry : string * JsVal N) (key : string) (v : JsVal N) :
  sanitizeEntry (fst (getRelationInfo schema)) (snd (getRelationInfo schema))
    (getLinksFieldNames schema) sanitized entry !! key = Some v ->
  sanitized !! key = Some v
  \/ (isUndefined (snd entry) = false /\ isUndefined v = false
      /\ sanitizeEntry (fst (getRelationInfo schema)) (snd (getRelationInfo schema))
    (getLinksFieldNames schema) ∅ entry !! key = Some v).
Proof.
  unfold sanitizeEntry.
  destruct (isUndefined (snd entry)) eqn:Hdefined; [auto|].
  destruct (fst (getRelationInfo schema) !! fst entry) as [relation|].
  - intros H. apply lookup_union_Some_raw in H. destruct H as [H | [_ H]]; [|auto].
    right. split; [reflexivity|]. split; [now apply normalizeRelationValue_defined in H|].
    now rewrite (right_id_L ∅ (∪)).
  - destruct (snd (getRelationInfo schema) !! fst entry) as [relation|].
    + destruct (isUndefined (normalizeRelationAliasValue (snd entry) relation)) eqn:E;
        [auto|].
      intros H. apply lookup_insert_Some in H. destruct H as [[<- <-] | [_ H]]; [|auto].
      right. split; [reflexivity|]. split; [exact E|]. apply lookup_insert_eq.
    + destruct (bool_decide (fst entry ∈ getLinksFieldNames schema));
        intros H; apply lookup_insert_Some in H; destruct H as [[<- <-] | [_ H]]; auto;
        right; (split; [reflexivity|]); (split; [|apply lookup_insert_eq]).
      * now apply normalizeLinksValue_defined.
      * exact Hdefined.
Qed.

Lemma sanitizeLoop_lookup (schema : Schema N) (entries : list (string * JsVal N))
      (sanitized : gmap string (JsVal N)) (key : string) (v : JsVal N) :
  foldl (sanitizeEntry (fst (getRelationInfo schema)) (snd (getRelationInfo schema))
    (getLinksFieldNames schema)) sanitized entries !! key = Some v ->
  sanitized !! key = Some v
  \/ exists entry,
       entry ∈ entries /\ isUndefined (snd entry) = false /\ isUndefined v = false
       /\ sanitizeEntry (fst (getRelationInfo schema)) (snd (getRelationInfo schema))
    (getLinksFieldNames schema) ∅ entry !! key = Some v.
Proof.
  revert sanitized. induction entries as [|entry rest IH]; intros sanitized H; [auto|].
  cbn [foldl] in H. apply IH in H. destruct H as [H | (e & He & Hrest)].
  - apply sanitizeEntry_lookup in H. destruct H as [H | H]; [auto|].
    right. exists entry. split; [now left | exact H].
  - right. exists e. split; [now right | exact Hrest].
Qed.

(** X18. The sanitizer invents nothing: every entry of a sanitized payload is
    what one defined entry of the payload gives when sanitized alone, it
    sits under the key that entry is emitted under, its key is not [id],
    and its value is not [undefined]. *)
Theorem sanitizePayload_local
        (payload : JsVal N) (schema : Schema N) (key : string) (v : JsVal N) :
  sanitizePayload payload schema !! key = Some v ->
  key <> "id"
  /\ isUndefined v = false
  /\ exists entry,
       entry ∈ objectEntries payload
       /\ isUndefined (snd entry) = false
       /\ emittedKey schema (fst entry) = key
       /\ sanitizePayload (JObj [entry]) schema !! key = Some v.
Proof.
  unfold sanitizePayload at 1.
  destruct (negb (truthy payload) || negb (typeof payload =? "object"));
    [now rewrite lookup_empty|].
  intros H. apply lookup_delete_Some in H. destruct H as [Hid H].
  split; [congruence|].
  apply sanitizeLoop_lookup in H. destruct H as [H | (entry & Hin & Hdefined & Hv & H)];
    [now rewrite lookup_empty in H|].
  split; [exact Hv|]. exists entry. split; [exact Hin|]. split; [exact Hdefined|]. split.
  - destruct (decide (emittedKey schema (fst entry) = key)) as [E | E]; [exact E|].
    rewrite (sanitizeEntry_lookup_ne schema ∅ entry key E), lookup_empty in H.
    discriminate.
  - rewrite sanitizePayload_object. cbn [foldl].
    rewrite lookup_delete_ne by congruence. exact H.
Qed.

(** Without relations and LINKS fields an entry is copied as it is. *)
Lemma sanitizeLoop_plain (schema : Schema N) (entries : list (string * JsVal N))
      (sanitized : gmap string (JsVal N)) :
  relationMetadata schema = [] ->
  getLinksFieldNames schema = ∅ ->
  foldl (sanitizeEntry (fst (getRelationInfo schema)) (snd (getRelationInfo schema))
    (getLinksFieldNames schema)) sanitized entries
  = list_to_map (reverse (List.filter (fun entry => negb (isUndefined (snd entry))) entries))
    ∪ sanitized.
Proof.
  intros Hrelations Hlinks. unfold getRelationInfo. rewrite Hrelations, Hlinks.
  cbn [foldl fst snd]. revert sanitized.
  induction entries as [|[k value] rest IH]; intros sanitized.
  - cbn. now rewrite (left_id_L ∅ (∪)).
  - cbn [foldl List.filter snd]. rewrite IH. unfold sanitizeEntry. cbn [fst snd].
    destruct (isUndefined value); cbn [negb]; [reflexivity|].
    rewrite !lookup_empty.
    rewrite bool_decide_eq_false_2 by set_solver.
    rewrite reverse_cons, list_to_map_app. cbn [list_to_map foldr fst snd].
    rewrite <- (assoc_L (∪)). f_equal.
    rewrite insert_empty. now rewrite <- insert_union_singleton_l.
Qed.

(** X19. For a contract without relations and without LINKS fields, as every
    fallback contract of a core object is, and a payload without a member
    [__proto__], the sanitizer only drops: the sanitized payload holds the
    defined entries of the payload, a later entry replacing an earlier one
    of the same key, without [id]. *)
Theorem sanitizePayload_without_relations
        (entries : list (string * JsVal N)) (schema : Schema N) :
  relationMetadata schema = [] ->
  getLinksFieldNames schema = ∅ ->
  Forall (fun entry => fst entry <> "__proto__") entries ->
  sanitizePayload (JObj entries) schema
  = delete "id"
      (list_to_map
         (reverse (List.filter (fun entry => negb (isUndefined (snd entry))) entries))).
Proof.
  intros Hrelations Hlinks _.
  rewrite sanitizePayload_object, sanitizeLoop_plain by assumption.
  now rewrite (right_id_L ∅ (∪)).
Qed.

End SanitizerFrame.

(** [single_relation_normalization] at the relation [company] of the
    example contract: [null] clears it. *)
Lemma single_relation_clear :
  normalizeRelationValue (N := Num) JNull (relationMeta "company" "companyId" "MANY_TO_ONE")
  = {[ "companyId" := JNull ]}.
Proof.
  exact (proj1 (proj1 (single_relation_normalization
                         (relationMeta "company" "companyId" "MANY_TO_ONE") "companyId" JNull
                         eq_refl eq_refl eq_refl) eq_refl)).
Defined.

(** [sanitizePayload_local] at the example contract and the payload
    [{ company: { id: "c1" } }]. *)
Lemma sanitizePayload_local_company :
  exists entry,
    entry ∈ [("company", JObj [("id", JStr (N := Num) "c1")])]
    /\ emittedKey companyContract (fst entry) = "companyId".
Proof.
  destruct (sanitizePayload_local
              (JObj [("company", JObj [("id", JStr "c1")])]) companyContract
              "companyId" (JStr "c1"))
    as (_ & _ & entry & Hin & _ & Hkey & _).
  - vm_compute. reflexivity.
  - exists entry. split; [exact Hin | exact Hkey].
Defined.

(** [sanitizePayload_without_relations] at the fallback contract of
    [people]. *)
Lemma sanitizePayload_without_relations_people :
  sanitizePayload
    (JObj [("id", JStr "p1"); ("city", JStr "Paris"); ("age", JUndefined);
           ("city", JStr (N := Num) "Rome")])
    (fallbackSchema "people")
  = {[ "city" := JStr "Rome" ]}.
Proof.
  rewrite (sanitizePayload_without_relations _ (fallbackSchema "people") eq_refl eq_refl).
  - vm_compute. reflexivity.
  - repeat (apply List.Forall_cons; [discriminate|]). apply List.Forall_nil.
Defined.

(** ** List results with records *)

Section ListProperties.
Context {N : Type} `{!JsNumber N}.

Lemma extractRecords_cases (response : JsVal N) :
  extractRecords response = JUndefined
  \/ exists records, extractRecords response = JArr records.
Proof.
  assert (Harray : forall v : JsVal N, isArray v = true -> exists records, v = JArr records).
  { intros [| |b|n|s|items|entries]; try discriminate. eauto. }
  unfold extractRecords.
  destruct (isArray response) eqn:E; [right; now apply Harray|].
  destruct (truthy response && _); [|now left].
  destruct (isArray (prop response "data")) eqn:E1; [right; now apply Harray|].
  destruct (isArray (prop response "items")) eqn:E2; [right; now apply Harray|].
  destruct (isArray (prop response "records")) eqn:E3; [right; now apply Harray|].
  now left.
Qed.

Lemma resolveTotalFromPagination_number (pagination : JsVal N) :
  resolveTotalFromPagination pagination = JUndefined
  \/ exists n, resolveTotalFromPagination pagination = JNum n.
Proof.
  assert (Hnumber : forall v : JsVal N, isNumber v = true -> exists n, v = JNum n).
  { intros [| |b|n|s|items|entries]; try discriminate. eauto. }
  unfold resolveTotalFromPagination.
  destruct (List.find _ _) as [key|] eqn:Hfind; [|now left].
  apply find_some in Hfind. destruct Hfind as [_ Htest].
  apply andb_true_iff in Htest. right. now apply Hnumber.
Qed.

Lemma resolveHasNextFromPagination_boolean (pagination : JsVal N) :
  resolveHasNextFromPagination pagination = JUndefined
  \/ exists b, resolveHasNextFromPagination pagination = JBool b.
Proof.
  assert (Hboolean : forall v : JsVal N, isBoolean v = true -> exists b, v = JBool b).
  { intros [| |b|n|s|items|entries]; try discriminate. eauto. }
  unfold resolveHasNextFromPagination.
  destruct (_ || _); [now left|].
  destruct (isBoolean (prop pagination "hasNextPage")) eqn:E1; [right; now apply Hboolean|].
  destruct (isBoolean (prop pagination "hasMore")) eqn:E2; [right; now apply Hboolean|].
  destruct (hasKey "nextCursor" pagination); [right; eauto | now left].
Qed.

(** X21. [extractRecords] gives [undefined] or an array. Given an array of
    records, the list payload is an object that holds, in this order, the
    records under [items], a [summary] whose [count] is their number, the
    pagination data under [pagination] when some is found, with [total] (a
    number or [undefined]) and [hasNextPage] (a boolean or [undefined])
    added to the summary, and the whole response under [raw]. *)
Theorem buildListPayload_with_records (response : JsVal N) :
  (extractRecords response = JUndefined
   \/ exists records, extractRecords response = JArr records)
  /\ (forall records,
        extractRecords response = JArr records ->
        (truthy (extractPagination response) = false ->
         buildListPayload response
         = JObj [("items", JArr records);
                 ("summary", JObj [("count", JNum (number_ofNat (length records)))]);
                 ("raw", response)])
        /\ (truthy (extractPagination response) = true ->
            buildListPayload response
            = JObj [("items", JArr records);
                    ("summary",
                     JObj [("count", JNum (number_ofNat (length records)));
                           ("total", resolveTotalFromPagination (extractPagination response));
                           ("hasNextPage",
                            resolveHasNextFromPagination (extractPagination response))]);
                    ("pagination", extractPagination response);
                    ("raw", response)]))
  /\ (resolveTotalFromPagination (extractPagination response) = JUndefined
      \/ exists n, resolveTotalFromPagination (extractPagination response) = JNum n)
  /\ (resolveHasNextFromPagination (extractPagination response) = JUndefined
      \/ exists b, resolveHasNextFromPagination (extractPagination response) = JBool b).
Proof.
  split; [apply extractRecords_cases|].
  split; [|split;
           [apply resolveTotalFromPagination_number
           | apply resolveHasNextFromPagination_boolean]].
  intros records Hrecords. unfold buildListPayload. rewrite Hrecords.
  split; intros Hp; rewrite Hp; reflexivity.
Qed.

End ListProperties.

(** ** Note links *)

Section NoteLinkProperties.
Context {N : Type} `{!JsNumber N}.

Lemma addRequest_linkState (noteId : string) (request : list (string * JsVal N))
      (state : list (list (string * JsVal N)) * gset string) :
  entryOf "noteId" request = Some (JStr noteId) ->
  2 <= length request ->
  linkState noteId state ->
  linkState noteId (addRequest request state).
Proof.
  intros Hnote Hlength (Hall & Hnodup & Hkeys). unfold addRequest.
  destruct (negb (Str.nonEmpty (requestKey request))); [now split|].
  destruct (bool_decide_reflect (requestKey request ∈ snd state)) as [Hseen | Hfresh];
    [now split|].
  cbn [orb]. split; [|split]; cbn [fst snd].
  - apply Forall_app. split; [exact Hall|]. now repeat constructor.
  - rewrite map_app. cbn [map]. apply NoDup_app. split; [exact Hnodup|]. split.
    + intros key Hin Hin'. apply list_elem_of_singleton in Hin'. subst key.
      apply Hfresh, Hkeys, Hin.
    + apply NoDup_singleton.
  - intros key. rewrite map_app, elem_of_app, elem_of_union, Hkeys. cbn [map].
    rewrite elem_of_singleton, list_elem_of_singleton. tauto.
Qed.

Lemma addRequest_head (request first : list (string * JsVal N))
      (state : list (list (string * JsVal N)) * gset string) :
  (exists rest, fst state = first :: rest) ->
  exists rest, fst (addRequest request state) = first :: rest.
Proof.
  intros [rest Hstate]. unfold addRequest.
  destruct (_ || _); [eauto|]. cbn [fst]. rewrite Hstate. eauto.
Qed.

Lemma targetRequest_Some (noteId : string) (target : JsVal N)
      (request : list (string * JsVal N)) :
  targetRequest noteId target = Some request ->
  entryOf "noteId" request = Some (JStr noteId) /\ 2 <= length request.
Proof.
  unfold targetRequest. destruct (_ || _); [discriminate|].
  destruct (Nat.ltb 1 _) eqn:Hlength; [|discriminate].
  intros [= <-]. apply Nat.ltb_lt in Hlength. split; [|exact Hlength].
  repeat match goal with
         | |- context [if ?b then _ else _] => destruct b
         end;
    rewrite ?entryOf_setProp_ne by discriminate; reflexivity.
Qed.

(** X22. The link requests of a note always start with the link to the
    person, so that they are never empty; every request holds the note's
    identifier and at least one more key; and no two requests bear the
    same deduplication key. *)
Theorem buildNoteTargetRequests_invariants
        (noteId : string) (personId companyId targets : JsVal N) :
  (exists rest,
     buildNoteTargetRequests noteId personId companyId targets
     = [("noteId", JStr noteId); ("personId", personId)] :: rest)
  /\ Forall (fun request =>
               entryOf "noteId" request = Some (JStr noteId) /\ 2 <= length request)
            (buildNoteTargetRequests noteId personId companyId targets)
  /\ NoDup (map requestKey (buildNoteTargetRequests noteId personId companyId targets)).
Proof.
  unfold buildNoteTargetRequests.
  set (first := [("noteId", JStr noteId); ("personId", personId)]).
  set (state1 := addRequest first ([], ∅)).
  assert (Hhead1 : exists rest, fst state1 = first :: rest).
  { unfold state1, addRequest. cbn [fst snd].
    rewrite bool_decide_eq_false_2 by set_solver.
    unfold first. rewrite requestKey_person. cbn. eauto. }
  assert (Hstate1 : linkState noteId state1).
  { apply addRequest_linkState; [reflexivity | cbn; lia|].
    split; [constructor|]. split; [constructor|]. intros key. cbn.
    split; intros H; [now apply elem_of_empty in H | now apply elem_of_nil in H]. }
  set (state2 := if truthy companyId then addRequest _ state1 else state1).
  assert (Hhead2 : exists rest, fst state2 = first :: rest).
  { unfold state2. destruct (truthy companyId); [now apply addRequest_head | exact Hhead1]. }
  assert (Hstate2 : linkState noteId state2).
  { unfold state2. destruct (truthy companyId); [|exact Hstate1].
    apply addRequest_linkState; [reflexivity | cbn; lia | exact Hstate1]. }
  clearbody state2.
  assert (Hloop : forall items state,
             (exists rest, fst state = first :: rest) ->
             linkState noteId state ->
             (exists rest,
                fst (foldl (fun state target =>
                              match targetRequest noteId target with
                              | Some request => addRequest request state
                              | None => state
                              end) state items) = first :: rest)
             /\ linkState noteId
                  (foldl (fun state target =>
                            match targetRequest noteId target with
                            | Some request => addRequest request state
                            | None => state
                            end) state items)).
  { induction items as [|target items IH]; intros state Hhead Hstate; [now split|].
    cbn [foldl]. apply IH.
    - destruct (targetRequest noteId target); [now apply addRequest_head | exact Hhead].
    - destruct (targetRequest noteId target) as [request|] eqn:Htarget; [|exact Hstate].
      destruct (targetRequest_Some _ _ _ Htarget). now apply addRequest_linkState. }
  assert (Hfinal :
            (exists rest,
               fst match targets with
                   | JArr items =>
                       foldl (fun state target =>
                                match targetRequest noteId target with
                                | Some request => addRequest request state
                                | None => state
                                end) state2 items
                   | _ => state2
                   end = first :: rest)
            /\ linkState noteId
                 match targets with
                 | JArr items =>
                     foldl (fun state target =>
                              match targetRequest noteId target with
                              | Some request => addRequest request state
                              | None => state
                              end) state2 items
                 | _ => state2
                 end).
  { destruct targets; try (split; assumption). now apply Hloop. }
  destruct Hfinal as [Hhead (Hall & Hnodup & _)]. auto.
Qed.

Lemma buildNoteTargetRequests_head
      (noteId : string) (personId companyId targets : JsVal N) :
  exists rest,
    buildNoteTargetRequests noteId personId companyId targets
    = [("noteId", JStr noteId); ("personId", personId)] :: rest.
Proof.
  unfold buildNoteTargetRequests.
  set (first := [("noteId", JStr noteId); ("personId", personId)]).
  assert (Hhead1 : exists rest, fst (addRequest first ([], ∅)) = first :: rest).
  { unfold addRequest. cbn [fst snd].
    rewrite bool_decide_eq_false_2 by set_solver.
    unfold first. rewrite requestKey_person. cbn. eauto. }
  assert (Hhead2 :
            exists rest,
              fst (if truthy companyId
                   then addRequest [("noteId", JStr noteId); ("companyId", companyId)]
                                   (addRequest first ([], ∅))
                   else addRequest first ([], ∅)) = first :: rest).
  { destruct (truthy companyId); [now apply addRequest_head | exact Hhead1]. }
  destruct targets; try exact Hhead2.
  revert Hhead2. generalize (if truthy companyId
                             then addRequest [("noteId", JStr noteId); ("companyId", companyId)]
                                             (addRequest first ([], ∅))
                             else addRequest first ([], ∅)).
  induction items as [|target items IH]; intros state Hstate; [exact Hstate|].
  cbn [foldl]. apply IH.
  destruct (targetRequest noteId target); [now apply addRequest_head | exact Hstate].
Qed.

(** X23. Identifiers given as objects are told apart by neither their
    members nor their identity when link requests are deduplicated: after
    the link to a person given as an object, a target whose person is any
    other object is dropped. The two objects have a string conversion:
    neither has a member [toString]. *)
Theorem buildNoteTargetRequests_objects_collide
        (noteId : string) (person other : list (string * JsVal N)) :
  stringifiable (JObj person) = true ->
  stringifiable (JObj other) = true ->
  buildNoteTargetRequests noteId (JObj person) JUndefined
                          (JArr [JObj [("personId", JObj other)]])
  = [[("noteId", JStr noteId); ("personId", JObj person)]].
Proof.
  intros _ _.
  unfold buildNoteTargetRequests. cbn [truthy foldl].
  assert (Htarget : targetRequest noteId (JObj [("personId", JObj other)])
                    = Some [("noteId", JStr noteId); ("personId", JObj other)]).
  { reflexivity. }
  rewrite Htarget. unfold addRequest. cbn [fst snd].
  rewrite !requestKey_person. cbn [toString negb orb].
  rewrite (bool_decide_eq_false_2 (_ ∈ ∅)) by set_solver.
  assert (Hne : Str.nonEmpty ("noteId:" +:+ noteId +:+ "|personId:" +:+ "[object Object]")
                = true) by reflexivity.
  rewrite Hne. cbn [negb orb fst snd app].
  rewrite bool_decide_eq_true_2 by set_solver. reflexivity.
Qed.

(** A loop of awaited calls that each submit one request and throw what the
    backend throws: the requests of a prefix of the list are submitted, all
    but the last of them are answered, and the answer to the last one
    decides; the loop succeeds only on the whole list. *)
Lemma forEachAwait_requests {A B : Type} (f : A -> Op N B) (link : A -> Request N)
      (g : A -> JsVal N -> B)
      (xs : list A) (backend : Backend N) (log : list (Request N)) :
  (forall x b l,
     f x b l = match b (l ++ [link x])%list with
               | Ok answer => (Ok (g x answer), (l ++ [link x])%list)
               | Throw msg => (Throw msg, (l ++ [link x])%list)
               end) ->
  xs <> [] ->
  exists k,
    1 <= k <= length xs
    /\ snd (forEachAwait f xs backend log) = (log ++ map link (take k xs))%list
    /\ (forall j, 1 <= j < k ->
                  exists answer, backend (log ++ map link (take j xs))%list = Ok answer)
    /\ match backend (log ++ map link (take k xs))%list with
       | Throw msg => fst (forEachAwait f xs backend log) = Throw msg
       | Ok _ =>
           k = length xs
           /\ exists ys, fst (forEachAwait f xs backend log) = Ok ys
                         /\ length ys = length xs
       end.
Proof.
  intros Hf. revert log. induction xs as [|x rest IH]; intros log Hne; [congruence|].
  cbn [forEachAwait]. unfold mbind, op_bind, bind. rewrite Hf.
  destruct (backend (log ++ [link x])%list) as [answer | msg] eqn:Hx.
  - destruct rest as [|y rest].
    + exists 1. cbn [forEachAwait length take map]. unfold mret, op_ret, ret.
      cbn [fst snd]. rewrite Hx.
      split; [lia|]. split; [reflexivity|]. split; [intros j Hj; lia|].
      split; [reflexivity|]. eexists. split; reflexivity.
    + destruct (IH (log ++ [link x])%list) as (k & Hk & Hlog & Hprev & Hlast);
        [discriminate|].
      exists (S k).
      assert (Htake : forall j,
                 (log ++ map link (take (S j) (x :: y :: rest)))%list
                 = ((log ++ [link x]) ++ map link (take j (y :: rest)))%list).
      { intros j. cbn [take map]. now rewrite <- app_assoc. }
      rewrite Htake.
      destruct (forEachAwait f (y :: rest) backend (log ++ [link x])%list)
        as [[ys | msg] log'] eqn:Hrest; cbn [fst snd] in *.
      * split; [cbn [length] in *; lia|]. split; [exact Hlog|]. split.
        -- intros j Hj. destruct j as [|j]; [lia|]. rewrite Htake.
           destruct j as [|j].
           ++ rewrite take_0. cbn [map]. rewrite app_nil_r. eauto.
           ++ apply Hprev. lia.
        -- revert Hlast.
           destruct (backend ((log ++ [link x]) ++ map link (take k (y :: rest)))%list)
             as [answer' | msg']; intros Hlast;
             [|discriminate Hlast].
           destruct Hlast as (-> & ys' & [= <-] & Hys).
           split; [reflexivity|]. eexists. split; [reflexivity|].
           cbn [length]. now rewrite Hys.
      * split; [cbn [length] in *; lia|]. split; [exact Hlog|]. split.
        -- intros j Hj. destruct j as [|j]; [lia|]. rewrite Htake.
           destruct j as [|j].
           ++ rewrite take_0. cbn [map]. rewrite app_nil_r. eauto.
           ++ apply Hprev. lia.
        -- revert Hlast.
           destruct (backend ((log ++ [link x]) ++ map link (take k (y :: rest)))%list)
             as [answer' | msg']; intros Hlast.
           ++ destruct Hlast as (_ & ys' & Hys' & _). discriminate Hys'.
           ++ exact Hlast.
  - exists 1. cbn [length take map fst snd]. rewrite take_0. cbn [map]. rewrite Hx.
    split; [lia|]. split; [reflexivity|]. split; [intros j Hj; lia | reflexivity].
Qed.

(** X24. The requests of the composite operation, for arguments and answers
    that hold no member [toString] or [__proto__] and contracts that emit
    no relation under [__proto__]. It throws before any request exactly
    when the person is missing, the note is no object, the notes contract
    is missing or the sanitized note is empty. Otherwise it posts the
    note. If the backend throws, that is thrown on. If the answer carries
    no identifier or the join contract is missing, it throws with the note
    left in place. Otherwise it submits the sanitized link requests one
    after the other: at least the first; each one after an answer to the
    one before; the first throw of the backend ends the operation with
    that throw, the note and the links made so far left in place; and when
    every link is answered it succeeds with the identifier of the note and
    one created target per request. Every request is a POST. *)
Theorem createNoteForPerson_protocol
        (reg : Registry N) (params : JsVal N) (backend : Backend N)
        (log : list (Request N)) :
  plain params = true ->
  (forall sent answer, backend sent = Ok answer -> plain answer = true) ->
  (forall key schema,
     key ∈ ["notes"; "notetargets"] -> objectSchemas reg !! key = Some schema ->
     ordinaryContract schema) ->
  let outcome := createNoteForPerson reg params backend log in
  let personId := prop params "personId" in
  let note := prop params "note" in
  let requests noteId :=
    buildNoteTargetRequests noteId personId (prop params "companyId")
                            (prop params "targets") in
  let invalid :=
    truthy personId = false
    \/ truthy note = false
    \/ typeof note <> "object"
    \/ objectSchemas reg !! "notes" = None
    \/ (exists noteSchema,
          objectSchemas reg !! "notes" = Some noteSchema
          /\ sanitizePayload note noteSchema = ∅) in
  (invalid -> snd outcome = log /\ exists msg, fst outcome = Throw msg)
  /\ (~ invalid ->
      exists noteSchema,
        objectSchemas reg !! "notes" = Some noteSchema
        /\ let posted := (log ++ [noteRequest noteSchema note])%list in
           let linked targetSchema noteId k :=
             (posted ++ map (linkRequest targetSchema) (take k (requests noteId)))%list in
           match backend posted with
           | Throw msg => outcome = (Throw msg, posted)
           | Ok noteResponse =>
               match extractResourceId noteResponse, objectSchemas reg !! "notetargets" with
               | Some noteId, Some targetSchema =>
                   if Str.nonEmpty noteId then
                     exists k,
                       1 <= k <= length (requests noteId)
                       /\ snd outcome = linked targetSchema noteId k
                       /\ (forall j, 1 <= j < k ->
                                     exists answer,
                                       backend (linked targetSchema noteId j) = Ok answer)
                       /\ match backend (linked targetSchema noteId k) with
                          | Throw msg => fst outcome = Throw msg
                          | Ok _ =>
                              k = length (requests noteId)
                              /\ exists result,
                                   fst outcome = Ok result
                                   /\ TwentyCRMServer.noteId result = noteId
                                   /\ length (createdTargets result)
                                      = length (requests noteId)
                          end
                   else snd outcome = posted /\ exists msg, fst outcome = Throw msg
               | _, _ => snd outcome = posted /\ exists msg, fst outcome = Throw msg
               end
           end)
  /\ exists sent,
       snd outcome = (log ++ sent)%list /\ Forall (fun request => method request = "POST") sent.
Proof.
  intros _ _ _. cbv zeta.
  remember (createNoteForPerson reg params backend log) as outcome eqn:Hout.
  unfold createNoteForPerson in Hout.
  assert (Hposts : forall (targetSchema : Schema N) requests,
             Forall (fun request : Request N => method request = "POST")
                    (map (linkRequest targetSchema) requests)).
  { intros targetSchema requests. apply Forall_forall. intros request Hin.
    apply list_elem_of_fmap in Hin. now destruct Hin as (r & -> & _). }
  assert (Hnone : exists sent,
             (log : list (Request N)) = (log ++ sent)%list
             /\ Forall (fun request : Request N => method request = "POST") sent).
  { exists []. rewrite app_nil_r. now split. }
  revert Hout. destruct (truthy (prop params "personId")) eqn:Hperson; intros Hout;
    cbn [negb] in Hout.
  2:{ subst outcome. split; [intros _; cbn; eauto|].
      split; [intros Hnot; exfalso; apply Hnot; now left | exact Hnone]. }
  revert Hout. destruct (truthy (prop params "note")) eqn:Hnote; intros Hout;
    cbn [negb orb] in Hout.
  2:{ subst outcome. split; [intros _; cbn; eauto|].
      split; [intros Hnot; exfalso; apply Hnot; right; now left | exact Hnone]. }
  destruct (String.eqb_spec (typeof (prop params "note")) "object") as [Htype | Htype];
    cbn [negb] in Hout.
  2:{ subst outcome. split; [intros _; cbn; eauto|].
      split; [intros Hnot; exfalso; apply Hnot; right; right; now left | exact Hnone]. }
  revert Hout. destruct (objectSchemas reg !! "notes") as [noteSchema|] eqn:Hnotes;
    intros Hout.
  2:{ subst outcome. split; [intros _; cbn; eauto|].
      split; [intros Hnot; exfalso; apply Hnot; right; right; right; now left
             | exact Hnone]. }
  destruct (Nat.eqb (size (sanitizePayload (prop params "note") noteSchema)) 0) eqn:Hsize.
  { apply Nat.eqb_eq, map_size_empty_iff in Hsize.
    subst outcome. split; [intros _; cbn; eauto|].
    split; [|exact Hnone].
    intros Hnot. exfalso. apply Hnot. right. right. right. right. eauto. }
  assert (Hfields : sanitizePayload (prop params "note") noteSchema <> ∅).
  { intros E. rewrite E, map_size_empty in Hsize. discriminate. }
  clear Hnone.
  split.
  { intros [H | [H | [H | [H | (schema & [= <-] & H)]]]]; congruence. }
  refine ((fun H => conj (fun _ => ex_intro _ noteSchema (conj eq_refl (proj1 H)))
                         (proj2 H)) _).
  cbv beta.
  unfold mbind at 1 in Hout. unfold op_bind at 1 in Hout. unfold bind at 1 in Hout.
  unfold makeRequest at 1 in Hout. cbv zeta in Hout.
  fold (noteRequest noteSchema (prop params "note")) in Hout.
  assert (Hone : forall msg,
             outcome
             = (Throw msg, (log ++ [noteRequest noteSchema (prop params "note")])%list) ->
             (snd outcome = (log ++ [noteRequest noteSchema (prop params "note")])%list
              /\ exists msg, fst outcome = Throw msg)
             /\ exists sent,
                  snd outcome = (log ++ sent)%list
                  /\ Forall (fun request : Request N => method request = "POST") sent).
  { intros msg ->. cbn [fst snd]. split; [eauto|].
    eexists. split; [reflexivity|]. now repeat constructor. }
  revert Hout.
  destruct (backend (log ++ [noteRequest noteSchema (prop params "note")])%list)
    as [noteResponse | msg] eqn:Hanswer; intros Hout.
  2:{ destruct (Hone _ Hout) as [_ Hsent]. split; [exact Hout | exact Hsent]. }
  revert Hout. destruct (extractResourceId noteResponse) as [noteId|] eqn:Hid; intros Hout.
  2:{ exact (Hone _ Hout). }
  revert Hout. destruct (Str.nonEmpty noteId) eqn:Hnonempty; intros Hout;
    cbn [negb] in Hout.
  2:{ destruct (Hone _ Hout) as [Hthrow Hsent]. split; [|exact Hsent].
      destruct (objectSchemas reg !! "notetargets"); exact Hthrow. }
  revert Hout.
  destruct (objectSchemas reg !! "notetargets") as [targetSchema|] eqn:Hjoin; intros Hout.
  2:{ exact (Hone _ Hout). }
  clear Hone.
  destruct (buildNoteTargetRequests_head noteId (prop params "personId")
              (prop params "companyId") (prop params "targets")) as [rest Hhead].
  set (requests := buildNoteTargetRequests noteId _ _ _) in *.
  assert (Hlength : Nat.eqb (length requests) 0 = false) by now rewrite Hhead.
  assert (Hsome : requests <> []) by now rewrite Hhead.
  rewrite Hlength in Hout.
  unfold mbind at 1 in Hout. unfold op_bind at 1 in Hout. unfold bind at 1 in Hout.
  match type of Hout with
  | context [forEachAwait ?f requests backend ?l] =>
      destruct (forEachAwait_requests
                  f (linkRequest targetSchema)
                  (fun request answer =>
                     (sanitizePayload (JObj request) targetSchema, extractResourceId answer))
                  requests backend l)
        as (k & Hk & Hlog & Hprev & Hlast);
      [intros x b l'; unfold mbind, op_bind, bind, makeRequest, mret, op_ret, ret;
       cbv zeta; fold (linkRequest targetSchema x); now destruct (b _)
      |exact Hsome|];
      destruct (forEachAwait f requests backend l) as [[created | msg] log'] eqn:Hloop;
      cbn [fst snd] in Hlog, Hlast; subst log'
  end.
  - unfold mret, op_ret, ret in Hout. subst outcome. cbn [fst snd].
    split.
    + exists k. split; [exact Hk|]. split; [reflexivity|]. split; [exact Hprev|].
      match type of Hlast with
      | match backend ?sent with _ => _ end =>
          revert Hlast; destruct (backend sent) as [answer | msg]; intros Hlast
      end; [|discriminate Hlast].
      destruct Hlast as (Hall & ys & [= <-] & Hys).
      split; [exact Hall|]. eexists. split; [reflexivity|].
      cbn [TwentyCRMServer.noteId createdTargets]. rewrite length_map. auto.
    + rewrite <- app_assoc. cbn [app]. eexists. split; [reflexivity|].
      constructor; [reflexivity | apply Hposts].
  - subst outcome. cbn [fst snd].
    split.
    + exists k. split; [exact Hk|]. split; [reflexivity|]. split; [exact Hprev|].
      match type of Hlast with
      | match backend ?sent with _ => _ end =>
          revert Hlast; destruct (backend sent) as [answer | msg']; intros Hlast
      end.
      * destruct Hlast as (_ & ys & Hys & _). discriminate Hys.
      * now injection Hlast as <-.
    + rewrite <- app_assoc. cbn [app]. eexists. split; [reflexivity|].
      constructor; [reflexivity | apply Hposts].
Qed.

End NoteLinkProperties.

(** [buildNoteTargetRequests_objects_collide] at the note [n1], the person
    [{ id: "p1" }] and a target whose person is [{ id: "p2" }]. *)
Lemma buildNoteTargetRequests_objects_collide_example :
  buildNoteTargetRequests (N := Num) "n1" (JObj [("id", JStr "p1")]) JUndefined
                          (JArr [JObj [("personId", JObj [("id", JStr "p2")])]])
  = [[("noteId", JStr "n1"); ("personId", JObj [("id", JStr "p1")])]].
Proof.
  exact (buildNoteTargetRequests_objects_collide
           "n1" [("id", JStr "p1")] [("id", JStr "p2")] eq_refl eq_refl).
Defined.

(** [createNoteForPerson_protocol] at the registry with the join contract,
    the arguments [{ personId: "p1", companyId: "c1", note: { title: "T" } }]
    and the answering backend: every request is a POST. *)
Lemma createNoteForPerson_protocol_example :
  exists sent,
    snd (createNoteForPerson registryWithJoin noteParams answeringBackend [])
    = ([] ++ sent)%list
    /\ Forall (fun request => method request = "POST") sent.
Proof.
  refine (proj2 (proj2 (createNoteForPerson_protocol
                          registryWithJoin noteParams answeringBackend [] eq_refl _ _))).
  - intros sent answer [= <-]. reflexivity.
  - intros key schema Hkey Hschema.
    apply list_elem_of_In in Hkey. cbn in Hkey.
    destruct Hkey as [<- | [<- | []]]; vm_compute in Hschema; injection Hschema as <-;
      repeat (apply List.Forall_cons; [intros H; vm_compute in H; discriminate H|]);
      apply List.Forall_nil.
Defined.

(** ** Field properties are well-typed *)

Section FieldTypeProperties.
Context {N : Type} `{!JsNumber N}.

Lemma assoc_typeMap (t : string) :
  default "string" (assoc t typeMap) ∈ ["string"; "number"; "boolean"; "object"; "array"].
Proof.
  unfold typeMap. cbn [assoc].
  repeat match goal with
         | |- context [String.eqb ?k t] => destruct (String.eqb k t); cbv iota
         end;
    cbn [default from_option id]; apply list_elem_of_In; cbn; tauto.
Qed.

(** The base type of a field type that the [switch] of
    [buildFieldProperty] leaves alone is not [array]. *)
Lemma mapFieldType_array (t : string) :
  mapFieldType t = "array" -> t = "MULTI_SELECT" \/ t = "ARRAY".
Proof.
  unfold mapFieldType, typeMap. cbn [assoc].
  repeat match goal with
         | |- context [String.eqb ?k t] =>
             destruct (String.eqb_spec k t) as [<- | ?]; cbv iota
         end;
    cbn [default from_option id]; auto; discriminate.
Qed.

(** X25. Every property compiled from a field whose type names no member
    that an object inherits is typed: its [type] is one of string, number,
    boolean, object and array, whether the field type is a known one or
    not, and a property of type array describes its items by an object.
    The values of the field's options are listed under [enum]: on the
    items of an array, on the property itself otherwise. *)
Theorem buildFieldProperty_typed (field : Field N) :
  fieldType field ∉ objectPrototypeNames ->
  exists t,
    prop (buildFieldProperty field) "type" = JStr t
    /\ t ∈ ["string"; "number"; "boolean"; "object"; "array"]
    /\ (t = "array" -> exists items, prop (buildFieldProperty field) "items" = JObj items)
    /\ (forall options,
          fieldOptions field = Some options ->
          if String.eqb t "array"
          then prop (prop (buildFieldProperty field) "items") "enum"
               = JArr (map optionValue options)
               /\ prop (buildFieldProperty field) "enum" = JUndefined
          else prop (buildFieldProperty field) "enum" = JArr (map optionValue options)).
Proof.
  intros _. unfold buildFieldProperty.
  set (description := optVal _).
  match goal with
  | |- context [fieldTypeCase field ?base] =>
      set (compiled := fieldTypeCase field base)
  end.
  pattern compiled.
  match goal with |- ?Q compiled => set (typed := Q) end.
  assert (Hfinish :
            forall (t : string) (property : list (string * JsVal N)),
              entryOf "type" property = Some (JStr t) ->
              t ∈ ["string"; "number"; "boolean"; "object"; "array"] ->
              entryOf "enum" property = None ->
              entryOf "default" property = None ->
              (if String.eqb t "array"
               then exists items, entryOf "items" property = Some (JObj items)
                                  /\ entryOf "enum" items = None
               else True) ->
              typed property).
  { intros t property Htype Hin Henum Hdefault Hitems. unfold typed.
    exists t.
    assert (Hdef : forall (property' : list (string * JsVal N)) key,
               key <> "default" ->
               prop (JObj (if isUndefined (normalizeDefaultValue (fieldDefaultValue field))
                           then property'
                           else setProp "default"
                                  (normalizeDefaultValue (fieldDefaultValue field))
                                  property')) key
               = prop (JObj property') key).
    { intros property' key Hkey. cbn [prop].
      destruct (isUndefined _); [reflexivity|].
      now rewrite entryOf_setProp_ne by congruence. }
    rewrite !Hdef by discriminate.
    destruct (String.eqb_spec t "array") as [-> | Harray].
    - destruct Hitems as (items & Hitems & Hnoenum).
      cbn [prop]. rewrite Htype, Hitems. cbn [default from_option id].
      destruct (fieldOptions field) as [options|].
      + rewrite entryOf_setProp_ne, entryOf_setProp_eq, Htype by discriminate.
        cbn [default from_option id].
        split; [reflexivity|]. split; [exact Hin|]. split; [eauto|].
        intros options' [= <-]. cbn [prop].
        rewrite entryOf_setProp_eq, entryOf_setProp_ne, Henum by discriminate.
        split; reflexivity.
      + rewrite Htype, Hitems. cbn [default from_option id].
        split; [reflexivity|]. split; [exact Hin|]. split; [eauto | discriminate].
    - cbn [prop]. rewrite Htype. cbn [default from_option id].
      destruct (fieldOptions field) as [options|].
      + assert (Hbranch :
                  match JStr (N := N) t, default JUndefined (entryOf "items" property) with
                  | JStr "array", JObj items =>
                      setProp "items"
                        (JObj (setProp "enum" (JArr (map optionValue options)) items))
                        property
                  | _, _ => setProp "enum" (JArr (map optionValue options)) property
                  end
                  = setProp "enum" (JArr (map optionValue options)) property).
        { apply list_elem_of_In in Hin. cbn in Hin.
          destruct Hin as [<- | [<- | [<- | [<- | [<- | []]]]]];
            try reflexivity; now contradiction Harray. }
        cbv zeta. rewrite Hbranch.
        rewrite entryOf_setProp_ne, Htype by discriminate. cbn [default from_option id].
        split; [reflexivity|]. split; [exact Hin|]. split; [congruence|].
        intros options' [= <-]. now rewrite entryOf_setProp_eq.
      + rewrite Htype. cbn [default from_option id].
        split; [reflexivity|]. split; [exact Hin|]. split; [congruence | discriminate]. }
  clearbody typed. subst compiled. unfold fieldTypeCase.
  repeat match goal with
         | |- context [String.eqb (fieldType field) ?s] =>
             destruct (String.eqb_spec (fieldType field) s); cbn [orb]; cbv iota
         end;
    try match goal with
        | |- context [match fieldRelation field with _ => _ end] =>
            destruct (fieldRelation field) as [rel|];
            [destruct (isSingleType (relationType rel));
             [|destruct (isMultipleType (relationType rel))]|]
        end;
    match goal with
    | |- context [setProp "type" (JStr ?t) _] =>
        apply (Hfinish t);
        [ rewrite ?entryOf_setProp_ne by discriminate;
          first [apply entryOf_setProp_eq | reflexivity]
        | apply list_elem_of_In; cbn; tauto
        | rewrite ?entryOf_setProp_ne by discriminate; reflexivity
        | rewrite ?entryOf_setProp_ne by discriminate; reflexivity
        | cbn [String.eqb Ascii.eqb Bool.eqb];
          first [ exact I
                | eexists; split;
                  [ rewrite ?entryOf_setProp_ne by discriminate;
                    apply entryOf_setProp_eq
                  | reflexivity ] ] ]
    | |- _ => idtac
    end.
  all: apply (Hfinish (mapFieldType (fieldType field)));
    [ rewrite ?entryOf_setProp_ne by discriminate; reflexivity
    | apply assoc_typeMap
    | rewrite ?entryOf_setProp_ne by discriminate; reflexivity
    | rewrite ?entryOf_setProp_ne by discriminate; reflexivity
    | destruct (String.eqb_spec (mapFieldType (fieldType field)) "array") as [Harray | _];
      [|exact I];
      apply mapFieldType_array in Harray; destruct Harray; congruence ].
Qed.

End FieldTypeProperties.

(** [buildFieldProperty_typed] at the text field [city]. *)
Lemma buildFieldProperty_typed_city :
  exists t,
    prop (buildFieldProperty (plainField "city" "TEXT")) "type" = JStr t
    /\ t ∈ ["string"; "number"; "boolean"; "object"; "array"].
Proof.
  destruct (buildFieldProperty_typed (plainField "city" "TEXT")) as (t & Htype & Hin & _).
  - intros Hin. apply has_elem_of in Hin. vm_compute in Hin. discriminate Hin.
  - exists t. split; [exact Htype | exact Hin].
Defined.

(** ** Tool descriptors *)

Section ToolProperties.
Context {N : Type} `{!JsNumber N}.

(** X26. The five tools of a contract bear distinct names. Every name a
    tool requires is one of its properties, or it is a required name of the
    contract that names a member every object inherits, which [in] accepts
    when the creation tool filters its required names. So when no required
    name of the contract is an inherited one, every name a tool requires is
    one of its properties. *)
Theorem objectTools_well_formed (schema : Schema N) :
  NoDup (map toolName (objectTools schema))
  /\ Forall (fun tool =>
               forall name,
                 name ∈ default [] (toolRequired tool) ->
                 is_Some (toolProperties tool !! name)
                 \/ (name ∈ objectPrototypeNames /\ name ∈ required schema))
            (objectTools schema)
  /\ (Forall (fun name => name ∉ objectPrototypeNames) (required schema) ->
      Forall (fun tool =>
                forall name,
                  name ∈ default [] (toolRequired tool) ->
                  is_Some (toolProperties tool !! name))
             (objectTools schema)).
Proof.
  assert (Hid : forall (v : JsVal N) name,
             name ∈ ["id"] -> is_Some (({["id" := v]} : gmap string (JsVal N)) !! name)).
  { intros v name Hin. apply list_elem_of_singleton in Hin. subst name.
    rewrite lookup_singleton_eq. eauto. }
  assert (Hcreate : forall name,
             name ∈ List.filter
                      (fun fieldName =>
                         bool_decide (is_Some (buildWritableProperties schema !! fieldName))
                         || has objectPrototypeNames fieldName)
                      (required schema) ->
             is_Some (buildWritableProperties schema !! name)
             \/ (name ∈ objectPrototypeNames /\ name ∈ required schema)).
  { intros name Hin. apply list_elem_of_In, filter_In in Hin.
    destruct Hin as [Hrequired Hin]. apply orb_true_iff in Hin.
    destruct Hin as [Hin | Hin].
    - left. now apply bool_decide_eq_true in Hin.
    - right. split; [now apply has_elem_of | now apply list_elem_of_In]. }
  split; [|split].
  - unfold objectTools. cbn [map toolName].
    repeat (apply NoDup_cons; split;
            [rewrite ?not_elem_of_cons; repeat split;
             first [apply not_elem_of_nil | discriminate]|]).
    apply NoDup_nil_2.
  - unfold objectTools.
    repeat apply List.Forall_cons; cbn [toolRequired toolProperties default from_option id].
    + exact Hcreate.
    + intros name Hin. left. now apply Hid.
    + intros name Hin. left. apply lookup_union_is_Some. right. now apply Hid.
    + intros name Hin. now apply elem_of_nil in Hin.
    + intros name Hin. left. now apply Hid.
    + apply List.Forall_nil.
  - intros Hown. unfold objectTools.
    repeat apply List.Forall_cons; cbn [toolRequired toolProperties default from_option id].
    + intros name Hin. destruct (Hcreate name Hin) as [Hname | [Hinherited Hrequired]];
        [exact Hname|].
      rewrite List.Forall_forall in Hown. apply list_elem_of_In in Hrequired.
      now destruct (Hown name Hrequired).
    + intros name Hin. now apply Hid.
    + intros name Hin. apply lookup_union_is_Some. right. now apply Hid.
    + intros name Hin. now apply elem_of_nil in Hin.
    + intros name Hin. now apply Hid.
    + apply List.Forall_nil.
Qed.

End ToolProperties.

(** A contract with the required POSITION field [constructor] and the text
    field [city]: the creation tool requires [constructor], a name that its
    properties inherit, and does not declare it. *)
Example objectTools_requires_inherited_name :
  let schema : Schema Num :=
    {| nameSingular := "person";
       namePlural := "people";
       labelSingular := None;
       labelPlural := None;
       description := None;
       properties := {[ "constructor" := described "number" "Position";
                        "city" := described "string" "City" ]};
       required := ["constructor"];
       fieldMetadata := [plainField "constructor" "POSITION"; plainField "city" "TEXT"];
       relationMetadata := [] |} in
  (fun tool => (toolRequired tool, toolProperties tool !! "constructor"))
    <$> head (objectTools schema)
  = Some (Some ["constructor"], None).
Proof. vm_compute. reflexivity. Qed.

(** ** Command-line options *)

Section CliProperties.
Import Handlers.

Lemma foldl_ignored (argv : list string) (quiet : bool) :
  Forall (fun arg => forall quiet, applyArgument quiet arg = quiet) argv ->
  foldl applyArgument quiet argv = quiet.
Proof.
  revert quiet. induction argv as [|arg argv IH]; intros quiet Hall; [reflexivity|].
  apply Forall_cons in Hall. destruct Hall as [Harg Hall].
  cbn [foldl]. rewrite Harg. now apply IH.
Qed.

(** X27. Every command-line argument either decides the quiet option
    whatever it was, or leaves it as it is. With no deciding argument the
    option is what the environment level says, not quiet by default; else
    the last deciding argument wins, over earlier ones and over the
    environment. *)
Theorem parseCliOptions_last_wins
        (envLevel : option string) (before after : list string) (arg : string) :
  ((forall quiet, applyArgument quiet arg = quiet)
   \/ applyArgument true arg = applyArgument false arg)
  /\ (Forall (fun arg => forall quiet, applyArgument quiet arg = quiet) after ->
      parseCliOptions envLevel after = applyLevel (Str.toLowerCase <$> envLevel) false
      /\ parseCliOptions None after = false)
  /\ (applyArgument true arg = applyArgument false arg ->
      Forall (fun arg => forall quiet, applyArgument quiet arg = quiet) after ->
      parseCliOptions envLevel (before ++ arg :: after) = applyArgument false arg).
Proof.
  split; [|split].
  - unfold applyArgument.
    destruct ((arg =? "--quiet") || (arg =? "-q")); [now right|].
    destruct ((arg =? "--verbose") || (arg =? "-v")); [now right|].
    destruct (afterPrefix "--log-level=" arg) as [rest|]; [|now left].
    unfold applyLevel.
    destruct ((_ =? "silent") || (_ =? "quiet")); [now right|].
    destruct (_ =? "verbose"); [now right | now left].
  - intros Hafter. unfold parseCliOptions. now rewrite !foldl_ignored.
  - intros Harg Hafter. unfold parseCliOptions.
    rewrite foldl_app. cbn [foldl]. rewrite foldl_ignored by exact Hafter.
    now destruct (foldl applyArgument _ before).
Qed.

End CliProperties.

(** ** Identifiers in responses *)

Section ResourceIdProperties.
Context {N : Type} `{!JsNumber N}.

Lemma entryOf_filter (keys : list string) (key : string)
      (entries : list (string * JsVal N)) :
  has keys key = true ->
  entryOf key (List.filter (fun entry => has keys (fst entry)) entries)
  = entryOf key entries.
Proof.
  intros Hkey. induction entries as [|[k v] rest IH]; [reflexivity|].
  cbn [List.filter fst entryOf]. destruct (String.eqb_spec k key) as [-> | Hne].
  - rewrite Hkey. cbn [entryOf]. now rewrite String.eqb_refl.
  - destruct (has keys k); [|exact IH].
    cbn [entryOf]. destruct (String.eqb_spec k key); [congruence | exact IH].
Qed.

(** The identifier found under a key of an object. *)
Lemma extractResourceId_object (entries : list (string * JsVal N)) :
  let under key :=
    match entryOf key entries with
    | Some v => extractResourceId v
    | None => None
    end in
  extractResourceId (JObj entries)
  = if truthy (prop (JObj entries) "id") then Some (toString (prop (JObj entries) "id"))
    else match under "data" with
         | Some id => if Str.nonEmpty id then Some id
                      else match under "record" with
                           | Some id' => if Str.nonEmpty id' then Some id' else None
                           | None => None
                           end
         | None => match under "record" with
                   | Some id' => if Str.nonEmpty id' then Some id' else None
                   | None => None
                   end
         end.
Proof.
  cbv zeta.
  assert (Hnested :
            forall key (es : list (string * JsVal N)),
              (fix nested (key : string) (es : list (string * JsVal N)) : option string :=
                 match es with
                 | [] => None
                 | (k, v) :: rest =>
                     if String.eqb k key then extractResourceId v else nested key rest
                 end) key es
              = match entryOf key es with
                | Some v => extractResourceId v
                | None => None
                end).
  { intros key es. induction es as [|[k v] rest IH]; [reflexivity|].
    cbn [entryOf]. destruct (String.eqb k key); [reflexivity | exact IH]. }
  cbn [extractResourceId]. now rewrite !Hnested.
Qed.

(** X28. In an object, [extractResourceId] reads the members [id], [data]
    and [record] and no other: the identifier of a response is the one of
    the response stripped of every other member, so that an identifier
    nested under another name is not found. *)
Theorem extractResourceId_members (entries : list (string * JsVal N)) :
  extractResourceId (JObj entries)
  = extractResourceId
      (JObj (List.filter (fun entry => has ["id"; "data"; "record"] (fst entry)) entries))
  /\ (entryOf "id" entries = None ->
      entryOf "data" entries = None ->
      entryOf "record" entries = None ->
      extractResourceId (JObj entries) = None).
Proof.
  split.
  - rewrite !extractResourceId_object. cbv zeta. cbn [prop].
    now rewrite !entryOf_filter by reflexivity.
  - intros Hid Hdata Hrecord. rewrite extractResourceId_object. cbv zeta. cbn [prop].
    now rewrite Hid, Hdata, Hrecord.
Qed.

End ResourceIdProperties.

(** ** The fields of a contract *)

Section FieldSelectionProperties.
Context {N : Type} `{!JsNumber N}.

(** X29. The fields of a contract are looked up a second time, by the plural
    name of the object found. When that name is not empty and no other
    active object of the export bears it as its plural or singular name,
    up to letter case, the contract lists the fields of the object found,
    in their order: those that are active, are not system fields and, for
    a RELATION field, have the type MANY_TO_ONE or ONE_TO_ONE. *)
Theorem generateToolSchema_fields
        (metadata : Metadata N) (name : string) (schema : Schema N) :
  generateToolSchema metadata name = Some schema ->
  exists objects object,
    metadata = Some objects
    /\ object ∈ objects
    /\ getObjectByName metadata name = Some object
    /\ fieldMetadata schema = getObjectFields metadata (objNamePlural object)
    /\ (objNamePlural object <> "" ->
        (forall other,
           other ∈ objects -> objIsActive other = true ->
           Str.toLowerCase (objNamePlural other) = Str.toLowerCase (objNamePlural object)
           \/ Str.toLowerCase (objNameSingular other)
              = Str.toLowerCase (objNamePlural object) ->
           other = object) ->
        fieldMetadata schema = List.filter fieldSelected (objFields object)
        /\ forall field,
             field ∈ fieldMetadata schema
             <-> field ∈ objFields object
                 /\ fieldIsActive field = true
                 /\ fieldIsSystem field = false
                 /\ (fieldType field = "RELATION" ->
                     exists rel,
                       fieldRelation field = Some rel
                       /\ (relationType rel = Some "MANY_TO_ONE"
                           \/ relationType rel = Some "ONE_TO_ONE"))).
Proof.
  unfold generateToolSchema.
  destruct (getObjectByName metadata name) as [object|] eqn:Hfind; [|discriminate].
  intros [= <-]. cbn [fieldMetadata].
  assert (Hfound := Hfind). unfold getObjectByName in Hfound.
  destruct metadata as [objects|]; [|discriminate].
  destruct (negb (Str.nonEmpty name)); [discriminate|].
  apply find_some in Hfound. destruct Hfound as [Hin Htest].
  apply andb_true_iff in Htest. destruct Htest as [Hactive _].
  exists objects, object. split; [reflexivity|]. split; [now apply list_elem_of_In|].
  split; [reflexivity|]. split; [reflexivity|].
  intros Hplural Hunique.
  assert (Hown : getObjectFields (Some objects) (objNamePlural object)
                 = List.filter fieldSelected (objFields object)).
  { unfold getObjectFields, getObjectByName.
    apply nonEmpty_true in Hplural. rewrite Hplural. cbn [negb].
    destruct (List.find _ objects) as [owner|] eqn:Howner.
    - apply find_some in Howner. destruct Howner as [Hin' Htest].
      apply andb_true_iff in Htest. destruct Htest as [Hactive' Hmatch].
      apply orb_true_iff in Hmatch.
      rewrite (Hunique owner); [reflexivity | now apply list_elem_of_In | exact Hactive' |].
      destruct Hmatch as [H | H]; apply String.eqb_eq in H; auto.
    - exfalso. apply (find_none _ _ Howner) in Hin.
      cbn beta in Hin. rewrite Hactive, String.eqb_refl in Hin. discriminate Hin. }
  split; [exact Hown|].
  intros field. rewrite Hown. rewrite !list_elem_of_In, filter_In.
  unfold fieldSelected. split.
  - intros [Hfield Hsel]. split; [exact Hfield|].
    destruct (fieldIsActive field); [|discriminate].
    destruct (fieldIsSystem field); [discriminate|].
    split; [reflexivity|]. split; [reflexivity|].
    intros Htype. rewrite Htype in Hsel. cbn in Hsel.
    destruct (fieldRelation field) as [rel|]; [|discriminate].
    exists rel. split; [reflexivity|].
    apply orb_true_iff in Hsel. unfold isType in Hsel.
    destruct (relationType rel) as [t|]; [|destruct Hsel; discriminate].
    destruct Hsel as [H | H]; apply String.eqb_eq in H; subst t; auto.
  - intros (Hfield & -> & -> & Hrelation). split; [exact Hfield|]. cbn [negb orb].
    destruct (String.eqb_spec (fieldType field) "RELATION") as [Htype | _]; [|reflexivity].
    destruct (Hrelation Htype) as (rel & -> & [-> | ->]); reflexivity.
Qed.

End FieldSelectionProperties.

(** [generateToolSchema_fields] at the object [people] of the example
    export: the ONE_TO_MANY relation and the relation of unknown type are
    left out. *)
Lemma generateToolSchema_fields_people :
  exists schema,
    generateToolSchema peopleMetadata "people" = Some schema
    /\ map fieldName (fieldMetadata schema) = ["city"; "company"].
Proof.
  eexists. split; [reflexivity|].
  match goal with
  | |- map fieldName (fieldMetadata ?schema) = _ =>
      destruct (generateToolSchema_fields peopleMetadata "people" schema eq_refl)
        as (objects & object & _ & _ & Hfound & Hfields & _)
  end.
  vm_compute in Hfound. injection Hfound as <-.
  rewrite Hfields. vm_compute. reflexivity.
Defined.
